(** * libbsdf: sample grids, array utilities and the DDR exporter

    A shallow embedding of the parts of libbsdf that own the angular sample
    grid ([SampleSet]), the array helpers of [Array.h], the tabulation of a
    reflectance model ([setupTabularBrdf]) and the DDR/SDR text writer
    ([DdrWriter]).

    Scalars are IEEE 754 binary floating-point numbers, taken from the
    specification of the Standard Library ([SpecFloat]): [float] in the C++
    sources is binary32, [double] is binary64.  All arithmetic rounds to
    nearest, ties to even, as the C++ code does on its target platforms. *)

From Stdlib Require Import ZArith Ascii String Lia.
From Stdlib Require Import Floats.SpecFloat.
From stdpp Require Import base list numbers.

Local Open Scope Z_scope.

(** ** IEEE 754 scalars *)

Module IEEE.

Record format := Format { fprec : Z; femax : Z }.

Definition binary32 : format := Format 24 128.
Definition binary64 : format := Format 53 1024.

Section Ops.
Variable fmt : format.

Definition add := SFadd (fprec fmt) (femax fmt).
Definition sub := SFsub (fprec fmt) (femax fmt).
Definition mul := SFmul (fprec fmt) (femax fmt).
Definition div := SFdiv (fprec fmt) (femax fmt).
Definition sqrt := SFsqrt (fprec fmt) (femax fmt).

(** Conversion of a C++ integer to the format ([static_cast], or the
    usual arithmetic conversion of an integer operand). *)
Definition ofZ (z : Z) : spec_float :=
  binary_normalize (fprec fmt) (femax fmt) z 0 false.

(** Conversion from another format, e.g. [float] to [double]. *)
Definition convert (x : spec_float) : spec_float :=
  match x with
  | S754_finite s m e => binary_round (fprec fmt) (femax fmt) s m e
  | _ => x
  end.
End Ops.

Definition ltb := SFltb.
Definition leb := SFleb.
Definition eqb := SFeqb.
Definition abs := SFabs.
Definition opp := SFopp.

Definition zero : spec_float := S754_zero false.

Definition is_nan (x : spec_float) : bool :=
  match x with S754_nan => true | _ => false end.

Definition is_finite (x : spec_float) : bool :=
  match x with S754_zero _ | S754_finite _ _ _ => true | _ => false end.

(** Conversion to a C++ integer: the fraction is discarded. *)
Definition truncZ (x : spec_float) : Z :=
  match x with
  | S754_finite s m e =>
      let v := Z.shiftl (Zpos m) e in if s then - v else v
  | _ => 0
  end.

(** [std::min] and [std::max] of <algorithm>: [(b < a) ? b : a] and
    [(a < b) ? b : a]. *)
Definition std_min (a b : spec_float) : spec_float := if ltb b a then b else a.
Definition std_max (a b : spec_float) : spec_float := if ltb a b then b else a.

End IEEE.

#[global] Instance spec_float_inhabited : Inhabited spec_float :=
  populate S754_nan.

#[global] Instance spec_float_eq_dec : EqDecision spec_float.
Proof. solve_decision. Defined.

(** ** Eigen arrays *)

(** [Eigen::ArrayXf] and [Eigen::ArrayXd] are dynamically sized arrays of
    scalars. *)
Abbreviation Array := (list spec_float) (only parsing).

Module Eigen.
Import IEEE.

Section Scalar.
Variable fmt : format.

(** [DenseBase::LinSpaced(size, low, high)] of Eigen 3.3/3.4 for a
    floating-point scalar: [size] values from [low] to [high], the last
    one being [high] itself; a sequence of one element holds [high].  When
    [|high| < |low|] the sequence is computed downwards from [high]. *)
Definition LinSpaced (size : nat) (low high : spec_float) : Array :=
  let low := if (size =? 1)%nat then high else low in
  let size1 := if (size =? 1)%nat then 1%nat else (size - 1)%nat in
  let step :=
    if (size =? 1)%nat then zero
    else div fmt (sub fmt high low) (ofZ fmt (Z.of_nat (size - 1))) in
  let flip := ltb (abs high) (abs low) in
  (fun i : nat =>
     if flip then
       if (i =? 0)%nat then low
       else sub fmt high (mul fmt (ofZ fmt (Z.of_nat (size1 - i))) step)
     else
       if (i =? size1)%nat then high
       else add fmt low (mul fmt (ofZ fmt (Z.of_nat i)) step))
  <$> seq 0 size.

(** [allFinite()] and [hasNaN()] of a dense expression. *)
Definition allFinite (a : Array) : bool := forallb is_finite a.
Definition hasNaN (a : Array) : bool := existsb is_nan a.

(** [cwiseMin(s)] and [cwiseMax(s)] with a scalar argument. *)
Definition cwiseMin (a : Array) (s : spec_float) : Array :=
  (fun x => std_min x s) <$> a.
Definition cwiseMax (a : Array) (s : spec_float) : Array :=
  (fun x => std_max x s) <$> a.

(** [sum()] of a vector whose size is fixed at compile time, as [Vector3f]:
    the reduction is unrolled ([redux_novec_unroller] of Redux.h) into a
    tree that splits the range of [Length] coefficients after the first
    [Length / 2]; three coefficients are added as [v0 + (v1 + v2)].  The
    sum of no coefficient is zero. *)
Fixpoint redux (fuel : nat) (a : Array) : spec_float :=
  match fuel with
  | O => zero
  | S fuel' =>
      match a with
      | [] => zero
      | [x] => x
      | _ =>
          let half := (length a / 2)%nat in
          add fmt (redux fuel' (take half a)) (redux fuel' (drop half a))
      end
  end.

Definition sum (a : Array) : spec_float := redux (length a) a.
End Scalar.
End Eigen.

(** ** Array.h: [array_util] *)

Module array_util.
Import IEEE.

Section Scalar.
(** The scalar type of the array template argument. *)
Variable fmt : format.

(** [std::pow] of <cmath> for the scalar type. *)
Variable pow : spec_float -> spec_float -> spec_float.

(** [isEqual] of Common/Utility.h: near-equality of an element and a
    [double]. *)
Variable isEqual : spec_float -> spec_float -> bool.

(** One iteration of the loop of [createExponential]. *)
Definition createExponential_step
    (maxValue exponent : spec_float) (arr : Array) (i : nat) : Array :=
  let ratio := div fmt (arr !!! i) maxValue in
  let ratio := pow ratio exponent in
  <[ i := mul fmt ratio maxValue ]> arr.

Definition createExponential
    (numElements : nat) (maxValue exponent : spec_float) : Array :=
  let arr := Eigen.LinSpaced fmt numElements zero maxValue in
  foldl (createExponential_step maxValue exponent) arr
        (seq 1 (length arr - 2)).

(** The nominal interval of [isEqualInterval], a [double]. *)
Definition nominalInterval (array : Array) : spec_float :=
  convert binary64
    (div fmt (array !!! (length array - 1)%nat)
             (ofZ fmt (Z.of_nat (length array) - 1))).

(** The loop of [isEqualInterval]: the first element that is not equal
    to its nominal position ends it. *)
Fixpoint isEqualInterval_loop
    (array : Array) (interval : spec_float) (idx : list nat) : bool :=
  match idx with
  | [] => true
  | i :: idx' =>
      if negb (isEqual (array !!! i)
                       (mul binary64 interval (ofZ binary64 (Z.of_nat i))))
      then false
      else isEqualInterval_loop array interval idx'
  end.

Definition isEqualInterval (array : Array) : bool :=
  if (length array <=? 2)%nat then false
  else isEqualInterval_loop array (nominalInterval array)
                            (seq 0 (length array)).
End Scalar.

(** [std::lower_bound] over the elements [first .. first + len - 1]: the
    index of the first element that is not less than [value]. *)
Fixpoint lower_bound (fuel : nat) (values : Array) (value : spec_float)
    (first len : nat) : nat :=
  match fuel with
  | O => first
  | S fuel' =>
      if (len =? 0)%nat then first
      else
        let half := (len / 2)%nat in
        let middle := (first + half)%nat in
        if ltb (values !!! middle) value then
          lower_bound fuel' values value (middle + 1) (len - half - 1)
        else
          lower_bound fuel' values value first half
  end.

(** Modelled from the spec: [findBounds], which Array.h declares and whose
    body is not among the sources.  It returns the bracketing pair of
    indices and values.  A sequence of one element gives index 0 twice.  A
    query below the first or above the last element gives the two nearest
    boundary samples.  Otherwise the lower index comes from a direct
    division for equally spaced values, and from a binary search over the
    ascending sequence if not. *)
Definition findBounds (values : Array) (value : spec_float)
    (equalIntervalValues : bool) : nat * nat * spec_float * spec_float :=
  let n := length values in
  if (n =? 1)%nat then (0%nat, 0%nat, values !!! 0%nat, values !!! 0%nat)
  else
    let backIndex := (n - 1)%nat in
    let backValue := values !!! backIndex in
    let lowerIndex :=
      if ltb value (values !!! 0%nat) then 0%nat
      else if ltb backValue value then (backIndex - 1)%nat
      else if equalIntervalValues then
        let interval := div binary64 backValue (ofZ binary64 (Z.of_nat backIndex)) in
        Nat.min (Z.to_nat (truncZ (div binary64 value interval)))
                (backIndex - 1)
      else
        let found := lower_bound n values value 0 n in
        (Nat.max 1 (Nat.min found backIndex) - 1)%nat in
    let upperIndex := (lowerIndex + 1)%nat in
    (lowerIndex, upperIndex, values !!! lowerIndex, values !!! upperIndex).
End array_util.

(** ** Common/Utility.h and Common/Log.h *)

Module Utility.
Import IEEE.

(** Modelled from the spec: the constants [PI_F] and [EPSILON_F] of
    Common/Utility.h, a header that is not among the sources: the spec's
    π and ε as binary32 numbers, that is the [float] nearest to π and
    [std::numeric_limits<float>::epsilon()]. *)
Definition PI_F : spec_float := S754_finite false 13176795 (-22).
Definition EPSILON_F : spec_float := S754_finite false 8388608 (-46).

(** Modelled from the spec: [PI_2_F], the largest polar angle (90°). *)
Definition PI_2_F : spec_float := S754_finite false 13176795 (-23).

(** The [float] literals [2.0f], [3.0f], [1.0f] and [0.001f]. *)
Definition two_f : spec_float := S754_finite false 8388608 (-22).
Definition three_f : spec_float := S754_finite false 12582912 (-22).
Definition one_f : spec_float := S754_finite false 8388608 (-23).
Definition milli_f : spec_float := S754_finite false 8589935 (-33).
End Utility.

Module Log.
Inductive Level := Info | Warn | Error.

(** A message of the logger with the numbers streamed into it. *)
Record Entry := { level : Level; text : string; numbers : list nat }.

Abbreviation t := (list Entry) (only parsing).
End Log.

(** ** A state monad for member functions *)

Definition St (S A : Type) : Type := S -> A * S.

Definition ret {S A} (a : A) : St S A := fun s => (a, s).
Definition bind {S A B} (m : St S A) (k : A -> St S B) : St S B :=
  fun s => let '(a, s') := m s in k a s'.
Definition gets {S A} (f : S -> A) : St S A := fun s => (f s, s).
Definition modify {S} (f : S -> S) : St S unit := fun s => (tt, f s).

Notation "'do' x <- m ; k" := (bind m (fun x => k))
  (at level 10, x name, m at level 100, k at level 200).
Notation "'do_' m ; k" := (bind m (fun _ => k))
  (at level 10, m at level 100, k at level 200).

(** A [for] loop that carries its local variables in an accumulator. *)
Fixpoint foldM {S A I} (body : A -> I -> St S A) (a : A) (l : list I)
  : St S A :=
  match l with
  | [] => ret a
  | i :: l' => do a' <- body a i; foldM body a' l'
  end.

Definition for_ {S I} (l : list I) (body : I -> St S unit) : St S unit :=
  foldM (fun _ i => body i) tt l.

(** ** Brdf/SampleSet *)

Inductive ColorModel :=
  | MONOCHROMATIC_MODEL | RGB_MODEL | XYZ_MODEL | SPECTRAL_MODEL.

#[global] Instance ColorModel_eq_dec : EqDecision ColorModel.
Proof. solve_decision. Defined.

(** [Spectrum] is an [Eigen::ArrayXf]. *)
Abbreviation Spectrum := (list spec_float) (only parsing).

Record SampleSet := mkSampleSet {
  angles0_ : Array;
  angles1_ : Array;
  angles2_ : Array;
  angles3_ : Array;
  spectra_ : list Spectrum;
  wavelengths_ : Array;
  colorModel_ : ColorModel;
  equalIntervalAngles0_ : bool;
  equalIntervalAngles1_ : bool;
  equalIntervalAngles2_ : bool;
  equalIntervalAngles3_ : bool;
  oneSide_ : bool
}.

Module SampleSet.
Import IEEE Utility.

Definition f32 := binary32.

Definition getNumAngles0 (ss : SampleSet) : nat := length (angles0_ ss).
Definition getNumAngles1 (ss : SampleSet) : nat := length (angles1_ ss).
Definition getNumAngles2 (ss : SampleSet) : nat := length (angles2_ ss).
Definition getNumAngles3 (ss : SampleSet) : nat := length (angles3_ ss).
Definition getNumWavelengths (ss : SampleSet) : nat :=
  length (wavelengths_ ss).
Definition getColorModel (ss : SampleSet) : ColorModel := colorModel_ ss.

(** Modelled from the spec: the inline accessors of SampleSet.h, which is
    not among the sources.  The spectral sample array maps the 4-tuple of
    axis indices to one vector; the cells lie in one [std::vector], the
    first index running fastest.  A grid is isotropic when its
    incoming-azimuth axis has one sample. *)
Definition index (ss : SampleSet) (i0 i1 i2 i3 : nat) : nat :=
  (i0
   + getNumAngles0 ss * i1
   + getNumAngles0 ss * getNumAngles1 ss * i2
   + getNumAngles0 ss * getNumAngles1 ss * getNumAngles2 ss * i3)%nat.

Definition getSpectrum (ss : SampleSet) (i0 i1 i2 i3 : nat) : Spectrum :=
  spectra_ ss !!! index ss i0 i1 i2 i3.

Definition setSpectrum (i0 i1 i2 i3 : nat) (sp : Spectrum) (ss : SampleSet)
  : SampleSet :=
  mkSampleSet (angles0_ ss) (angles1_ ss) (angles2_ ss) (angles3_ ss)
    (<[ index ss i0 i1 i2 i3 := sp ]> (spectra_ ss))
    (wavelengths_ ss) (colorModel_ ss)
    (equalIntervalAngles0_ ss) (equalIntervalAngles1_ ss)
    (equalIntervalAngles2_ ss) (equalIntervalAngles3_ ss) (oneSide_ ss).

Definition isIsotropic (ss : SampleSet) : bool :=
  (getNumAngles1 ss =? 1)%nat.

(** Member functions run on the object and the logger. *)
Definition Method (A : Type) : Type := St (SampleSet * Log.t) A.

Definition self : Method SampleSet := gets fst.
Definition update (f : SampleSet -> SampleSet) : Method unit :=
  modify (fun s => (f (fst s), snd s)).
Definition lbInfo (msg : string) : Method unit :=
  modify (fun s => (fst s, snd s ++ [Log.Build_Entry Log.Info msg []])).
Definition lbWarn (msg : string) (nums : list nat) : Method unit :=
  modify (fun s => (fst s, snd s ++ [Log.Build_Entry Log.Warn msg nums])).
End SampleSet.

Module SampleSetMethods.
Import IEEE Utility SampleSet.

Section Collaborators.
(** [isEqual] of Common/Utility.h, used through [isEqualInterval]. *)
Variable isEqual : spec_float -> spec_float -> bool.

(** The body of the four nested loops of [validate]. *)
Definition validate_cell (i0 i1 i2 i3 : nat) (spectraValid : bool)
  : Method bool :=
  do ss <- self;
  let sp := getSpectrum ss i0 i1 i2 i3 in
  if negb (Eigen.allFinite sp) then
    do_ (if Eigen.hasNaN sp then
           lbWarn "[SampleSet::validate] The spectrum contains NaN values at"
                  [i0; i1; i2; i3]
         else
           lbWarn "[SampleSet::validate] The spectrum contains +/-INF values at"
                  [i0; i1; i2; i3]);
    ret false
  else ret spectraValid.

(** One of the five array checks of [validate]. *)
Definition validate_array (a : Array) (okMsg badMsg : string)
    (valid : bool) : Method bool :=
  if Eigen.allFinite a then do_ lbInfo okMsg; ret valid
  else do_ lbWarn badMsg []; ret false.

Definition validate : Method bool :=
  do ss <- self;
  let valid := true in
  (* Spectra *)
  do spectraValid <-
    foldM (fun v0 i0 =>
    foldM (fun v1 i1 =>
    foldM (fun v2 i2 =>
    foldM (fun v3 i3 => validate_cell i0 i1 i2 i3 v3)
          v2 (seq 0 (getNumAngles3 ss)))
          v1 (seq 0 (getNumAngles2 ss)))
          v0 (seq 0 (getNumAngles1 ss)))
          true (seq 0 (getNumAngles0 ss));
  do valid <-
    (if spectraValid : bool then
       do_ lbInfo "[SampleSet::validate] Spectra are valid."; ret valid
     else
       do_ lbWarn "[SampleSet::validate] Invalid spectra are found." [];
       ret false);
  (* Angles *)
  do valid <- validate_array (angles0_ ss)
    "[SampleSet::validate] The array of angle0 is valid."
    "[SampleSet::validate] The invalid angle0(s) is found." valid;
  do valid <- validate_array (angles1_ ss)
    "[SampleSet::validate] The array of angle1 is valid."
    "[SampleSet::validate] The invalid angle1(s) is found." valid;
  do valid <- validate_array (angles2_ ss)
    "[SampleSet::validate] The array of angle2 is valid."
    "[SampleSet::validate] The invalid angle2(s) is found." valid;
  do valid <- validate_array (angles3_ ss)
    "[SampleSet::validate] The array of angle3 is valid."
    "[SampleSet::validate] The invalid angle3(s) is found." valid;
  (* Wavelengths *)
  do valid <- validate_array (wavelengths_ ss)
    "[SampleSet::validate] Wavelengths are valid."
    "[SampleSet::validate] The invalid wavelength(s) is found." valid;
  ret valid.

Definition set_equalIntervalAngles (e0 e1 e2 e3 : bool) (ss : SampleSet)
  : SampleSet :=
  mkSampleSet (angles0_ ss) (angles1_ ss) (angles2_ ss) (angles3_ ss)
    (spectra_ ss) (wavelengths_ ss) (colorModel_ ss)
    e0 e1 e2 e3 (oneSide_ ss).

Definition set_oneSide (b : bool) (ss : SampleSet) : SampleSet :=
  mkSampleSet (angles0_ ss) (angles1_ ss) (angles2_ ss) (angles3_ ss)
    (spectra_ ss) (wavelengths_ ss) (colorModel_ ss)
    (equalIntervalAngles0_ ss) (equalIntervalAngles1_ ss)
    (equalIntervalAngles2_ ss) (equalIntervalAngles3_ ss) b.

Definition updateEqualIntervalAngles : Method unit :=
  do ss <- self;
  let isEqualInterval := array_util.isEqualInterval f32 isEqual in
  do_ update (set_equalIntervalAngles
                (isEqualInterval (angles0_ ss))
                (isEqualInterval (angles1_ ss))
                (isEqualInterval (angles2_ ss))
                (isEqualInterval (angles3_ ss)));
  do_ lbInfo "[SampleSet::updateEqualIntervalAngles] Angle0: ";
  do_ lbInfo "[SampleSet::updateEqualIntervalAngles] Angle1: ";
  do_ lbInfo "[SampleSet::updateEqualIntervalAngles] Angle2: ";
  lbInfo "[SampleSet::updateEqualIntervalAngles] Angle3: ".

(** [updateOneSide]: the margin and the four limits it compares with. *)
Definition offset : spec_float := mul f32 EPSILON_F two_f.

Definition lowerHalf_min : spec_float := offset.
Definition lowerHalf_max : spec_float :=
  sub f32 PI_F (mul f32 offset PI_F).
Definition upperHalf_min : spec_float :=
  add f32 PI_F (mul f32 offset PI_F).
Definition upperHalf_max : spec_float :=
  sub f32 (mul f32 two_f PI_F) (mul f32 (mul f32 offset two_f) PI_F).

(** The loop of [updateOneSide]; the two locals are the state. *)
Definition updateOneSide_step (flags : bool * bool) (angle : spec_float)
  : bool * bool :=
  let '(containing_0_PI, containing_PI_2PI) := flags in
  let containing_0_PI :=
    if ltb lowerHalf_min angle && ltb angle lowerHalf_max then true
    else containing_0_PI in
  let containing_PI_2PI :=
    if ltb upperHalf_min angle && ltb angle upperHalf_max then true
    else containing_PI_2PI in
  (containing_0_PI, containing_PI_2PI).

Definition updateOneSide_flags (angles3 : Array) : bool * bool :=
  foldl updateOneSide_step (false, false) angles3.

Definition updateOneSide : Method unit :=
  do ss <- self;
  let '(containing_0_PI, containing_PI_2PI) :=
    updateOneSide_flags (angles3_ ss) in
  do_ update (set_oneSide (negb containing_0_PI || negb containing_PI_2PI));
  lbInfo "[SampleSet::updateOneSide] ".

Definition updateAngleAttributes : Method unit :=
  do_ updateEqualIntervalAngles;
  updateOneSide.
End Collaborators.
End SampleSetMethods.

(** ** Brdf/Brdf, Brdf/SpecularCoordinatesBrdf *)

Inductive SourceType :=
  | UNKNOWN_SOURCE | MEASURED_SOURCE | GENERATED_SOURCE | EDITED_SOURCE.

Inductive DataType :=
  | UNKNOWN_DATA | BRDF_DATA | BTDF_DATA
  | SPECULAR_REFLECTANCE_DATA | SPECULAR_TRANSMITTANCE_DATA.

#[global] Instance DataType_eq_dec : EqDecision DataType.
Proof. solve_decision. Defined.

(** The dynamic type of a [Brdf] object, as far as [dynamic_cast] tells the
    classes apart. *)
Inductive BrdfClass :=
  | SpecularCoordinatesBrdf | SphericalCoordinatesBrdf | OtherBrdf.

Record Brdf := mkBrdf {
  class_ : BrdfClass;
  samples_ : SampleSet;
  sourceType_ : SourceType;
  specularOffsets_ : Array
}.

Module Brdf.
Definition getSampleSet (b : Brdf) : SampleSet := samples_ b.
Definition getSourceType (b : Brdf) : SourceType := sourceType_ b.

Definition setSampleSet (ss : SampleSet) (b : Brdf) : Brdf :=
  mkBrdf (class_ b) ss (sourceType_ b) (specularOffsets_ b).

(** Modelled from the spec: the accessors of SpecularCoordinatesBrdf.h,
    which is not among the sources.  In the canonical grid the four axes
    are incoming polar, incoming azimuth, specular-offset polar and
    specular-offset azimuth. *)
Definition getNumInTheta (b : Brdf) : nat := SampleSet.getNumAngles0 (samples_ b).
Definition getNumInPhi (b : Brdf) : nat := SampleSet.getNumAngles1 (samples_ b).
Definition getNumSpecTheta (b : Brdf) : nat := SampleSet.getNumAngles2 (samples_ b).
Definition getNumSpecPhi (b : Brdf) : nat := SampleSet.getNumAngles3 (samples_ b).
Definition getInTheta (b : Brdf) (i : nat) : spec_float := angles0_ (samples_ b) !!! i.
Definition getInPhi (b : Brdf) (i : nat) : spec_float := angles1_ (samples_ b) !!! i.
Definition getSpecTheta (b : Brdf) (i : nat) : spec_float := angles2_ (samples_ b) !!! i.
Definition getSpecPhi (b : Brdf) (i : nat) : spec_float := angles3_ (samples_ b) !!! i.
Definition getNumSpecularOffsets (b : Brdf) : nat := length (specularOffsets_ b).
Definition getSpecularOffset (b : Brdf) (i : nat) : spec_float :=
  specularOffsets_ b !!! i.
Definition getSpectrum (b : Brdf) (inThIndex inPhIndex spThIndex spPhIndex : nat)
  : Spectrum :=
  SampleSet.getSpectrum (samples_ b) inThIndex inPhIndex spThIndex spPhIndex.
End Brdf.

(** Modelled from the spec: [SpecularCoordinateSystem::MAX_ANGLE0] to
    [MAX_ANGLE3] of SpecularCoordinateSystem.h, which is not among the
    sources: polar angles end at 90°, azimuthal angles at 360°. *)
Module SpecularCoordinateSystem.
Definition MAX_ANGLE0 : spec_float := Utility.PI_2_F.
Definition MAX_ANGLE1 : spec_float := S754_finite false 13176795 (-21).
Definition MAX_ANGLE2 : spec_float := Utility.PI_2_F.
Definition MAX_ANGLE3 : spec_float := S754_finite false 13176795 (-21).
End SpecularCoordinateSystem.

(** ** Writer/DdrWriter *)

Module Stream.
(** What is streamed into a [std::ostream], item by item. *)
Inductive Token :=
  | Str (s : string)
  | Int (n : nat)
  | Num (x : spec_float)
  | Endl.

Abbreviation ostream := (list Token) (only parsing).
End Stream.

(** The files a writer can reach: whether a name can be opened for writing,
    and what each file holds. *)
Record FileSystem := mkFileSystem {
  canOpen : string -> bool;
  contents : string -> option Stream.ostream
}.

Record World := mkWorld {
  files : FileSystem;
  logger : Log.t
}.

Module DdrWriter.
Import IEEE Utility Stream.

Definition f32 := binary32.

(** A function that writes to a stream and to the logger. *)
Definition Out (A : Type) : Type := St (ostream * Log.t) A.

Definition put (t : list Token) : Out unit :=
  modify (fun s => (fst s ++ t, snd s)).
Definition lbError (msg : string) : Out unit :=
  modify (fun s => (fst s, snd s ++ [Log.Build_Entry Log.Error msg []])).

(** A call of a [const] member function of a sample set. *)
Definition call {A} (m : SampleSet.Method A) (ss : SampleSet) : Out A :=
  fun s => let '(a, (_, log)) := m (ss, snd s) in (a, (fst s, log)).

Section Collaborators.
(** Common/Utility.h, Common/Version.h, Common/SpectrumUtility.h. *)
Variable isEqual : spec_float -> spec_float -> bool.
Variable toDegree : spec_float -> spec_float.
Variable getVersion : string.
Variable xyzToSrgb : Spectrum -> Spectrum.

Definition validate := SampleSetMethods.validate.

(** The value streamed for one cell and one channel of a [def] block. *)
Definition output_value (brdf : Brdf) (wlIndex : nat)
    (inThIndex inPhIndex spThIndex spPhIndex : nat) : spec_float :=
  let ss := Brdf.getSampleSet brdf in
  let sp := Brdf.getSpectrum brdf inThIndex inPhIndex spThIndex spPhIndex in
  let sp := Eigen.cwiseMax sp zero in
  if decide (SampleSet.getColorModel ss = XYZ_MODEL) then
    let rgb := xyzToSrgb sp in
    mul f32 (rgb !!! wlIndex) PI_F
  else
    mul f32 (sp !!! wlIndex) PI_F.

(** The lines between [def] and [enddef] for one channel. *)
Definition output_def (brdf : Brdf) (wlIndex : nat) : Out unit :=
  for_ (seq 0 (Brdf.getNumInPhi brdf)) (fun inPhIndex =>
    do_ put [Str ";; Psi = "; Num (toDegree (Brdf.getInPhi brdf inPhIndex)); Endl];
    for_ (seq 0 (Brdf.getNumInTheta brdf)) (fun inThIndex =>
      do_ put [Str ";; Sigma = "; Num (toDegree (Brdf.getInTheta brdf inThIndex)); Endl];
      for_ (seq 0 (Brdf.getNumSpecPhi brdf)) (fun spPhIndex =>
        do_ for_ (seq 0 (Brdf.getNumSpecTheta brdf)) (fun spThIndex =>
          put [Str " ";
               Num (output_value brdf wlIndex
                      inThIndex inPhIndex spThIndex spPhIndex)]);
        put [Endl]))).

(** One channel: its name, the [kbdf] line and the [def] block. *)
Definition output_channel (brdf : Brdf) (colorModel : ColorModel)
    (wlIndex : nat) : Out unit :=
  let ss := Brdf.getSampleSet brdf in
  do_ (match colorModel with
       | MONOCHROMATIC_MODEL => put [Str "bw"; Endl]
       | RGB_MODEL =>
           if (wlIndex =? 0)%nat then put [Str "red"; Endl]
           else if (wlIndex =? 1)%nat then put [Str "green"; Endl]
           else put [Str "blue"; Endl]
       | _ => put [Str "wl "; Num (wavelengths_ ss !!! wlIndex); Endl]
       end);
  do_ put [Str " kbdf"; Endl];
  do_ put [Str " "];
  do_ for_ (seq 0 (Brdf.getNumInTheta brdf * Brdf.getNumInPhi brdf))
           (fun _ => put [Str " 1.0"]);
  do_ put [Str (String "010"%char " def"); Endl];
  do_ output_def brdf wlIndex;
  put [Str " enddef"; Endl].

(** The list of angles that follows a keyword of the header. *)
Definition output_angles (n : nat) (angle : nat -> spec_float) : Out unit :=
  do_ for_ (seq 0 n) (fun i => put [Str " "; Num (toDegree (angle i))]);
  put [Endl].

(** [output] once the grid has passed [validate]: the header and the
    channels. *)
Definition output_lines (brdf : Brdf) (comments : string) : Out bool :=
  do_ put [Str ";; This file is generated by libbsdf-"; Str getVersion;
           Str "."; Endl];
  do_ (if negb (String.eqb comments EmptyString) then
         put [Str ";; "; Str comments; Endl]
       else ret tt);
  do_ put [Endl];
  let ss := Brdf.getSampleSet brdf in
  do_ (match Brdf.getSourceType brdf with
       | MEASURED_SOURCE => put [Str "Source Measured"; Endl]
       | GENERATED_SOURCE => put [Str "Source Generated"; Endl]
       | EDITED_SOURCE => put [Str "Source Edited"; Endl]
       | _ => put [Str "Source Measured"; Endl]
       end);
  do_ (if SampleSet.isIsotropic ss then put [Str "TypeSym ASymmetrical"; Endl]
       else put [Str "TypeSym ASymmetrical 4D"; Endl]);
  do_ put [Str "TypeColorModel "];
  do colorModel <-
    (if (SampleSet.getNumWavelengths ss =? 1)%nat then
       do_ put [Str "BW"; Endl]; ret MONOCHROMATIC_MODEL
     else if bool_decide (SampleSet.getColorModel ss = RGB_MODEL)
             || bool_decide (SampleSet.getColorModel ss = XYZ_MODEL) then
       do_ put [Str "RGB"; Endl]; ret RGB_MODEL
     else
       do_ put [Str "spectral "; Int (SampleSet.getNumWavelengths ss); Endl];
       ret SPECTRAL_MODEL);
  do_ put [Str "TypeData Luminance Absolute"; Endl];
  do_ (if negb (SampleSet.isIsotropic ss) then
         do_ put [Str "psi "; Int (Brdf.getNumInPhi brdf); Endl];
         output_angles (Brdf.getNumInPhi brdf) (Brdf.getInPhi brdf)
       else ret tt);
  do_ put [Str "sigma "; Int (Brdf.getNumInTheta brdf); Endl];
  do_ output_angles (Brdf.getNumInTheta brdf) (Brdf.getInTheta brdf);
  do_ (if (Brdf.getNumSpecularOffsets brdf =? Brdf.getNumInTheta brdf)%nat then
         do_ put [Str "sigmat"; Endl];
         output_angles (Brdf.getNumSpecularOffsets brdf)
           (fun i => add f32 (Brdf.getInTheta brdf i)
                             (Brdf.getSpecularOffset brdf i))
       else ret tt);
  do_ put [Str "phi "; Int (Brdf.getNumSpecPhi brdf); Endl];
  do_ output_angles (Brdf.getNumSpecPhi brdf) (Brdf.getSpecPhi brdf);
  do_ put [Str "theta "; Int (Brdf.getNumSpecTheta brdf); Endl];
  do_ output_angles (Brdf.getNumSpecTheta brdf) (Brdf.getSpecTheta brdf);
  do_ for_ (seq 0 (SampleSet.getNumWavelengths ss))
           (output_channel brdf colorModel);
  ret true.

Definition output (brdf : Brdf) (comments : string) : Out bool :=
  do valid <- call validate (Brdf.getSampleSet brdf);
  if negb valid then
    do_ lbError "[DdrReader::write] BRDF data is invalid.";
    ret false
  else output_lines brdf comments.

(** [write] for a [SpecularCoordinatesBrdf]: the file is opened, which
    empties it, and [output] writes into it. *)
Definition write_SpecularCoordinatesBrdf
    (fileName : string) (brdf : Brdf) (comments : string) : St World bool :=
  fun w =>
    if negb (canOpen (files w) fileName) then
      (false,
       mkWorld (files w)
         (logger w ++ [Log.Build_Entry Log.Error
                         "[DdrReader::write] Could not open: " []]))
    else
      let '(r, (fout, log)) := output brdf comments ([], logger w) in
      (r,
       mkWorld
         (mkFileSystem (canOpen (files w))
            (fun f => if String.eqb f fileName then Some fout
                      else contents (files w) f))
         log).

(** Brdf/SpecularCoordinatesBrdf.cpp and Brdf/Processor.cpp. *)

(** The constructor of a [SpecularCoordinatesBrdf] from a
    [SphericalCoordinatesBrdf] and two resolutions. *)
Variable fromSphericalCoordinatesBrdf : Brdf -> nat -> nat -> Brdf.

(** The samples of a source at the direction pairs of new axes. *)
Variable initializeSpectra :
  Brdf -> Array -> Array -> Array -> Array -> list Spectrum.

(** Modelled from the spec: the constructor of a
    [SpecularCoordinatesBrdf] from a source and four arrays of angles,
    which is not among the sources.  The new grid has the given axes and
    the colour model and wavelengths of the source, it is populated by
    sampling the source at each canonical direction pair, and its derived
    flags are recomputed. *)
Definition fromBrdfAndAngles (brdf : Brdf)
    (inThetaAngles inPhiAngles specThetaAngles specPhiAngles : Array)
  : Brdf :=
  let ss := Brdf.getSampleSet brdf in
  let created :=
    mkSampleSet inThetaAngles inPhiAngles specThetaAngles specPhiAngles
      (initializeSpectra brdf inThetaAngles inPhiAngles
                         specThetaAngles specPhiAngles)
      (wavelengths_ ss) (colorModel_ ss) false false false false false in
  let updated :=
    fst (snd (SampleSetMethods.updateAngleAttributes isEqual (created, []))) in
  mkBrdf SpecularCoordinatesBrdf updated (sourceType_ brdf) [].

(** The passes of Brdf/Processor.h and [expandAngles]. *)
Variable equalizeOverlappingSamples : Brdf -> Brdf.
Variable expandAngles : Brdf -> Brdf.
Variable copySpectraFromPhiOf0To360 : SampleSet -> SampleSet.
Variable fixEnergyConservation : Brdf -> Brdf.
Variable fillSpectraAtInThetaOf90 : Brdf -> spec_float -> Brdf.

(** [std::pow] for [createExponentialArray]. *)
Variable pow : spec_float -> spec_float -> spec_float.

Definition convert (brdf : Brdf) : Brdf :=
  match class_ brdf with
  | SpecularCoordinatesBrdf => brdf
  | SphericalCoordinatesBrdf =>
      let ss := Brdf.getSampleSet brdf in
      let numSpecTheta := Nat.max (SampleSet.getNumAngles2 ss) 181 in
      let numSpecPhi := Nat.max (SampleSet.getNumAngles3 ss) 73 in
      fromSphericalCoordinatesBrdf brdf numSpecTheta numSpecPhi
  | OtherBrdf =>
      let ss := Brdf.getSampleSet brdf in
      let numInPhi :=
        if (SampleSet.getNumAngles1 ss =? 1)%nat then 1%nat else 37%nat in
      let inThetaAngles :=
        Eigen.LinSpaced f32 19 zero SpecularCoordinateSystem.MAX_ANGLE0 in
      let inPhiAngles :=
        Eigen.LinSpaced f32 numInPhi zero SpecularCoordinateSystem.MAX_ANGLE1 in
      let specPhiAngles :=
        Eigen.LinSpaced f32 73 zero SpecularCoordinateSystem.MAX_ANGLE3 in
      (* Create narrow intervals near specular directions. *)
      let specThetaAngles :=
        array_util.createExponential f32 pow 91
          SpecularCoordinateSystem.MAX_ANGLE2 two_f in
      fromBrdfAndAngles brdf inThetaAngles inPhiAngles
                        specThetaAngles specPhiAngles
  end.

(** The first step of [arrange]: if a BRDF has one incoming polar angle,
    it is expanded. *)
Definition arrange_expand (arrangedBrdf : Brdf) : Brdf :=
  if (Brdf.getNumInTheta arrangedBrdf =? 1)%nat then
    let ss := Brdf.getSampleSet arrangedBrdf in
    let inThetaAngles :=
      Eigen.LinSpaced f32 10 zero SpecularCoordinateSystem.MAX_ANGLE0 in
    fromBrdfAndAngles arrangedBrdf inThetaAngles
      (angles1_ ss) (angles2_ ss) (angles3_ ss)
  else arrangedBrdf.

Definition arrange (brdf : Brdf) (dataType : DataType) : Brdf :=
  let arrangedBrdf := arrange_expand brdf in
  let arrangedBrdf := equalizeOverlappingSamples arrangedBrdf in
  let arrangedBrdf := expandAngles arrangedBrdf in
  let arrangedBrdf :=
    Brdf.setSampleSet
      (copySpectraFromPhiOf0To360 (Brdf.getSampleSet arrangedBrdf))
      arrangedBrdf in
  let arrangedBrdf := fixEnergyConservation arrangedBrdf in
  if decide (dataType = BTDF_DATA) then
    fillSpectraAtInThetaOf90 arrangedBrdf zero
  else arrangedBrdf.

(** [write] for any [Brdf] and a data type. *)
Definition write (fileName : string) (brdf : Brdf) (dataType : DataType)
    (comments : string) : St World bool :=
  fun w =>
    let '(valid, (_, log)) :=
      validate (Brdf.getSampleSet brdf, logger w) in
    if negb valid then
      (false,
       mkWorld (files w)
         (log ++ [Log.Build_Entry Log.Error
                    "[DdrReader::write] BRDF data is invalid." []]))
    else
      let convertedBrdf := convert brdf in
      let extrapolatedBrdf := arrange convertedBrdf dataType in
      write_SpecularCoordinatesBrdf fileName extrapolatedBrdf comments
        (mkWorld (files w) log).
End Collaborators.
End DdrWriter.

(** The writer of 2014-2015, as it stands after [setupTabularBrdf] in
    ReflectanceModelUtility.cpp: no validation, and the spectrum is streamed
    as it is stored. *)
Module DdrWriter2015.
Import IEEE Utility Stream.

Definition f32 := binary32.

Section Collaborators.
Variable toDegree : spec_float -> spec_float.
Variable xyzToSrgb : Spectrum -> Spectrum.

Definition output_value (brdf : Brdf) (wlIndex : nat)
    (inThIndex inPhIndex spThIndex spPhIndex : nat) : spec_float :=
  let ss := Brdf.getSampleSet brdf in
  let sp := Brdf.getSpectrum brdf inThIndex inPhIndex spThIndex spPhIndex in
  if decide (SampleSet.getColorModel ss = XYZ_MODEL) then
    let rgb := xyzToSrgb sp in
    mul f32 (rgb !!! wlIndex) PI_F
  else
    mul f32 (sp !!! wlIndex) PI_F.

Definition output_def (brdf : Brdf) (wlIndex : nat) : DdrWriter.Out unit :=
  for_ (seq 0 (Brdf.getNumInPhi brdf)) (fun inPhIndex =>
    do_ DdrWriter.put
          [Str ";; Psi = "; Num (toDegree (Brdf.getInPhi brdf inPhIndex)); Endl];
    for_ (seq 0 (Brdf.getNumInTheta brdf)) (fun inThIndex =>
      do_ DdrWriter.put
            [Str ";; Sigma = "; Num (toDegree (Brdf.getInTheta brdf inThIndex)); Endl];
      for_ (seq 0 (Brdf.getNumSpecPhi brdf)) (fun spPhIndex =>
        do_ for_ (seq 0 (Brdf.getNumSpecTheta brdf)) (fun spThIndex =>
          DdrWriter.put
            [Str " ";
             Num (output_value brdf wlIndex
                    inThIndex inPhIndex spThIndex spPhIndex)]);
        DdrWriter.put [Endl]))).

(** [getVersion] of Common/Version.h. *)
Variable getVersion : string.

(** One channel of the writer of 2014-2015: the [kbdf] line has one weight
    for each incoming polar angle. *)
Definition output_channel (brdf : Brdf) (colorModel : ColorModel)
    (wlIndex : nat) : DdrWriter.Out unit :=
  let ss := Brdf.getSampleSet brdf in
  do_ (match colorModel with
       | MONOCHROMATIC_MODEL => DdrWriter.put [Str "bw"; Endl]
       | RGB_MODEL =>
           if (wlIndex =? 0)%nat then DdrWriter.put [Str "red"; Endl]
           else if (wlIndex =? 1)%nat then DdrWriter.put [Str "gre"; Endl]
           else DdrWriter.put [Str "blu"; Endl]
       | _ => DdrWriter.put [Str "wl "; Num (wavelengths_ ss !!! wlIndex); Endl]
       end);
  do_ DdrWriter.put [Str " kbdf"; Endl];
  do_ DdrWriter.put [Str " "];
  do_ for_ (seq 0 (Brdf.getNumInTheta brdf))
           (fun _ => DdrWriter.put [Str " 1.0"]);
  do_ DdrWriter.put [Str (String "010"%char " def"); Endl];
  do_ output_def brdf wlIndex;
  DdrWriter.put [Str " enddef"; Endl].

(** [output] of 2014-2015: the grid is streamed as it is. *)
Definition output (brdf : Brdf) : DdrWriter.Out bool :=
  do_ DdrWriter.put
        [Str ";; This file is generated by libbsdf-"; Str getVersion;
         Str (String "."%char (String "010"%char EmptyString)); Endl];
  let ss := Brdf.getSampleSet brdf in
  do_ DdrWriter.put [Str "Source Measured"; Endl];
  do_ (if SampleSet.isIsotropic ss then
         DdrWriter.put [Str "TypeSym ASymmetrical"; Endl]
       else DdrWriter.put [Str "TypeSym ASymmetrical 4D"; Endl]);
  do_ DdrWriter.put [Str "TypeColorModel "];
  do colorModel <-
    (if (SampleSet.getNumWavelengths ss =? 1)%nat then
       do_ DdrWriter.put [Str "BW"; Endl]; ret MONOCHROMATIC_MODEL
     else if bool_decide (SampleSet.getColorModel ss = RGB_MODEL)
             || bool_decide (SampleSet.getColorModel ss = XYZ_MODEL) then
       do_ DdrWriter.put [Str "RGB"; Endl]; ret RGB_MODEL
     else
       do_ DdrWriter.put
             [Str "spectral "; Int (SampleSet.getNumWavelengths ss); Endl];
       ret SPECTRAL_MODEL);
  do_ DdrWriter.put [Str "TypeData Luminance Absolute"; Endl];
  do_ (if negb (SampleSet.isIsotropic ss) then
         do_ DdrWriter.put [Str "psi "; Int (Brdf.getNumInPhi brdf); Endl];
         DdrWriter.output_angles toDegree
           (Brdf.getNumInPhi brdf) (Brdf.getInPhi brdf)
       else ret tt);
  do_ DdrWriter.put [Str "sigma "; Int (Brdf.getNumInTheta brdf); Endl];
  do_ DdrWriter.output_angles toDegree
        (Brdf.getNumInTheta brdf) (Brdf.getInTheta brdf);
  do_ DdrWriter.put [Str "phi "; Int (Brdf.getNumSpecPhi brdf); Endl];
  do_ DdrWriter.output_angles toDegree
        (Brdf.getNumSpecPhi brdf) (Brdf.getSpecPhi brdf);
  do_ DdrWriter.put [Str "theta "; Int (Brdf.getNumSpecTheta brdf); Endl];
  do_ DdrWriter.output_angles toDegree
        (Brdf.getNumSpecTheta brdf) (Brdf.getSpecTheta brdf);
  do_ for_ (seq 0 (SampleSet.getNumWavelengths ss))
           (output_channel brdf colorModel);
  ret true.

(** [write] of 2014-2015, on the files and [std::cerr]: the file is opened,
    which empties it, and [output] writes into it. *)
Definition write (fileName : string) (brdf : Brdf)
  : St (FileSystem * Log.t) bool :=
  fun '(fs, cerr) =>
    if negb (canOpen fs fileName) then
      (false,
       (fs,
        cerr ++ [Log.Build_Entry Log.Error
                   "[DdrReader::write] Could not open: " []]))
    else
      let '(r, (fout, cerr')) := output brdf ([], cerr) in
      (r,
       (mkFileSystem (canOpen fs)
          (fun f => if String.eqb f fileName then Some fout
                    else contents fs f),
        cerr')).
End Collaborators.
End DdrWriter2015.

(** ** ReflectanceModel/ReflectanceModelUtility *)

Record Vec3 := mkVec3 { vx : spec_float; vy : spec_float; vz : spec_float }.

Module reflectance_model_utility.
Import IEEE Utility.

Definition f32 := binary32.

Definition set_x (v : Vec3) (x : spec_float) : Vec3 := mkVec3 x (vy v) (vz v).
Definition set_z (v : Vec3) (z : spec_float) : Vec3 := mkVec3 (vx v) (vy v) z.
Definition asVector3f (v : Vec3) : Spectrum := [vx v; vy v; vz v].

Section Collaborators.
(** [ReflectanceModel::getBrdfValue] of the model at hand. *)
Variable getBrdfValue : Vec3 -> Vec3 -> Vec3.
(** [Brdf::getInOutDirection], [isDownwardDir] of Common/Utility.h,
    [normalize] of Eigen, [fillBackSide] of Brdf/Processor.h. *)
Variable getInOutDirection : Brdf -> nat -> nat -> nat -> nat -> Vec3 * Vec3.
Variable isDownwardDir : Vec3 -> bool.
Variable normalize : Vec3 -> Vec3.
Variable fillBackSide : Brdf -> Brdf.

(** The body of the innermost loop: the spectrum to store, or nothing
    when [continue] skips the cell.  The [assert] on the value of the
    model is a check of debug builds; it stores nothing. *)
Definition tabulate (brdf : Brdf) (dataType : DataType)
    (maxValue : spec_float) (cm : ColorModel) (backSideFillable : bool)
    (i0 i1 i2 i3 : nat) : option Spectrum :=
  let '(inDir, outDir) := getInOutDirection brdf i0 i1 i2 i3 in
  if backSideFillable && isDownwardDir outDir then None
  else
    let minZ := milli_f in
    let inDir := set_z inDir (std_max (vz inDir) minZ) in
    let outDir := set_z outDir (std_max (vz outDir) minZ) in
    let outDir :=
      if leb (abs (vx outDir)) minZ
         && leb (abs (vy outDir)) minZ
         && leb (vz outDir) minZ
      then set_x outDir one_f else outDir in
    let inDir := normalize inDir in
    let outDir := normalize outDir in
    let outDir :=
      if decide (dataType = BTDF_DATA) then set_z outDir (opp (vz outDir))
      else outDir in
    let values := getBrdfValue inDir outDir in
    if decide (cm = RGB_MODEL) then
      let sp := asVector3f values in
      Some (Eigen.cwiseMin sp maxValue)
    else (* MONOCHROMATIC_MODEL *)
      Some [std_min (div f32 (Eigen.sum f32 (asVector3f values)) three_f)
                    maxValue].

(** The cells in the order of the loops: [i2] outermost, then [i0],
    [i1] and [i3].  The iterations over [i2] may run in parallel; they
    write disjoint cells and read none. *)
Definition cells (ss : SampleSet) : list (nat * nat * nat * nat) :=
  i2 ← seq 0 (SampleSet.getNumAngles2 ss);
  i0 ← seq 0 (SampleSet.getNumAngles0 ss);
  i1 ← seq 0 (SampleSet.getNumAngles1 ss);
  i3 ← seq 0 (SampleSet.getNumAngles3 ss);
  [(i0, i1, i2, i3)].

Definition tabulate_store (dataType : DataType) (maxValue : spec_float)
    (cm : ColorModel) (backSideFillable : bool)
    (brdf : Brdf) (c : nat * nat * nat * nat) : Brdf :=
  let '(i0, i1, i2, i3) := c in
  match tabulate brdf dataType maxValue cm backSideFillable i0 i1 i2 i3 with
  | None => brdf
  | Some sp =>
      Brdf.setSampleSet
        (SampleSet.setSpectrum i0 i1 i2 i3 sp (Brdf.getSampleSet brdf)) brdf
  end.

Definition setupTabularBrdf (dataType : DataType) (maxValue : spec_float)
  : St (Brdf * Log.t) bool :=
  fun '(brdf, cerr) =>
    let ss := Brdf.getSampleSet brdf in
    let cm := SampleSet.getColorModel ss in
    if bool_decide (cm <> RGB_MODEL) && bool_decide (cm <> MONOCHROMATIC_MODEL)
    then
      (false,
       (brdf,
        cerr ++ [Log.Build_Entry Log.Error
                   "[setupTabularBrdf] Unsupported color model: " []]))
    else
      let backSideFillable :=
        match class_ brdf with SpecularCoordinatesBrdf => true | _ => false end in
      let brdf :=
        foldl (tabulate_store dataType maxValue cm backSideFillable)
              brdf (cells ss) in
      let brdf := if backSideFillable then fillBackSide brdf else brdf in
      (true, (brdf, cerr)).
End Collaborators.
End reflectance_model_utility.

(** ** Collaborators that the sources at hand only call *)

Module SpectrumUtility.
Import IEEE.

Definition f32 := binary32.

(** The [float] nearest to the decimal fraction [n / 10^6]. *)
Definition micro (n : Z) : spec_float :=
  div f32 (ofZ f32 n) (ofZ f32 1000000).

(** Modelled from the spec: [xyzToSrgb] of Common/SpectrumUtility.h, which
    is not among the sources.  Values of an XYZ-tagged colour model are
    converted to an RGB-like representation; this is the linear
    transformation from CIE XYZ to the sRGB primaries (IEC 61966-2-1). *)
Definition xyzToSrgb (xyz : Spectrum) : Spectrum :=
  let x := xyz !!! 0%nat in
  let y := xyz !!! 1%nat in
  let z := xyz !!! 2%nat in
  let row (a b c : Z) :=
    add f32 (add f32 (mul f32 (micro a) x) (mul f32 (micro b) y))
            (mul f32 (micro c) z) in
  [ row 3240479 (-1537150) (-498535);
    row (-969256) 1875992 41556;
    row 55648 (-204043) 1057311 ].
End SpectrumUtility.

(** ** Brdf/SampleSet: construction and resizing *)

Module SampleSetAllocation.
Import IEEE SampleSet.

(** [resize(n)] of a dynamic Eigen array.  An array of that size is left as
    it is; otherwise the storage is allocated anew and its coefficients are
    indeterminate: [fresh] stands for what the new storage holds. *)
Definition Eigen_resize (fresh : nat -> spec_float) (a : Array) (n : nat)
  : Array :=
  if (length a =? n)%nat then a else fresh <$> seq 0 n.

(** [Spectrum::Zero(n)] and [Arrayf::Zero(n)]. *)
Definition Zero (n : nat) : Array := replicate n zero.

(** [std::vector<Spectrum>::at(i) = sp] for the indices [idx] in turn:
    [false] when an index is past the end and [std::out_of_range] leaves the
    loop, with the cells written so far. *)
Fixpoint assign_at (sp : Spectrum) (idx : list nat) (spectra : list Spectrum)
  : list Spectrum * bool :=
  match idx with
  | [] => (spectra, true)
  | i :: idx' =>
      if (i <? length spectra)%nat then
        assign_at sp idx' (<[ i := sp ]> spectra)
      else (spectra, false)
  end.

(** The integer types of the usual 64-bit platforms: an [int] has 32 bits,
    a [size_t] and an [Eigen::Index] have 64.  A product that does not fit
    its signed type wraps around: the overflow is undefined behaviour, which
    the usual compilers compute in two's complement. *)
Definition INT_MAX : Z := 2 ^ 31 - 1.

Definition wrap_int (z : Z) : Z := (z + 2 ^ 31) mod 2 ^ 32 - 2 ^ 31.
Definition int_mul (a b : Z) : Z := wrap_int (a * b).

Definition wrap_Index (z : Z) : Z := (z + 2 ^ 63) mod 2 ^ 64 - 2 ^ 63.
Definition Index_mul (a b : Z) : Z := wrap_Index (a * b).

(** The conversion of a signed integer to [size_t]. *)
Definition to_size_t (z : Z) : Z := z mod 2 ^ 64.

(** [std::vector<Spectrum>::max_size()]: a [Spectrum] holds a pointer and a
    size, 16 bytes. *)
Definition max_size : Z := (2 ^ 63 - 1) / 16.

(** How a member function ends. *)
Inductive exception := std_length_error | std_out_of_range.
Inductive completion := Returns | Throws (e : exception).

Section Storage.
(** What the newly allocated storage of each array holds. *)
Variable fresh0 fresh1 fresh2 fresh3 freshW : nat -> spec_float.

Definition set_angles (angles0 angles1 angles2 angles3 : Array)
    (ss : SampleSet) : SampleSet :=
  mkSampleSet angles0 angles1 angles2 angles3
    (spectra_ ss) (wavelengths_ ss) (colorModel_ ss)
    (equalIntervalAngles0_ ss) (equalIntervalAngles1_ ss)
    (equalIntervalAngles2_ ss) (equalIntervalAngles3_ ss) (oneSide_ ss).

Definition set_spectra (spectra : list Spectrum) (ss : SampleSet) : SampleSet :=
  mkSampleSet (angles0_ ss) (angles1_ ss) (angles2_ ss) (angles3_ ss)
    spectra (wavelengths_ ss) (colorModel_ ss)
    (equalIntervalAngles0_ ss) (equalIntervalAngles1_ ss)
    (equalIntervalAngles2_ ss) (equalIntervalAngles3_ ss) (oneSide_ ss).

Definition set_wavelengths (wavelengths : Array) (ss : SampleSet) : SampleSet :=
  mkSampleSet (angles0_ ss) (angles1_ ss) (angles2_ ss) (angles3_ ss)
    (spectra_ ss) wavelengths (colorModel_ ss)
    (equalIntervalAngles0_ ss) (equalIntervalAngles1_ ss)
    (equalIntervalAngles2_ ss) (equalIntervalAngles3_ ss) (oneSide_ ss).

Definition set_colorModel (colorModel : ColorModel) (ss : SampleSet) : SampleSet :=
  mkSampleSet (angles0_ ss) (angles1_ ss) (angles2_ ss) (angles3_ ss)
    (spectra_ ss) (wavelengths_ ss) colorModel
    (equalIntervalAngles0_ ss) (equalIntervalAngles1_ ss)
    (equalIntervalAngles2_ ss) (equalIntervalAngles3_ ss) (oneSide_ ss).

(** [resizeAngles], for sizes that are not negative.  Its [assert] is a
    check of debug builds.  The number of samples is the product of the four
    [int]s, computed in [int] and converted to [size_t].  The vector of
    spectra is resized by [std::vector::resize]: the spectra it holds stay
    where they are and new ones are empty; a size beyond [max_size()], which
    a negative product converts to, throws [std::length_error] and leaves
    the vector as it is. *)
Definition resizeAngles (numAngles0 numAngles1 numAngles2 numAngles3 : nat)
  : Method completion :=
  do_ update (fun ss =>
        set_angles (Eigen_resize fresh0 (angles0_ ss) numAngles0)
                   (Eigen_resize fresh1 (angles1_ ss) numAngles1)
                   (Eigen_resize fresh2 (angles2_ ss) numAngles2)
                   (Eigen_resize fresh3 (angles3_ ss) numAngles3) ss);
  let numSamples :=
    to_size_t
      (int_mul (int_mul (int_mul (Z.of_nat numAngles0) (Z.of_nat numAngles1))
                        (Z.of_nat numAngles2))
               (Z.of_nat numAngles3)) in
  if (max_size <? numSamples)%Z then ret (Throws std_length_error)
  else
    do_ update (fun ss =>
          set_spectra (resize (Z.to_nat numSamples) [] (spectra_ ss)) ss);
    ret Returns.

(** [resizeWavelengths].  The number of samples is the product of the four
    sizes, computed in [Eigen::Index] and converted to [size_t].
    [spectra_.at(i)] throws [std::out_of_range] at the first index past the
    end of the vector; the array of wavelengths is then not resized. *)
Definition resizeWavelengths (numWavelengths : nat) : Method completion :=
  do ss <- self;
  let numSamples :=
    to_size_t
      (Index_mul
         (Index_mul (Index_mul (Z.of_nat (length (angles0_ ss)))
                               (Z.of_nat (length (angles1_ ss))))
                    (Z.of_nat (length (angles2_ ss))))
         (Z.of_nat (length (angles3_ ss)))) in
  let '(spectra, ok) :=
    assign_at (Zero numWavelengths) (seq 0 (Z.to_nat numSamples))
              (spectra_ ss) in
  do_ update (set_spectra spectra);
  if ok : bool then
    do_ update (fun ss' =>
          set_wavelengths (Eigen_resize freshW (wavelengths_ ss') numWavelengths) ss');
    ret Returns
  else ret (Throws std_out_of_range).

(** The members of a sample set before the body of the constructor runs:
    empty containers and the flags of the initializer list. *)
Definition members (colorModel : ColorModel) : SampleSet :=
  mkSampleSet [] [] [] [] [] [] colorModel false false false false false.

(** The body of the constructor, run on the members.  Its [assert] is a
    check of debug builds; an exception of a callee leaves the body. *)
Definition construct
    (numAngles0 numAngles1 numAngles2 numAngles3 : nat)
    (colorModel : ColorModel) (numWavelengths : nat)
  : St (SampleSet * Log.t) completion :=
  do r <- resizeAngles numAngles0 numAngles1 numAngles2 numAngles3;
  match r with
  | Throws e => ret (Throws e)
  | Returns =>
      do_ update (set_colorModel colorModel);
      match colorModel with
      | SPECTRAL_MODEL => resizeWavelengths numWavelengths
      | MONOCHROMATIC_MODEL =>
          do r <- resizeWavelengths 1;
          match r with
          | Returns => do_ update (set_wavelengths (Zero 1)); ret Returns
          | Throws e => ret (Throws e)
          end
      | _ =>
          do r <- resizeWavelengths 3;
          match r with
          | Returns => do_ update (set_wavelengths (Zero 3)); ret Returns
          | Throws e => ret (Throws e)
          end
      end
  end.
End Storage.
End SampleSetAllocation.

(** ** Array.h: [copy] and [appendElement] *)

Module array_util_elements.
Import IEEE.

(** The loop of [copy] from position [i] on: element [i] of the
    destination is assigned the element the iterator is at.  An
    index past the end of the destination is undefined in C++; [None]
    stands for it.  [cast] is the conversion to the scalar of the
    destination. *)
Fixpoint copy_from (cast : spec_float -> spec_float) (i : nat)
    (srcArray : Array) (destArray : Array) : option Array :=
  match srcArray with
  | [] => Some destArray
  | x :: rest =>
      if (i <? length destArray)%nat then
        copy_from cast (S i) rest (<[ i := cast x ]> destArray)
      else None
  end.

Definition copy (cast : spec_float -> spec_float)
    (srcArray destArray : Array) : option Array :=
  copy_from cast 0 srcArray destArray.

(** [appendElement]: the elements and the new one are saved in a vector,
    the array is resized, which loses its coefficients, and [std::copy]
    writes the vector back. *)
Definition appendElement (fresh : nat -> spec_float) (a : Array)
    (value : spec_float) : option Array :=
  let orig := a ++ [value] in
  let a' := SampleSetAllocation.Eigen_resize fresh a (length a + 1) in
  copy_from (fun x => x) 0 orig a'.
End array_util_elements.

(** ** Brdf/Btdf.h *)

(** A [Btdf] holds a shared pointer to the BRDF data. *)
Record Btdf := mkBtdf { brdf_ : Brdf }.

Module Btdf.
Import IEEE.

Section Collaborators.
(** [Brdf::getSpectrum(inDir, outDir)] and [Brdf::getInOutDirection] of
    the data held. *)
Variable Brdf_getSpectrum : Brdf -> Vec3 -> Vec3 -> Spectrum.
Variable Brdf_getInOutDirection :
  Brdf -> nat -> nat -> nat -> nat -> Vec3 * Vec3.

Definition getSpectrum (btdf : Btdf) (inDir outDir : Vec3) : Spectrum :=
  Brdf_getSpectrum (brdf_ btdf)
    (mkVec3 (vx inDir) (vy inDir) (abs (vz inDir)))
    (mkVec3 (vx outDir) (vy outDir) (abs (vz outDir))).

Definition getInOutDirection (btdf : Btdf) (index0 index1 index2 index3 : nat)
  : Vec3 * Vec3 :=
  let '(inDir, outDir) :=
    Brdf_getInOutDirection (brdf_ btdf) index0 index1 index2 index3 in
  (inDir, mkVec3 (vx outDir) (vy outDir) (opp (vz outDir))).

Definition getBrdf (btdf : Btdf) : Brdf := brdf_ btdf.
Definition getSampleSet (btdf : Btdf) : SampleSet :=
  Brdf.getSampleSet (brdf_ btdf).
End Collaborators.
End Btdf.

(** * Vocabulary of the properties, sample grids and test doubles *)

Section Vocabulary.
Import DdrWriter Stream SampleSetMethods SampleSet IEEE.

(** Not a NaN and not an infinity. *)
Definition Finite (x : spec_float) : Prop :=
  x <> S754_nan /\ forall s, x <> S754_infinity s.

(** Rounding keeps the sign it is given. *)
Inductive signed (s : bool) : spec_float -> Prop :=
  | signed_zero : signed s (S754_zero s)
  | signed_infinity : signed s (S754_infinity s)
  | signed_finite m e : signed s (S754_finite s m e).

(** A test double for [isEqual]: exact equality of the element, as a
    [double], and its nominal value. *)
Definition isEqual_exact (x y : spec_float) : bool :=
  IEEE.eqb (IEEE.convert IEEE.binary64 x) y.

Definition d64 : Z -> spec_float := IEEE.ofZ IEEE.binary64.


(** [m], run on the object [ss], returns [a] and leaves [ss] as it is; it
    may write to the logger. *)
Definition reads_at {A} (ss : SampleSet) (m : Method A) (a : A) : Prop :=
  forall log, exists log', m (ss, log) = (a, (ss, log')).

(** What the four nested loops of [validate] compute. *)
Definition spectraValid_of (ss : SampleSet) : bool :=
  foldl (fun v0 i0 =>
  foldl (fun v1 i1 =>
  foldl (fun v2 i2 =>
  foldl (fun v3 i3 => v3 && Eigen.allFinite (getSpectrum ss i0 i1 i2 i3))
        v2 (seq 0 (getNumAngles3 ss)))
        v1 (seq 0 (getNumAngles2 ss)))
        v0 (seq 0 (getNumAngles1 ss)))
        true (seq 0 (getNumAngles0 ss)).

(** The value of [validate]. *)
Definition isValid (ss : SampleSet) : bool :=
  spectraValid_of ss
  && Eigen.allFinite (angles0_ ss) && Eigen.allFinite (angles1_ ss)
  && Eigen.allFinite (angles2_ ss) && Eigen.allFinite (angles3_ ss)
  && Eigen.allFinite (wavelengths_ ss).

Definition inLowerHalf (angle : spec_float) : bool :=
  ltb lowerHalf_min angle && ltb angle lowerHalf_max.
Definition inUpperHalf (angle : spec_float) : bool :=
  ltb upperHalf_min angle && ltb angle upperHalf_max.

(** Angles in radians, as [float]: 10°, 170°, 190° and 350°. *)
Definition toRadian_f (degrees : Z) : spec_float :=
  IEEE.div IEEE.binary32
    (IEEE.mul IEEE.binary32 (IEEE.ofZ IEEE.binary32 degrees) Utility.PI_F)
    (IEEE.ofZ IEEE.binary32 180).

(** A grid with the given azimuth axis and nothing else. *)
Definition sampleSet_of_angles3 (angles3 : Array) : SampleSet :=
  mkSampleSet [IEEE.zero] [IEEE.zero] [IEEE.zero] angles3
    (replicate (length angles3) [IEEE.zero]) [IEEE.zero]
    MONOCHROMATIC_MODEL false false false false false.

(** A strictly ascending sequence. *)
Definition ascending (values : Array) : Prop :=
  forall i j, (i < j < length values)%nat ->
    IEEE.ltb (values !!! i) (values !!! j) = true.

(** Modelled from the spec: the samples that the constructor of a
    [SpecularCoordinatesBrdf] from a grid and four arrays of angles, which
    is not among the sources, gives the grid of the incoming-angle
    expansion.  The single-angle data is resampled onto the new axis by flat
    extension: each new incoming polar angle gets the samples of the only
    one, in the order of storage, the first index running fastest. *)
Definition flatExtension (brdf : Brdf)
    (inThetaAngles inPhiAngles specThetaAngles specPhiAngles : Array)
  : list Spectrum :=
  i3 ← seq 0 (length specPhiAngles);
  i2 ← seq 0 (length specThetaAngles);
  i1 ← seq 0 (length inPhiAngles);
  _ ← seq 0 (length inThetaAngles);
  [Brdf.getSpectrum brdf 0 i1 i2 i3].

(** A reflectance grid with one incoming polar angle, three specular polar
    angles, two specular azimuths and RGB samples. *)
Definition brdf_of_one_inTheta : Brdf :=
  mkBrdf SpecularCoordinatesBrdf
    (mkSampleSet [IEEE.zero] [IEEE.zero]
       [IEEE.zero; toRadian_f 45; toRadian_f 90]
       [IEEE.zero; toRadian_f 180]
       (replicate 6 [Utility.one_f; Utility.two_f; Utility.three_f])
       [IEEE.zero; IEEE.zero; IEEE.zero] RGB_MODEL false false false false true)
    MEASURED_SOURCE [].

(** No channel of the spectrum exceeds [maxValue]. *)
Definition capped (maxValue : spec_float) (sp : Spectrum) : Prop :=
  forall c, c ∈ sp -> ltb maxValue c = false.

(** Each cell is as it was before the loops, or holds a capped spectrum. *)
Definition kept_or_capped (maxValue : spec_float) (before : list Spectrum)
    (brdf : Brdf) : Prop :=
  forall j,
    spectra_ (samples_ brdf) !! j = before !! j
    \/ exists sp, spectra_ (samples_ brdf) !! j = Some sp /\ capped maxValue sp.

(** Collaborators for examples: a model of constant value, one direction
    pair for every cell, and no back side to fill. *)
Definition constantModel (inDir outDir : Vec3) : Vec3 :=
  mkVec3 Utility.one_f Utility.two_f Utility.three_f.
Definition upwardDirections (brdf : Brdf) (i0 i1 i2 i3 : nat) : Vec3 * Vec3 :=
  (mkVec3 IEEE.zero IEEE.zero Utility.one_f,
   mkVec3 IEEE.zero IEEE.zero Utility.one_f).
Definition isDownwardDir_z (dir : Vec3) : bool := IEEE.ltb (vz dir) IEEE.zero.

(** The grid of [brdf_of_one_inTheta] tagged as CIE XYZ. *)
Definition brdf_xyz : Brdf :=
  mkBrdf SpecularCoordinatesBrdf
    (mkSampleSet [IEEE.zero] [IEEE.zero]
       [IEEE.zero; toRadian_f 45; toRadian_f 90]
       [IEEE.zero; toRadian_f 180]
       (replicate 6 [IEEE.zero; Utility.one_f; IEEE.zero])
       [IEEE.zero; IEEE.zero; IEEE.zero] XYZ_MODEL false false false false true)
    MEASURED_SOURCE [].

(** [m] returns [a], appends the tokens [t] to the stream and leaves the
    logger alone. *)
Definition emits {A} (m : Out A) (a : A) (t : list Token) : Prop :=
  forall s, m s = (a, (fst s ++ t, snd s)).

(** [m] appends some tokens to the stream, the same on every run, and
    leaves the logger alone; [returns m a] says that it returns [a] as
    well. *)
Definition appends {A} (m : Out A) : Prop := exists a t, emits m a t.
Definition returns {A} (m : Out A) (a : A) : Prop := exists t, emits m a t.

(** The lines between [def] and [enddef], given the value of each cell. *)
Definition def_tokens (toDegree : spec_float -> spec_float)
    (value : nat -> nat -> nat -> nat -> spec_float) (brdf : Brdf)
  : list Token :=
  inPhIndex ← seq 0 (Brdf.getNumInPhi brdf);
  [Str ";; Psi = "; Num (toDegree (Brdf.getInPhi brdf inPhIndex)); Endl]
  ++ (inThIndex ← seq 0 (Brdf.getNumInTheta brdf);
      [Str ";; Sigma = "; Num (toDegree (Brdf.getInTheta brdf inThIndex)); Endl]
      ++ (spPhIndex ← seq 0 (Brdf.getNumSpecPhi brdf);
          (spThIndex ← seq 0 (Brdf.getNumSpecTheta brdf);
           [Str " "; Num (value inThIndex inPhIndex spThIndex spPhIndex)])
          ++ [Endl])).

(** Radians to degrees, for examples. *)
Definition toDegree_f (radians : spec_float) : spec_float :=
  IEEE.div IEEE.binary32
    (IEEE.mul IEEE.binary32 radians (IEEE.ofZ IEEE.binary32 180)) Utility.PI_F.

(** An RGB grid that holds a negative sample. *)
Definition brdf_negative : Brdf :=
  mkBrdf SpecularCoordinatesBrdf
    (mkSampleSet [IEEE.zero; Utility.PI_2_F] [IEEE.zero] [IEEE.zero]
       [IEEE.zero; toRadian_f 180]
       (replicate 4 [IEEE.opp Utility.one_f; Utility.one_f; Utility.one_f])
       [IEEE.zero; IEEE.zero; IEEE.zero] RGB_MODEL false false false false true)
    MEASURED_SOURCE [].




End Vocabulary.

(** * Vocabulary of the further properties *)

Section Vocabulary_further.
Import IEEE.

(** The direction mirrored at the plane of the surface. *)
Definition mirrored (dir : Vec3) : Vec3 :=
  mkVec3 (vx dir) (vy dir) (opp (vz dir)).

(** A reflectance lookup for examples: the three components of the outgoing
    direction. *)
Definition outgoingComponents (brdf : Brdf) (inDir outDir : Vec3) : Spectrum :=
  [vx outDir; vy outDir; vz outDir].

#[global] Instance Level_eq_dec : EqDecision Log.Level.
Proof. solve_decision. Defined.

(** No entry of the log has the level [lvl]. *)
Definition noLevel (lvl : Log.Level) (entries : Log.t) : bool :=
  forallb (fun e => negb (bool_decide (Log.level e = lvl))) entries.

(** [m], run on the object [ss] with the accumulator [v], leaves [ss] as it
    is and adds entries at the end of the log, none of them an error; it
    returns [v] when none of them is a warning and false otherwise. *)
Definition warns_at (ss : SampleSet) (m : SampleSet.Method bool) (v : bool)
  : Prop :=
  forall log : Log.t, exists entries,
    m (ss, log) = (v && noLevel Log.Warn entries, (ss, log ++ entries))
    /\ noLevel Log.Error entries = true.

(** The flag [updateOneSide] computes for an axis of azimuths. *)
Definition oneSide_of (angles3 : Array) : bool :=
  let flags := SampleSetMethods.updateOneSide_flags angles3 in
  negb (fst flags) || negb (snd flags).

(** All of a grid but its stored spectra. *)
Definition frame_of (brdf : Brdf) : Brdf :=
  Brdf.setSampleSet
    (SampleSetAllocation.set_spectra [] (Brdf.getSampleSet brdf)) brdf.

(** The numbers of a stream that follow the separator of data values, one
    blank; the numbers of the comment lines follow other text. *)
Fixpoint data_values (t : list Stream.Token) : list spec_float :=
  match t with
  | [] => []
  | Stream.Str s :: rest =>
      match rest with
      | Stream.Num x :: _ =>
          if String.eqb s " " then x :: data_values rest else data_values rest
      | _ => data_values rest
      end
  | _ :: rest => data_values rest
  end.

(** The number of ends of line of a stream. *)
Definition count_lines (t : list Stream.Token) : nat :=
  length (List.filter
            (fun k => match k with Stream.Endl => true | _ => false end) t).

(** No channel of a cell the axes address is below zero. *)
Definition noneBelowZero (brdf : Brdf) : Prop :=
  forall inThIndex inPhIndex spThIndex spPhIndex,
    (inThIndex < Brdf.getNumInTheta brdf)%nat ->
    (inPhIndex < Brdf.getNumInPhi brdf)%nat ->
    (spThIndex < Brdf.getNumSpecTheta brdf)%nat ->
    (spPhIndex < Brdf.getNumSpecPhi brdf)%nat ->
    forall c,
      c ∈ Brdf.getSpectrum brdf inThIndex inPhIndex spThIndex spPhIndex ->
      IEEE.ltb c IEEE.zero = false.

(** What [output] streams for a channel before its [def] block: the name of
    the channel and the line of weights. *)
Definition channel_intro (brdf : Brdf) (colorModel : ColorModel)
    (wlIndex : nat) : list Stream.Token :=
  match colorModel with
  | MONOCHROMATIC_MODEL => [Stream.Str "bw"; Stream.Endl]
  | RGB_MODEL =>
      if (wlIndex =? 0)%nat then [Stream.Str "red"; Stream.Endl]
      else if (wlIndex =? 1)%nat then [Stream.Str "green"; Stream.Endl]
      else [Stream.Str "blue"; Stream.Endl]
  | _ =>
      [Stream.Str "wl ";
       Stream.Num (wavelengths_ (Brdf.getSampleSet brdf) !!! wlIndex);
       Stream.Endl]
  end
  ++ [Stream.Str " kbdf"; Stream.Endl; Stream.Str " "]
  ++ (seq 0 (Brdf.getNumInTheta brdf * Brdf.getNumInPhi brdf)
      ≫= fun _ => [Stream.Str " 1.0"]).

(** The channels of a file: each with its lines between [def] and
    [enddef], given the value of each cell. *)
Definition channel_blocks (toDegree : spec_float -> spec_float)
    (value : nat -> nat -> nat -> nat -> nat -> spec_float) (brdf : Brdf)
    (colorModel : ColorModel) : list Stream.Token :=
  wlIndex ← seq 0 (SampleSet.getNumWavelengths (Brdf.getSampleSet brdf));
  channel_intro brdf colorModel wlIndex
  ++ [Stream.Str (String "010"%char " def"); Stream.Endl]
  ++ def_tokens toDegree (value wlIndex) brdf
  ++ [Stream.Str " enddef"; Stream.Endl].

End Vocabulary_further.

(** * Properties *)

(** ** Comparisons and signs of IEEE numbers *)

Section IEEE_facts.
Import IEEE.

Lemma is_finite_Finite x : is_finite x = true <-> Finite x.
Proof.
  unfold Finite. destruct x as [s|s| |s m e]; simpl; split;
    try discriminate; try (intros _; split; [|intros ?]; discriminate);
    intros [H1 H2]; try congruence.
Qed.

Lemma allFinite_Forall (a : Array) :
  Eigen.allFinite a = true <-> Forall Finite a.
Proof.
  unfold Eigen.allFinite. rewrite forallb_forall, Forall_forall.
  split; intros H x Hx; apply is_finite_Finite, H, Hx.
Qed.

Lemma SFcompare_refl x : x <> S754_nan -> SFcompare x x = Some Eq.
Proof.
  destruct x as [[]|[]| |[] m e]; simpl; try congruence; intros _;
    rewrite Z.compare_refl;
    change (Pos.compare_cont Eq m m) with (Pos.compare m m);
    rewrite Pos.compare_refl; reflexivity.
Qed.

Lemma ltb_irrefl x : ltb x x = false.
Proof.
  unfold ltb, SFltb. destruct (decide (x = S754_nan)) as [->|H]; [reflexivity|].
  now rewrite SFcompare_refl.
Qed.

Lemma eqb_refl x : is_finite x = true -> eqb x x = true.
Proof.
  intros H. unfold eqb, SFeqb. rewrite SFcompare_refl; [reflexivity|].
  intros ->. discriminate.
Qed.

Ltac cmp_cases :=
  repeat match goal with
  | |- context [Z.compare ?a ?b] => destruct (Z.compare_spec a b)
  | H : context [Z.compare ?a ?b] |- _ => destruct (Z.compare_spec a b)
  | |- context [Pos.compare_cont Eq ?a ?b] =>
      change (Pos.compare_cont Eq a b) with (Pos.compare a b);
      destruct (Pos.compare_spec a b)
  | H : context [Pos.compare_cont Eq ?a ?b] |- _ =>
      change (Pos.compare_cont Eq a b) with (Pos.compare a b) in H;
      destruct (Pos.compare_spec a b)
  end.

Lemma ltb_trans a b c : ltb a b = true -> ltb b c = true -> ltb a c = true.
Proof.
  unfold ltb, SFltb, SFcompare.
  destruct a as [[]|[]| |[] ma ea], b as [[]|[]| |[] mb eb],
           c as [[]|[]| |[] mc ec];
    simpl; try discriminate; try reflexivity;
    cmp_cases; simpl; try discriminate; try reflexivity; try lia.
Qed.

Lemma ltb_asym a b : ltb a b = true -> ltb b a = false.
Proof.
  unfold ltb, SFltb, SFcompare.
  destruct a as [[]|[]| |[] ma ea], b as [[]|[]| |[] mb eb];
    simpl; try discriminate; try reflexivity;
    cmp_cases; simpl; try discriminate; try reflexivity; try lia.
Qed.

(** [std::min(a, b)] never exceeds [b]. *)
Lemma std_min_capped a b : ltb b (std_min a b) = false.
Proof.
  unfold std_min. destruct (ltb b a) eqn:H; [apply ltb_irrefl | exact H].
Qed.

Lemma shr_1_nonneg mrs : 0 <= shr_m mrs -> 0 <= shr_m (shr_1 mrs).
Proof.
  destruct mrs as [m r s]; simpl.
  destruct m as [|[p|p|]|[p|p|]]; simpl; lia.
Qed.

Lemma iter_pos_shr_1_nonneg p mrs :
  0 <= shr_m mrs -> 0 <= shr_m (SpecFloat.iter_pos shr_1 p mrs).
Proof.
  revert mrs; induction p as [p IH|p IH|]; intros mrs H; simpl.
  - apply IH, IH, shr_1_nonneg, H.
  - apply IH, IH, H.
  - apply shr_1_nonneg, H.
Qed.

Lemma shr_fexp_nonneg prec emax m e l :
  0 <= m -> 0 <= shr_m (fst (shr_fexp prec emax m e l)).
Proof.
  intros H. unfold shr_fexp, shr.
  assert (H0 : 0 <= shr_m (shr_record_of_loc m l))
    by (destruct l as [|[]]; simpl; exact H).
  destruct (fexp prec emax (Zdigits2 m + e) - e); simpl; try exact H0.
  apply iter_pos_shr_1_nonneg, H0.
Qed.

Lemma round_nearest_even_nonneg m l : 0 <= m -> 0 <= round_nearest_even m l.
Proof.
  intros H. destruct l as [|[]]; simpl; try lia.
  destruct (Z.even m); lia.
Qed.

Lemma binary_round_aux_signed prec emax s m e l :
  0 <= m -> signed s (binary_round_aux prec emax s m e l).
Proof.
  intros H. unfold binary_round_aux.
  pose proof (shr_fexp_nonneg prec emax m e l H) as H1.
  destruct (shr_fexp prec emax m e l) as [mrs' e']; simpl in H1.
  pose proof (shr_fexp_nonneg prec emax _ e' loc_Exact
                (round_nearest_even_nonneg _ (loc_of_shr_record mrs') H1)) as H2.
  destruct (shr_fexp prec emax _ e' loc_Exact) as [mrs'' e'']; simpl in H2.
  destruct (shr_m mrs'') as [|p|p]; try lia.
  - constructor.
  - destruct (e'' <=? emax - prec); constructor.
Qed.

Lemma signed_false_leb x : signed false x -> leb zero x = true.
Proof. destruct 1; reflexivity. Qed.

(** The product of two finite numbers that are not below zero is not
    below zero (it may be [+inf]). *)
Lemma mul_nonneg fmt x y :
  leb zero x = true -> is_finite x = true ->
  leb zero y = true -> is_finite y = true ->
  leb zero (mul fmt x y) = true.
Proof.
  intros Hx Fx Hy Fy.
  destruct x as [sx|sx| |sx mx ex], y as [sy|sy| |sy my ey];
    try discriminate; simpl.
  - destruct sx, sy; reflexivity.
  - destruct sy; try discriminate. destruct sx; reflexivity.
  - destruct sx; try discriminate. destruct sy; reflexivity.
  - destruct sx; try discriminate. destruct sy; try discriminate.
    apply signed_false_leb. unfold mul, SFmul. simpl xorb.
    apply binary_round_aux_signed. lia.
Qed.

(** [std::max(x, 0)] of a finite number is finite and not below zero. *)
Lemma std_max_zero_nonneg x :
  is_finite x = true ->
  leb zero (std_max x zero) = true /\ is_finite (std_max x zero) = true.
Proof.
  destruct x as [[]|[]| |[] m e]; try discriminate; intros _;
    split; reflexivity.
Qed.
End IEEE_facts.

(** ** Array.h: equal intervals and exponential spacing *)

Section array_util_facts.
Import IEEE array_util.

Variable fmt : format.
Variable pow : spec_float -> spec_float -> spec_float.
Variable isEqual : spec_float -> spec_float -> bool.

Lemma isEqualInterval_loop_true array interval idx :
  isEqualInterval_loop isEqual array interval idx = true <->
  forall i, i ∈ idx ->
    isEqual (array !!! i)
            (mul binary64 interval (ofZ binary64 (Z.of_nat i))) = true.
Proof.
  induction idx as [|j idx IH]; simpl.
  - split; [intros _ i Hi; inversion Hi | reflexivity].
  - destruct (isEqual (array !!! j) _) eqn:E; simpl.
    + rewrite IH. split.
      * intros H i Hi. apply elem_of_cons in Hi as [->|Hi]; auto.
      * intros H i Hi. apply H. now right.
    + split; [discriminate|]. intros H.
      rewrite <- E. apply H. now left.
Qed.

Lemma length_LinSpaced size low high :
  length (Eigen.LinSpaced fmt size low high) = size.
Proof. unfold Eigen.LinSpaced. now rewrite length_fmap, length_seq. Qed.

(** The loop of [createExponential] over the indices [a .. a + k - 1]
    touches these indices only, and each of them once. *)
Lemma createExponential_loop maxValue exponent k : forall a arr,
  (a + k <= length arr)%nat ->
  let arr' :=
    foldl (createExponential_step fmt pow maxValue exponent) arr (seq a k) in
  length arr' = length arr /\
  forall i,
    arr' !!! i =
      if bool_decide (a <= i < a + k)%nat then
        mul fmt (pow (div fmt (arr !!! i) maxValue) exponent) maxValue
      else arr !!! i.
Proof.
  induction k as [|k IH]; intros a arr Hlt; cbn [foldl seq].
  - split; [reflexivity|]. intros i. case_bool_decide as Hi; [lia|reflexivity].
  - set (arr1 := createExponential_step fmt pow maxValue exponent arr a).
    assert (Hlen1 : length arr1 = length arr)
      by (unfold arr1, createExponential_step; apply length_insert).
    destruct (IH (S a) arr1) as [Hlen Hval]; [lia|].
    split; [congruence|].
    intros i. rewrite Hval.
    destruct (decide (i = a)) as [->|Hne].
    + rewrite bool_decide_eq_false_2 by lia.
      rewrite bool_decide_eq_true_2 by lia.
      unfold arr1, createExponential_step.
      apply list_lookup_total_insert_eq. lia.
    + assert (Hstep : arr1 !!! i = arr !!! i).
      { unfold arr1, createExponential_step.
        apply list_lookup_total_insert_ne. congruence. }
      rewrite Hstep.
      destruct (decide (a <= i < a + S k)%nat) as [Hin|Hout].
      * rewrite !bool_decide_eq_true_2 by lia. reflexivity.
      * rewrite !bool_decide_eq_false_2 by lia. reflexivity.
Qed.

Lemma createExponential_interior numElements maxValue exponent :
  let lin := Eigen.LinSpaced fmt numElements zero maxValue in
  let arr := createExponential fmt pow numElements maxValue exponent in
  length arr = numElements /\
  forall i,
    arr !!! i =
      if bool_decide (1 <= i < numElements - 1)%nat then
        mul fmt (pow (div fmt (lin !!! i) maxValue) exponent) maxValue
      else lin !!! i.
Proof.
  intros lin arr. unfold arr, createExponential. fold lin.
  assert (Hlen : length lin = numElements) by apply length_LinSpaced.
  destruct (decide (numElements = 0)%nat) as [Hz|Hz].
  { rewrite Hlen, Hz. cbn [Nat.sub seq foldl]. split; [congruence|].
    intros i. rewrite bool_decide_eq_false_2 by lia. reflexivity. }
  destruct (createExponential_loop maxValue exponent (length lin - 2) 1 lin)
    as [H1 H2]; [lia|].
  split; [congruence|].
  intros i. rewrite H2, Hlen.
  destruct (decide (1 <= i < numElements - 1)%nat).
  - rewrite !bool_decide_eq_true_2 by lia. reflexivity.
  - rewrite !bool_decide_eq_false_2 by lia. reflexivity.
Qed.
End array_util_facts.

(** C4. [isEqualInterval] is false for every sequence of at most two
    elements.  For a longer one the nominal interval is the last element
    divided by [n - 1], and the result is true exactly when [isEqual] accepts
    every element [array[i]] against [i] times the interval.  So a sequence
    whose elements are exactly [i * c], [c] being that interval, is accepted
    by any [isEqual] that accepts equal finite values, and one element that
    [isEqual] rejects makes the result false. *)
Theorem isEqualInterval_spec
    (fmt : IEEE.format) (isEqual : spec_float -> spec_float -> bool)
    (array : Array) :
  let n := length array in
  let interval := array_util.nominalInterval fmt array in
  let nominal (i : nat) :=
    IEEE.mul IEEE.binary64 interval (IEEE.ofZ IEEE.binary64 (Z.of_nat i)) in
  ((n <= 2)%nat -> array_util.isEqualInterval fmt isEqual array = false)
  /\ ((2 < n)%nat ->
      interval =
        IEEE.convert IEEE.binary64
          (IEEE.div fmt (array !!! (n - 1)%nat) (IEEE.ofZ fmt (Z.of_nat n - 1)))
      /\ (array_util.isEqualInterval fmt isEqual array = true <->
          forall i, (i < n)%nat -> isEqual (array !!! i) (nominal i) = true)
      /\ (forall c,
            interval = c ->
            (forall i, (i < n)%nat ->
               IEEE.convert IEEE.binary64 (array !!! i)
               = IEEE.mul IEEE.binary64 c (IEEE.ofZ IEEE.binary64 (Z.of_nat i))
               /\ IEEE.is_finite (IEEE.convert IEEE.binary64 (array !!! i)) = true) ->
            (forall x y, IEEE.convert IEEE.binary64 x = y ->
                         IEEE.is_finite y = true -> isEqual x y = true) ->
            array_util.isEqualInterval fmt isEqual array = true)
      /\ (forall k, (k < n)%nat -> isEqual (array !!! k) (nominal k) = false ->
            array_util.isEqualInterval fmt isEqual array = false)).
Proof.
  intros n interval nominal.
  assert (Hiff : (2 < n)%nat ->
     (array_util.isEqualInterval fmt isEqual array = true <->
      forall i, (i < n)%nat -> isEqual (array !!! i) (nominal i) = true)).
  { intros Hn. unfold array_util.isEqualInterval. fold n.
    destruct (n <=? 2)%nat eqn:E; [apply Nat.leb_le in E; lia|].
    rewrite isEqualInterval_loop_true. fold interval.
    split; intros H i Hi.
    - apply H. apply elem_of_seq. lia.
    - apply elem_of_seq in Hi. apply H. lia. }
  split.
  - intros Hn. unfold array_util.isEqualInterval. fold n.
    destruct (n <=? 2)%nat eqn:E; [reflexivity|apply Nat.leb_gt in E; lia].
  - intros Hn. split; [reflexivity|]. split; [exact (Hiff Hn)|]. split.
    + intros c Hc Hseq Hexact. apply (Hiff Hn). intros i Hi.
      destruct (Hseq i Hi) as [Heq Hfin].
      assert (Hnom : nominal i = IEEE.convert IEEE.binary64 (array !!! i))
        by (unfold nominal; rewrite Hc, Heq; reflexivity).
      rewrite Hnom. apply Hexact; [reflexivity | exact Hfin].
    + intros k Hk Hrej.
      apply not_true_is_false. intros E.
      rewrite (proj1 (Hiff Hn) E k Hk) in Hrej. discriminate.
Qed.

Lemma isEqualInterval_spec_witness :
  array_util.isEqualInterval IEEE.binary64 isEqual_exact [d64 0; d64 3] = false
  /\ array_util.isEqualInterval IEEE.binary64 isEqual_exact
       [d64 0; d64 3; d64 6; d64 9] = true
  /\ array_util.isEqualInterval IEEE.binary64 isEqual_exact
       [d64 0; d64 3; d64 7; d64 9] = false.
Proof.
  split; [|split].
  - apply (proj1 (isEqualInterval_spec IEEE.binary64 isEqual_exact [d64 0; d64 3])).
    simpl. lia.
  - pose proof (proj2 (isEqualInterval_spec IEEE.binary64 isEqual_exact
                         [d64 0; d64 3; d64 6; d64 9])) as H.
    cbv zeta in H. destruct H as (_ & _ & H & _); [simpl; lia|].
    apply (H (d64 3)).
    + vm_compute. reflexivity.
    + intros i Hi. simpl in Hi.
      destruct i as [|[|[|[|i]]]]; [vm_compute; auto ..|lia].
    + intros x y Hxy Hfin. unfold isEqual_exact. rewrite Hxy.
      now apply eqb_refl.
  - pose proof (proj2 (isEqualInterval_spec IEEE.binary64 isEqual_exact
                         [d64 0; d64 3; d64 7; d64 9])) as H.
    cbv zeta in H. destruct H as (_ & _ & _ & H); [simpl; lia|].
    apply (H 2%nat); [simpl; lia|]. vm_compute. reflexivity.
Defined.




(** ** SampleSet: member functions that only read the object *)

Section Reading.
Import SampleSet.

Lemma reads_ret {A} ss (a : A) : reads_at ss (ret a) a.
Proof. intros log. now exists log. Qed.

Lemma reads_bind {A B} ss (m : Method A) (k : A -> Method B) a b :
  reads_at ss m a -> reads_at ss (k a) b -> reads_at ss (bind m k) b.
Proof.
  intros Hm Hk log. destruct (Hm log) as [log1 E1].
  destruct (Hk log1) as [log2 E2]. exists log2.
  unfold bind. now rewrite E1.
Qed.

Lemma reads_self ss : reads_at ss self ss.
Proof. intros log. now exists log. Qed.

Lemma reads_lbInfo ss msg : reads_at ss (lbInfo msg) tt.
Proof. intros log. eexists. reflexivity. Qed.

Lemma reads_lbWarn ss msg nums : reads_at ss (lbWarn msg nums) tt.
Proof. intros log. eexists. reflexivity. Qed.

Lemma reads_foldM {A I} ss (body : A -> I -> Method A) (f : A -> I -> A) l :
  (forall a i, reads_at ss (body a i) (f a i)) ->
  forall a, reads_at ss (foldM body a l) (foldl f a l).
Proof.
  intros Hbody. induction l as [|i l IH]; intros a; simpl.
  - apply reads_ret.
  - eapply reads_bind; [apply Hbody | apply IH].
Qed.
End Reading.

Section validate_facts.
Import IEEE SampleSet SampleSetMethods.

Lemma validate_cell_reads ss i0 i1 i2 i3 v :
  reads_at ss (validate_cell i0 i1 i2 i3 v)
           (v && Eigen.allFinite (getSpectrum ss i0 i1 i2 i3)).
Proof.
  unfold validate_cell. eapply reads_bind; [apply reads_self|].
  cbv zeta. destruct (Eigen.allFinite (getSpectrum ss i0 i1 i2 i3)); simpl.
  - rewrite andb_true_r. apply reads_ret.
  - rewrite andb_false_r. eapply reads_bind; [|apply reads_ret].
    destruct (Eigen.hasNaN _); apply reads_lbWarn.
Qed.

Lemma validate_array_reads ss a okMsg badMsg v :
  reads_at ss (validate_array a okMsg badMsg v) (v && Eigen.allFinite a).
Proof.
  unfold validate_array. destruct (Eigen.allFinite a).
  - rewrite andb_true_r. eapply reads_bind; [apply reads_lbInfo|apply reads_ret].
  - rewrite andb_false_r. eapply reads_bind; [apply reads_lbWarn|apply reads_ret].
Qed.

(** A loop that only ever clears its flag. *)
Lemma foldl_flag {I} (g : bool -> I -> bool) (P : I -> Prop) l :
  (forall v i, g v i = true <-> v = true /\ P i) ->
  forall v, foldl g v l = true <-> v = true /\ forall i, i ∈ l -> P i.
Proof.
  intros Hg. induction l as [|j l IH]; intros v; simpl.
  - split; [intros ->; split; [reflexivity|]; intros i Hi; inversion Hi | tauto].
  - rewrite IH, Hg. split.
    + intros [[Hv Hj] Hl]. split; [exact Hv|].
      intros i Hi. apply elem_of_cons in Hi as [->|Hi]; auto.
    + intros [Hv Hl]. split; [split; [exact Hv|]|].
      * apply Hl. now left.
      * intros i Hi. apply Hl. now right.
Qed.

Lemma spectraValid_of_true ss :
  spectraValid_of ss = true <->
  forall i0 i1 i2 i3,
    (i0 < getNumAngles0 ss)%nat -> (i1 < getNumAngles1 ss)%nat ->
    (i2 < getNumAngles2 ss)%nat -> (i3 < getNumAngles3 ss)%nat ->
    Eigen.allFinite (getSpectrum ss i0 i1 i2 i3) = true.
Proof.
  unfold spectraValid_of.
  rewrite (foldl_flag _ (fun i0 => forall i1 i2 i3,
    (i1 < getNumAngles1 ss)%nat ->
    (i2 < getNumAngles2 ss)%nat -> (i3 < getNumAngles3 ss)%nat ->
    Eigen.allFinite (getSpectrum ss i0 i1 i2 i3) = true)).
  - split.
    + intros [_ H] i0 i1 i2 i3 H0. apply H. apply elem_of_seq. lia.
    + intros H. split; [reflexivity|]. intros i0 Hi0.
      apply elem_of_seq in Hi0. intros. apply H; lia.
  - intros v0 i0.
    rewrite (foldl_flag _ (fun i1 => forall i2 i3,
      (i2 < getNumAngles2 ss)%nat -> (i3 < getNumAngles3 ss)%nat ->
      Eigen.allFinite (getSpectrum ss i0 i1 i2 i3) = true)).
    + split.
      * intros [Hv H]. split; [exact Hv|]. intros i1 i2 i3 H1.
        apply H. apply elem_of_seq. lia.
      * intros [Hv H]. split; [exact Hv|]. intros i1 Hi1.
        apply elem_of_seq in Hi1. intros. apply H; lia.
    + intros v1 i1.
      rewrite (foldl_flag _ (fun i2 => forall i3,
        (i3 < getNumAngles3 ss)%nat ->
        Eigen.allFinite (getSpectrum ss i0 i1 i2 i3) = true)).
      * split.
        -- intros [Hv H]. split; [exact Hv|]. intros i2 i3 H2.
           apply H. apply elem_of_seq. lia.
        -- intros [Hv H]. split; [exact Hv|]. intros i2 Hi2.
           apply elem_of_seq in Hi2. intros. apply H; lia.
      * intros v2 i2.
        rewrite (foldl_flag _ (fun i3 =>
          Eigen.allFinite (getSpectrum ss i0 i1 i2 i3) = true)).
        -- split.
           ++ intros [Hv H]. split; [exact Hv|]. intros i3 H3.
              apply H. apply elem_of_seq. lia.
           ++ intros [Hv H]. split; [exact Hv|]. intros i3 Hi3.
              apply elem_of_seq in Hi3. apply H; lia.
        -- intros v3 i3. apply andb_true_iff.
Qed.

Lemma validate_reads ss : reads_at ss validate (isValid ss).
Proof.
  unfold validate, isValid.
  eapply reads_bind; [apply reads_self|]. cbv zeta.
  eapply reads_bind.
  { apply (reads_foldM ss _ (fun v0 i0 =>
      foldl (fun v1 i1 =>
      foldl (fun v2 i2 =>
      foldl (fun v3 i3 => v3 && Eigen.allFinite (getSpectrum ss i0 i1 i2 i3))
            v2 (seq 0 (getNumAngles3 ss)))
            v1 (seq 0 (getNumAngles2 ss)))
            v0 (seq 0 (getNumAngles1 ss)))).
    intros v0 i0. apply reads_foldM.
    intros v1 i1. apply reads_foldM.
    intros v2 i2. apply reads_foldM.
    intros v3 i3. apply validate_cell_reads. }
  fold (spectraValid_of ss).
  eapply reads_bind.
  { instantiate (1 := spectraValid_of ss).
    destruct (spectraValid_of ss);
      (eapply reads_bind; [first [apply reads_lbInfo | apply reads_lbWarn]
                          |apply reads_ret]). }
  do 5 (eapply reads_bind; [apply validate_array_reads|]).
  apply reads_ret.
Qed.
End validate_facts.

(** C8. [validate] returns true exactly when every stored spectrum, each of
    the four arrays of angles and the array of wavelengths hold finite
    values only, neither a NaN nor an infinity, and it leaves the sample set
    as it was, whatever the sample set. *)
Theorem validate_spec (ss : SampleSet) (log : Log.t) :
  let result := SampleSetMethods.validate (ss, log) in
  fst (snd result) = ss
  /\ (fst result = true <->
      (forall i0 i1 i2 i3,
         (i0 < SampleSet.getNumAngles0 ss)%nat ->
         (i1 < SampleSet.getNumAngles1 ss)%nat ->
         (i2 < SampleSet.getNumAngles2 ss)%nat ->
         (i3 < SampleSet.getNumAngles3 ss)%nat ->
         Forall Finite (SampleSet.getSpectrum ss i0 i1 i2 i3))
      /\ Forall Finite (angles0_ ss) /\ Forall Finite (angles1_ ss)
      /\ Forall Finite (angles2_ ss) /\ Forall Finite (angles3_ ss)
      /\ Forall Finite (wavelengths_ ss)).
Proof.
  intros result. unfold result.
  destruct (validate_reads ss log) as [log' E]. rewrite E. simpl.
  split; [reflexivity|].
  unfold isValid. rewrite !andb_true_iff, spectraValid_of_true.
  rewrite !allFinite_Forall.
  split.
  - intros [[[[[H H0] H1] H2] H3] Hw]. repeat split; try assumption.
    intros. apply allFinite_Forall. now apply H.
  - intros (H & H0 & H1 & H2 & H3 & Hw). repeat split; try assumption.
    intros. apply allFinite_Forall. now apply H.
Qed.

(** ** SampleSet: one-sided grids *)

Section updateOneSide_facts.
Import IEEE SampleSet SampleSetMethods.

Lemma updateOneSide_flags_existsb angles3 : forall c0 c1,
  foldl updateOneSide_step (c0, c1) angles3
  = (c0 || existsb inLowerHalf angles3, c1 || existsb inUpperHalf angles3).
Proof.
  induction angles3 as [|a l IH]; intros c0 c1; simpl.
  - now rewrite !orb_false_r.
  - fold (inLowerHalf a) (inUpperHalf a). rewrite IH.
    destruct (inLowerHalf a), (inUpperHalf a), c0, c1; reflexivity.
Qed.

Lemma existsb_elem_of (p : spec_float -> bool) l :
  existsb p l = true <-> exists a, a ∈ l /\ p a = true.
Proof.
  rewrite existsb_exists. split; intros (a & Ha & Hp); exists a;
    (split; [now apply list_elem_of_In|exact Hp]).
Qed.
End updateOneSide_facts.

(** C3. [updateOneSide] has seen the lower half exactly when some value of
    the azimuth axis lies strictly between the margin and π less its margin,
    and the upper half exactly when some value lies strictly between π plus
    its margin and 2π less its margin; the margin ε at a limit is
    [2 * EPSILON_F] at 0 and that times the limit at π and 2π.  The flag is
    [!seenLowerHalf || !seenUpperHalf].  So an axis with values in (0°, 170°)
    only is one-sided, and an axis with a value in (10°, 170°) and a value in
    (190°, 350°) is not. *)
Theorem updateOneSide_spec (ss : SampleSet) (log : Log.t) :
  let flags := SampleSetMethods.updateOneSide_flags (angles3_ ss) in
  let seenLowerHalf := fst flags in
  let seenUpperHalf := snd flags in
  let ss' := fst (snd (SampleSetMethods.updateOneSide (ss, log))) in
  let within lo hi (a : spec_float) :=
    IEEE.ltb lo a = true /\ IEEE.ltb a hi = true in
  let f32 := IEEE.binary32 in
  let eps := IEEE.mul f32 Utility.EPSILON_F Utility.two_f in
  (SampleSetMethods.lowerHalf_min = eps
   /\ SampleSetMethods.lowerHalf_max
      = IEEE.sub f32 Utility.PI_F (IEEE.mul f32 eps Utility.PI_F)
   /\ SampleSetMethods.upperHalf_min
      = IEEE.add f32 Utility.PI_F (IEEE.mul f32 eps Utility.PI_F)
   /\ SampleSetMethods.upperHalf_max
      = IEEE.sub f32 (IEEE.mul f32 Utility.two_f Utility.PI_F)
          (IEEE.mul f32 (IEEE.mul f32 eps Utility.two_f) Utility.PI_F))
  /\ (seenLowerHalf = true <->
     exists a, a ∈ angles3_ ss
       /\ within SampleSetMethods.lowerHalf_min SampleSetMethods.lowerHalf_max a)
  /\ (seenUpperHalf = true <->
     exists a, a ∈ angles3_ ss
       /\ within SampleSetMethods.upperHalf_min SampleSetMethods.upperHalf_max a)
  /\ oneSide_ ss' = negb seenLowerHalf || negb seenUpperHalf
  /\ ss' = SampleSetMethods.set_oneSide (oneSide_ ss') ss
  /\ ((forall a, a ∈ angles3_ ss -> within IEEE.zero (toRadian_f 170) a) ->
      oneSide_ ss' = true)
  /\ ((exists a, a ∈ angles3_ ss /\ within (toRadian_f 10) (toRadian_f 170) a) ->
      (exists b, b ∈ angles3_ ss /\ within (toRadian_f 190) (toRadian_f 350) b) ->
      oneSide_ ss' = false).
Proof.
  intros flags seenLowerHalf seenUpperHalf ss' within f32 eps.
  split; [repeat split|].
  assert (Hflags : flags = (existsb inLowerHalf (angles3_ ss),
                            existsb inUpperHalf (angles3_ ss))).
  { unfold flags, SampleSetMethods.updateOneSide_flags.
    now rewrite updateOneSide_flags_existsb. }
  assert (Hlow : seenLowerHalf = true <->
     exists a, a ∈ angles3_ ss
       /\ within SampleSetMethods.lowerHalf_min SampleSetMethods.lowerHalf_max a).
  { unfold seenLowerHalf. rewrite Hflags. simpl. rewrite existsb_elem_of.
    unfold inLowerHalf, within. split; intros (a & Ha & H); exists a;
      (split; [exact Ha|]); now apply andb_true_iff. }
  assert (Hupp : seenUpperHalf = true <->
     exists a, a ∈ angles3_ ss
       /\ within SampleSetMethods.upperHalf_min SampleSetMethods.upperHalf_max a).
  { unfold seenUpperHalf. rewrite Hflags. simpl. rewrite existsb_elem_of.
    unfold inUpperHalf, within. split; intros (a & Ha & H); exists a;
      (split; [exact Ha|]); now apply andb_true_iff. }
  assert (Hone : oneSide_ ss' = negb seenLowerHalf || negb seenUpperHalf).
  { unfold ss', SampleSetMethods.updateOneSide, seenLowerHalf, seenUpperHalf.
    unfold bind, SampleSet.self, gets. cbv beta iota zeta. simpl fst.
    fold flags. destruct flags as [c0 c1]. reflexivity. }
  split; [exact Hlow|]. split; [exact Hupp|]. split; [exact Hone|].
  split; [|split].
  - unfold ss', SampleSetMethods.updateOneSide.
    unfold bind, SampleSet.self, gets. cbv beta iota zeta. simpl fst.
    destruct (SampleSetMethods.updateOneSide_flags (angles3_ ss)) as [c0 c1].
    reflexivity.
  - intros Hall. rewrite Hone.
    assert (E : seenUpperHalf = false); [|now rewrite E, orb_true_r].
    apply not_true_is_false. intros E. apply Hupp in E as (a & Ha & Hlo & _).
    destruct (Hall a Ha) as [_ H170].
    assert (Hc : IEEE.ltb (toRadian_f 170) SampleSetMethods.upperHalf_min = true)
      by (vm_compute; reflexivity).
    pose proof (ltb_trans _ _ _ H170 Hc) as Hlt.
    apply ltb_asym in Hlt. congruence.
  - intros (a & Ha & Ha10 & Ha170) (b & Hb & Hb190 & Hb350). rewrite Hone.
    assert (H1 : seenLowerHalf = true).
    { apply Hlow. exists a. split; [exact Ha|]. split.
      - apply (ltb_trans _ (toRadian_f 10)); [vm_compute; reflexivity|exact Ha10].
      - apply (ltb_trans _ (toRadian_f 170)); [exact Ha170|vm_compute; reflexivity]. }
    assert (H2 : seenUpperHalf = true).
    { apply Hupp. exists b. split; [exact Hb|]. split.
      - apply (ltb_trans _ (toRadian_f 190)); [vm_compute; reflexivity|exact Hb190].
      - apply (ltb_trans _ (toRadian_f 350)); [exact Hb350|vm_compute; reflexivity]. }
    now rewrite H1, H2.
Qed.

Lemma updateOneSide_spec_witness :
  oneSide_ (fst (snd (SampleSetMethods.updateOneSide
     (sampleSet_of_angles3 [toRadian_f 45; toRadian_f 90], [])))) = true
  /\ oneSide_ (fst (snd (SampleSetMethods.updateOneSide
     (sampleSet_of_angles3 [toRadian_f 45; toRadian_f 270], [])))) = false.
Proof.
  split.
  - pose proof (updateOneSide_spec
                  (sampleSet_of_angles3 [toRadian_f 45; toRadian_f 90]) []) as H.
    cbv zeta in H. destruct H as (_ & _ & _ & _ & _ & H & _). apply H.
    intros a Ha. simpl in Ha.
    apply elem_of_cons in Ha as [->|Ha]; [split; vm_compute; reflexivity|].
    apply elem_of_cons in Ha as [->|Ha]; [split; vm_compute; reflexivity|].
    inversion Ha.
  - pose proof (updateOneSide_spec
                  (sampleSet_of_angles3 [toRadian_f 45; toRadian_f 270]) []) as H.
    cbv zeta in H. destruct H as (_ & _ & _ & _ & _ & _ & H). apply H.
    + exists (toRadian_f 45). split; [simpl; now left|].
      split; vm_compute; reflexivity.
    + exists (toRadian_f 270). split; [simpl; right; now left|].
      split; vm_compute; reflexivity.
Defined.

(** ** Array.h: bounds for interpolation *)

(** C6.  For a sequence of at least one element [findBounds] returns two
    indices within [0, n - 1] and the values at them.  A query below the
    first element of an ascending sequence gives the first two samples, a
    query above the last element the last two, and a sequence of one element
    gives index 0 twice. *)
Theorem findBounds_spec
    (values : Array) (value : spec_float) (equalIntervalValues : bool) :
  (1 <= length values)%nat ->
  let n := length values in
  let found := array_util.findBounds values value equalIntervalValues in
  let lowerIndex := fst (fst (fst found)) in
  let upperIndex := snd (fst (fst found)) in
  let lowerValue := snd (fst found) in
  let upperValue := snd found in
  (lowerIndex <= n - 1)%nat /\ (upperIndex <= n - 1)%nat
  /\ lowerValue = values !!! lowerIndex /\ upperValue = values !!! upperIndex
  /\ (n = 1%nat -> lowerIndex = 0%nat /\ upperIndex = 0%nat)
  /\ ((2 <= n)%nat -> upperIndex = (lowerIndex + 1)%nat)
  /\ ((2 <= n)%nat -> IEEE.ltb value (values !!! 0%nat) = true ->
      lowerIndex = 0%nat /\ upperIndex = 1%nat)
  /\ ((2 <= n)%nat -> ascending values ->
      IEEE.ltb (values !!! (n - 1)%nat) value = true ->
      lowerIndex = (n - 2)%nat /\ upperIndex = (n - 1)%nat).
Proof.
  intros Hn n found lowerIndex upperIndex lowerValue upperValue.
  unfold lowerIndex, upperIndex, lowerValue, upperValue, found,
    array_util.findBounds.
  fold n. destruct (n =? 1)%nat eqn:E1.
  - apply Nat.eqb_eq in E1. simpl. repeat split; try lia.
  - apply Nat.eqb_neq in E1. cbv zeta. simpl fst. simpl snd.
    destruct (IEEE.ltb value (values !!! 0%nat)) eqn:Elow.
    + assert (Hno : (2 <= n)%nat -> ascending values ->
                IEEE.ltb (values !!! (n - 1)%nat) value = true -> False).
      { intros H2 Hasc Hhigh.
        assert (Hfl : IEEE.ltb (values !!! 0%nat) (values !!! (n - 1)%nat) = true)
          by (apply Hasc; fold n; lia).
        pose proof (ltb_trans _ _ _ Elow (ltb_trans _ _ _ Hfl Hhigh)) as Hc.
        rewrite ltb_irrefl in Hc. discriminate. }
      repeat split; try lia; intros; exfalso; now apply Hno.
    + destruct (IEEE.ltb (values !!! (n - 1)%nat) value) eqn:Ehigh.
      * repeat split; try lia; discriminate.
      * assert (Habove : (2 <= n)%nat -> ascending values -> false = true ->
          forall k : nat, k = (n - 2)%nat /\ (k + 1)%nat = (n - 1)%nat)
          by discriminate.
        destruct equalIntervalValues.
        -- repeat split; try lia; try discriminate; now apply Habove.
        -- repeat split; try lia; try discriminate; now apply Habove.
Qed.

Lemma findBounds_spec_witness :
  let values := [d64 0; d64 1; d64 2; d64 4] in
  fst (fst (array_util.findBounds values (d64 7) false)) = (2%nat, 3%nat)
  /\ fst (fst (array_util.findBounds values (d64 (-7)) false)) = (0%nat, 1%nat).
Proof.
  intros values.
  pose proof (findBounds_spec values (d64 7) false) as H.
  pose proof (findBounds_spec values (d64 (-7)) false) as H'.
  cbv zeta in H, H'.
  destruct H as (_ & _ & _ & _ & _ & _ & _ & H); [simpl; lia|].
  destruct H' as (_ & _ & _ & _ & _ & _ & H' & _); [simpl; lia|].
  split.
  - destruct H as [H1 H2]; [simpl; lia | | vm_compute; reflexivity |].
    + intros i j Hij. simpl in Hij.
      destruct i as [|[|[|[|i]]]], j as [|[|[|[|j]]]]; try lia;
        vm_compute; reflexivity.
    + destruct (array_util.findBounds values (d64 7) false) as [[[l u] lv] uv].
      simpl in *. now rewrite H1, H2.
  - destruct H' as [H1 H2]; [simpl; lia | vm_compute; reflexivity |].
    destruct (array_util.findBounds values (d64 (-7)) false) as [[[l u] lv] uv].
    simpl in *. now rewrite H1, H2.
Defined.

(** ** DdrWriter: the expansion of a single incoming polar angle *)

Section arrange_facts.
Import IEEE SampleSet SampleSetMethods.

Variable isEqual : spec_float -> spec_float -> bool.

(** Recomputing the derived flags changes nothing else. *)
Lemma updateAngleAttributes_keeps ss log :
  let ss' := fst (snd (updateAngleAttributes isEqual (ss, log))) in
  angles0_ ss' = angles0_ ss /\ angles1_ ss' = angles1_ ss
  /\ angles2_ ss' = angles2_ ss /\ angles3_ ss' = angles3_ ss
  /\ spectra_ ss' = spectra_ ss /\ wavelengths_ ss' = wavelengths_ ss
  /\ colorModel_ ss' = colorModel_ ss.
Proof.
  unfold updateAngleAttributes, updateEqualIntervalAngles, updateOneSide.
  unfold bind, self, gets, update, lbInfo, modify. cbv beta iota zeta.
  simpl fst. simpl snd. simpl angles3_.
  destruct (updateOneSide_flags (angles3_ ss)) as [c0 c1].
  simpl. repeat split.
Qed.
End arrange_facts.

(** ** setupTabularBrdf *)

Section setupTabularBrdf_facts.
Import IEEE reflectance_model_utility.

Variable getBrdfValue : Vec3 -> Vec3 -> Vec3.
Variable getInOutDirection : Brdf -> nat -> nat -> nat -> nat -> Vec3 * Vec3.
Variable isDownwardDir : Vec3 -> bool.
Variable normalize : Vec3 -> Vec3.
Variable fillBackSide : Brdf -> Brdf.

Lemma cwiseMin_capped sp maxValue : capped maxValue (Eigen.cwiseMin sp maxValue).
Proof.
  intros c Hc. unfold Eigen.cwiseMin in Hc.
  apply list_elem_of_fmap in Hc as (x & -> & _). apply std_min_capped.
Qed.

(** What [tabulate] stores is a capped value of the model. *)
Lemma tabulate_Some brdf dataType maxValue cm fillable i0 i1 i2 i3 sp :
  tabulate getBrdfValue getInOutDirection isDownwardDir normalize
    brdf dataType maxValue cm fillable i0 i1 i2 i3 = Some sp ->
  exists inDir outDir,
    let values := getBrdfValue inDir outDir in
    (cm = RGB_MODEL ->
       sp = (fun v => std_min v maxValue) <$> [vx values; vy values; vz values])
    /\ (cm <> RGB_MODEL ->
       sp = [std_min
               (div binary32
                  (add binary32 (vx values) (add binary32 (vy values) (vz values)))
                  Utility.three_f)
               maxValue])
    /\ capped maxValue sp.
Proof.
  unfold tabulate.
  destruct (getInOutDirection brdf i0 i1 i2 i3) as [inDir outDir].
  destruct (fillable && isDownwardDir outDir); [discriminate|].
  cbv zeta.
  match goal with
  | |- context [getBrdfValue ?a ?b] => intros H; exists a, b
  end.
  cbv zeta. destruct (decide (cm = RGB_MODEL)) as [Hcm|Hcm];
    injection H as <-.
  - split; [reflexivity|]. split; [congruence|].
    apply (cwiseMin_capped (asVector3f _)).
  - split; [congruence|]. split; [reflexivity|].
    intros c Hc. apply list_elem_of_singleton in Hc as ->. apply std_min_capped.
Qed.

(** A property of the grid that every store keeps holds after the loops. *)
Lemma foldl_invariant {A I} (P : A -> Prop) (f : A -> I -> A) l :
  (forall a i, P a -> P (f a i)) -> forall a, P a -> P (foldl f a l).
Proof.
  intros Hf. induction l as [|i l IH]; intros a Ha; simpl; [exact Ha|].
  apply IH, Hf, Ha.
Qed.

Lemma tabulate_store_kept_or_capped dataType maxValue cm fillable before brdf c :
  kept_or_capped maxValue before brdf ->
  kept_or_capped maxValue before
    (tabulate_store getBrdfValue getInOutDirection isDownwardDir normalize
       dataType maxValue cm fillable brdf c).
Proof.
  intros Hinv. destruct c as [[[i0 i1] i2] i3]. unfold tabulate_store.
  destruct (tabulate _ _ _ _ brdf dataType maxValue cm fillable i0 i1 i2 i3)
    as [sp|] eqn:E; [|exact Hinv].
  apply tabulate_Some in E as (inDir & outDir & _ & _ & Hcap).
  intros j. unfold Brdf.setSampleSet, SampleSet.setSpectrum, Brdf.getSampleSet.
  cbn [samples_ spectra_].
  set (k := SampleSet.index (samples_ brdf) i0 i1 i2 i3).
  destruct (decide (k = j)) as [<-|Hne].
  - destruct (decide (k < length (spectra_ (samples_ brdf)))%nat) as [Hlt|Hge].
    + right. exists sp. split; [|exact Hcap].
      now apply list_lookup_insert_eq.
    + rewrite list_insert_ge by lia. apply Hinv.
  - rewrite list_lookup_insert_ne by exact Hne. apply Hinv.
Qed.
End setupTabularBrdf_facts.

(** C9.  For a grid whose colour model is neither RGB nor monochromatic
    [setupTabularBrdf] returns false and leaves the grid as it was; for a
    grid whose colour model is RGB or monochromatic it returns true. *)
Theorem setupTabularBrdf_colorModel
    (getBrdfValue : Vec3 -> Vec3 -> Vec3)
    (getInOutDirection : Brdf -> nat -> nat -> nat -> nat -> Vec3 * Vec3)
    (isDownwardDir : Vec3 -> bool) (normalize : Vec3 -> Vec3)
    (fillBackSide : Brdf -> Brdf)
    (dataType : DataType) (maxValue : spec_float)
    (brdf : Brdf) (cerr : Log.t) :
  let cm := SampleSet.getColorModel (Brdf.getSampleSet brdf) in
  let result :=
    reflectance_model_utility.setupTabularBrdf getBrdfValue getInOutDirection
      isDownwardDir normalize fillBackSide dataType maxValue (brdf, cerr) in
  (cm <> RGB_MODEL /\ cm <> MONOCHROMATIC_MODEL ->
     fst result = false /\ fst (snd result) = brdf)
  /\ (cm = RGB_MODEL \/ cm = MONOCHROMATIC_MODEL -> fst result = true).
Proof.
  intros cm result. unfold result, reflectance_model_utility.setupTabularBrdf.
  fold cm. split.
  - intros [H1 H2]. rewrite !bool_decide_eq_true_2 by assumption.
    split; reflexivity.
  - intros [H|H]; rewrite H.
    + rewrite (bool_decide_eq_false_2 (RGB_MODEL <> RGB_MODEL)) by congruence.
      reflexivity.
    + rewrite (bool_decide_eq_false_2 (MONOCHROMATIC_MODEL <> MONOCHROMATIC_MODEL))
        by congruence.
      rewrite andb_false_r. reflexivity.
Qed.

(** C10.  Every spectrum that the loops of [setupTabularBrdf] store is
    capped at [maxValue]: for an RGB grid it is the component-wise minimum of
    the value of the model and [maxValue], for a monochromatic grid its one
    channel is the minimum of the mean of the three channels of the model
    and [maxValue].  So after the loops each cell is as it was or holds no
    channel above [maxValue]; [fillBackSide] then runs on that grid when the
    grid is a [SpecularCoordinatesBrdf]. *)
Theorem setupTabularBrdf_capped
    (getBrdfValue : Vec3 -> Vec3 -> Vec3)
    (getInOutDirection : Brdf -> nat -> nat -> nat -> nat -> Vec3 * Vec3)
    (isDownwardDir : Vec3 -> bool) (normalize : Vec3 -> Vec3)
    (fillBackSide : Brdf -> Brdf)
    (dataType : DataType) (maxValue : spec_float)
    (brdf : Brdf) (cerr : Log.t) :
  let ss := Brdf.getSampleSet brdf in
  let cm := SampleSet.getColorModel ss in
  let fillable :=
    match class_ brdf with SpecularCoordinatesBrdf => true | _ => false end in
  let store :=
    reflectance_model_utility.tabulate_store getBrdfValue getInOutDirection
      isDownwardDir normalize dataType maxValue cm fillable in
  let tabulated := foldl store brdf (reflectance_model_utility.cells ss) in
  (cm = RGB_MODEL \/ cm = MONOCHROMATIC_MODEL) ->
  (forall current i0 i1 i2 i3 sp,
     reflectance_model_utility.tabulate getBrdfValue getInOutDirection
       isDownwardDir normalize current dataType maxValue cm fillable i0 i1 i2 i3
     = Some sp ->
     exists inDir outDir,
       let values := getBrdfValue inDir outDir in
       (cm = RGB_MODEL ->
          sp = (fun v => IEEE.std_min v maxValue)
                 <$> [vx values; vy values; vz values])
       /\ (cm = MONOCHROMATIC_MODEL ->
          sp = [IEEE.std_min
                  (IEEE.div IEEE.binary32
                     (IEEE.add IEEE.binary32 (vx values)
                        (IEEE.add IEEE.binary32 (vy values) (vz values)))
                     Utility.three_f)
                  maxValue])
       /\ capped maxValue sp)
  /\ kept_or_capped maxValue (spectra_ ss) tabulated
  /\ reflectance_model_utility.setupTabularBrdf getBrdfValue getInOutDirection
       isDownwardDir normalize fillBackSide dataType maxValue (brdf, cerr)
     = (true, (if fillable then fillBackSide tabulated else tabulated, cerr)).
Proof.
  intros ss cm fillable store tabulated Hcm. split; [|split].
  - intros current i0 i1 i2 i3 sp H.
    apply tabulate_Some in H as (inDir & outDir & H1 & H2 & H3).
    exists inDir, outDir. cbv zeta. split; [exact H1|]. split; [|exact H3].
    intros Hm. apply H2. rewrite Hm. discriminate.
  - unfold tabulated. apply foldl_invariant.
    + intros b c Hb. apply tabulate_store_kept_or_capped, Hb.
    + intros j. now left.
  - unfold reflectance_model_utility.setupTabularBrdf. fold ss cm.
    assert (E : bool_decide (cm <> RGB_MODEL)
                && bool_decide (cm <> MONOCHROMATIC_MODEL) = false).
    { destruct Hcm as [H|H]; rewrite H.
      - rewrite (bool_decide_eq_false_2 (RGB_MODEL <> RGB_MODEL)) by congruence.
        reflexivity.
      - rewrite (bool_decide_eq_false_2
                   (MONOCHROMATIC_MODEL <> MONOCHROMATIC_MODEL)) by congruence.
        apply andb_false_r. }
    rewrite E. reflexivity.
Qed.

Lemma setupTabularBrdf_colorModel_witness :
  let setup :=
    reflectance_model_utility.setupTabularBrdf constantModel upwardDirections
      isDownwardDir_z id id BRDF_DATA Utility.two_f in
  setup (brdf_xyz, []) = (false, (brdf_xyz, snd (snd (setup (brdf_xyz, [])))))
  /\ fst (setup (brdf_of_one_inTheta, [])) = true.
Proof.
  intros setup.
  pose proof (setupTabularBrdf_colorModel constantModel upwardDirections
                isDownwardDir_z id id BRDF_DATA Utility.two_f brdf_xyz []) as H.
  pose proof (setupTabularBrdf_colorModel constantModel upwardDirections
                isDownwardDir_z id id BRDF_DATA Utility.two_f
                brdf_of_one_inTheta []) as H'.
  cbv zeta in H, H'. fold setup in H, H'.
  destruct H as [H _]. destruct H' as [_ H'].
  destruct H as [H1 H2]; [split; discriminate|].
  split; [|apply H'; left; reflexivity].
  destruct (setup (brdf_xyz, [])) as [r [b l]]. simpl in *. now subst.
Defined.

Lemma setupTabularBrdf_capped_witness :
  let setup :=
    reflectance_model_utility.setupTabularBrdf constantModel upwardDirections
      isDownwardDir_z id id BRDF_DATA Utility.two_f in
  fst (setup (brdf_of_one_inTheta, [])) = true
  /\ forall sp, sp ∈ spectra_ (samples_ (fst (snd (setup (brdf_of_one_inTheta, [])))))
       -> sp = [Utility.one_f; Utility.two_f; Utility.two_f].
Proof.
  intros setup.
  pose proof (setupTabularBrdf_capped constantModel upwardDirections
                isDownwardDir_z id id BRDF_DATA Utility.two_f
                brdf_of_one_inTheta []) as H.
  cbv zeta in H. destruct H as (_ & _ & H); [left; reflexivity|].
  unfold setup. rewrite H. split; [reflexivity|].
  intros sp Hsp. vm_compute in Hsp.
  repeat (apply elem_of_cons in Hsp as [->|Hsp]; [reflexivity|]).
  inversion Hsp.
Defined.

(** ** DdrWriter: what is streamed *)

Section Emitting.
Import Stream DdrWriter.

Lemma emits_ret {A} (a : A) : emits (ret a) a [].
Proof. intros [st log]. unfold ret. simpl. now rewrite app_nil_r. Qed.

Lemma emits_put t : emits (put t) tt t.
Proof. intros s. reflexivity. Qed.

Lemma emits_bind {A B} (m : Out A) (k : A -> Out B) a b t1 t2 :
  emits m a t1 -> emits (k a) b t2 -> emits (bind m k) b (t1 ++ t2).
Proof.
  intros Hm Hk s. unfold bind. rewrite Hm, Hk. simpl. now rewrite app_assoc.
Qed.

Lemma emits_for_ {I} (l : list I) (body : I -> Out unit) (f : I -> list Token) :
  (forall i, emits (body i) tt (f i)) -> emits (for_ l body) tt (l ≫= f).
Proof.
  intros Hbody. unfold for_. induction l as [|i l IH]; simpl.
  - apply emits_ret.
  - eapply emits_bind; [apply Hbody | exact IH].
Qed.

Lemma emits_appends {A} (m : Out A) a t : emits m a t -> appends m.
Proof. intros H. now exists a, t. Qed.

Lemma returns_ret {A} (a : A) : returns (ret a) a.
Proof. exists []. apply emits_ret. Qed.

Lemma appends_put t : appends (put t).
Proof. apply (emits_appends _ tt t), emits_put. Qed.

Lemma appends_ret {A} (a : A) : appends (ret a).
Proof. apply (emits_appends _ a []), emits_ret. Qed.

Lemma returns_bind {A B} (m : Out A) (k : A -> Out B) b :
  appends m -> (forall a, returns (k a) b) -> returns (bind m k) b.
Proof.
  intros (a & t1 & E1) Hk. destruct (Hk a) as (t2 & E2).
  exists (t1 ++ t2). now apply emits_bind with a.
Qed.

Lemma appends_bind {A B} (m : Out A) (k : A -> Out B) :
  appends m -> (forall a, appends (k a)) -> appends (bind m k).
Proof.
  intros (a & t1 & E1) Hk. destruct (Hk a) as (b & t2 & E2).
  exists b, (t1 ++ t2). now apply emits_bind with a.
Qed.

Lemma appends_for_ {I} (l : list I) (body : I -> Out unit) :
  (forall i, appends (body i)) -> appends (for_ l body).
Proof.
  intros Hbody. unfold for_. induction l as [|i l IH]; simpl.
  - apply appends_ret.
  - apply appends_bind; [apply Hbody | intros []; exact IH].
Qed.
End Emitting.

Ltac appends_tac :=
  repeat first
    [ apply appends_put
    | apply appends_ret
    | apply appends_for_; intros
    | apply appends_bind; [|intros]
    | match goal with
      | |- appends (if ?c then _ else _) => destruct c
      | |- appends (match ?c with _ => _ end) => destruct c
      end ].

Section output_facts.
Import IEEE Stream DdrWriter.

Variable toDegree : spec_float -> spec_float.
Variable getVersion : string.
Variable xyzToSrgb : Spectrum -> Spectrum.

Lemma output_def_emits brdf wlIndex :
  emits (output_def toDegree xyzToSrgb brdf wlIndex) tt
        (def_tokens toDegree (output_value xyzToSrgb brdf wlIndex) brdf).
Proof.
  unfold output_def, def_tokens.
  apply emits_for_. intros inPhIndex.
  eapply emits_bind; [apply emits_put|].
  apply emits_for_. intros inThIndex.
  eapply emits_bind; [apply emits_put|].
  apply emits_for_. intros spPhIndex.
  eapply emits_bind; [|apply emits_put].
  apply emits_for_. intros spThIndex. apply emits_put.
Qed.

Lemma output_channel_appends brdf colorModel wlIndex :
  appends (output_channel toDegree xyzToSrgb brdf colorModel wlIndex).
Proof.
  unfold output_channel. cbv zeta.
  apply appends_bind; [appends_tac|intros _].
  do 4 (apply appends_bind; [appends_tac|intros _]).
  apply appends_bind; [|intros _; appends_tac].
  eapply emits_appends, output_def_emits.
Qed.

Lemma output_angles_appends n angle : appends (output_angles toDegree n angle).
Proof. unfold output_angles. appends_tac. Qed.

Lemma output_lines_returns brdf comments :
  returns (output_lines toDegree getVersion xyzToSrgb brdf comments) true.
Proof.
  unfold output_lines.
  repeat (apply returns_bind;
          [first [apply output_angles_appends
                 |apply appends_for_; intros; apply output_channel_appends
                 |appends_tac; apply output_angles_appends]
          |intros]).
  apply returns_ret.
Qed.

(** [output] on a grid that passes [validate] returns true and appends to
    the stream; on any other grid it returns false and streams nothing.
    What it streams does not depend on the stream or the logger. *)
Lemma output_result brdf comments :
  exists t,
    (isValid (Brdf.getSampleSet brdf) = false -> t = [])
    /\ forall stream log, exists log',
         output toDegree getVersion xyzToSrgb brdf comments (stream, log)
         = (isValid (Brdf.getSampleSet brdf), (stream ++ t, log')).
Proof.
  destruct (output_lines_returns brdf comments) as [t Ht].
  exists (if isValid (Brdf.getSampleSet brdf) then t else []).
  split; [intros ->; reflexivity|].
  intros stream log.
  unfold output. unfold bind at 1. unfold call. simpl snd. simpl fst.
  destruct (validate_reads (Brdf.getSampleSet brdf) log) as [log1 E].
  unfold validate. rewrite E.
  destruct (isValid (Brdf.getSampleSet brdf)); simpl negb; cbv iota.
  - exists log1. apply Ht.
  - eexists. unfold bind, lbError, modify, ret. simpl.
    rewrite app_nil_r. reflexivity.
Qed.
End output_facts.

Lemma lookup_total_fmap_lt (f : spec_float -> spec_float) (l : Array) i :
  (i < length l)%nat -> (f <$> l) !!! i = f (l !!! i).
Proof.
  intros H. destruct (lookup_lt_is_Some_2 l i H) as [x Hx].
  rewrite (list_lookup_total_correct l i x Hx).
  apply list_lookup_total_correct. rewrite list_lookup_fmap, Hx. reflexivity.
Qed.

Lemma mul_PI_F_nonneg x :
  IEEE.leb IEEE.zero x = true ->
  IEEE.leb IEEE.zero (IEEE.mul IEEE.binary32 x Utility.PI_F) = true.
Proof.
  destruct x as [[]|[]| |[] m e]; try discriminate; try reflexivity.
  intros _. apply signed_false_leb. unfold IEEE.mul, SFmul, Utility.PI_F.
  simpl xorb. apply binary_round_aux_signed. lia.
Qed.

Lemma output_true_isValid toDegree getVersion xyzToSrgb brdf comments s :
  fst (DdrWriter.output toDegree getVersion xyzToSrgb brdf comments s) = true ->
  isValid (Brdf.getSampleSet brdf) = true.
Proof.
  destruct s as [stream log].
  destruct (output_result toDegree getVersion xyzToSrgb brdf comments)
    as (t & _ & H).
  destruct (H stream log) as [log' E]. rewrite E. simpl. auto.
Qed.

(** ** DdrWriter: when [write] fails *)

Lemma validate_value ss log :
  fst (SampleSetMethods.validate (ss, log)) = isValid ss.
Proof. destruct (validate_reads ss log) as [log' E]. now rewrite E. Qed.

Section write_facts.
Import IEEE Stream.

Variable isEqual : spec_float -> spec_float -> bool.
Variable toDegree : spec_float -> spec_float.
Variable getVersion : string.
Variable xyzToSrgb : Spectrum -> Spectrum.
Variable fromSphericalCoordinatesBrdf : Brdf -> nat -> nat -> Brdf.
Variable initializeSpectra :
  Brdf -> Array -> Array -> Array -> Array -> list Spectrum.
Variable equalizeOverlappingSamples : Brdf -> Brdf.
Variable expandAngles : Brdf -> Brdf.
Variable copySpectraFromPhiOf0To360 : SampleSet -> SampleSet.
Variable fixEnergyConservation : Brdf -> Brdf.
Variable fillSpectraAtInThetaOf90 : Brdf -> spec_float -> Brdf.
Variable pow : spec_float -> spec_float -> spec_float.


End write_facts.


(** * Further properties *)

(** ** SampleSet: construction and resizing *)

Section allocation_facts.
Import IEEE SampleSet SampleSetAllocation.

Lemma length_Eigen_resize fresh a n : length (Eigen_resize fresh a n) = n.
Proof.
  unfold Eigen_resize. destruct (length a =? n)%nat eqn:E.
  - now apply Nat.eqb_eq in E.
  - now rewrite length_fmap, length_seq.
Qed.

(** Assigning at the indices [a .. a + k - 1]. *)
Lemma assign_at_seq sp k : forall a spectra,
  (a <= length spectra)%nat ->
  assign_at sp (seq a k) spectra
  = if (a + k <=? length spectra)%nat then
      (take a spectra ++ replicate k sp ++ drop (a + k) spectra, true)
    else
      (take a spectra ++ replicate (length spectra - a) sp, false).
Proof.
  induction k as [|k IH]; intros a spectra Ha; cbn [seq assign_at].
  - rewrite Nat.add_0_r. destruct (a <=? length spectra)%nat eqn:E;
      [|apply Nat.leb_gt in E; lia].
    simpl. now rewrite take_drop.
  - destruct (a <? length spectra)%nat eqn:Elt.
    + apply Nat.ltb_lt in Elt.
      rewrite IH by (rewrite length_insert; lia).
      rewrite length_insert.
      assert (Htake : take (S a) (<[a:=sp]> spectra) = take a spectra ++ [sp]).
      { rewrite (take_S_r _ a sp) by (now apply list_lookup_insert_eq).
        now rewrite take_insert_ge by lia. }
      replace (S a + k)%nat with (a + S k)%nat by lia.
      destruct (a + S k <=? length spectra)%nat eqn:E.
      * rewrite Htake, drop_insert_lt by lia.
        rewrite <- app_assoc. reflexivity.
      * rewrite Htake. rewrite <- app_assoc.
        replace (length spectra - a)%nat with (S (length spectra - S a)) by lia.
        reflexivity.
    + apply Nat.ltb_ge in Elt.
      destruct (a + S k <=? length spectra)%nat eqn:E;
        [apply Nat.leb_le in E; lia|].
      replace (length spectra - a)%nat with 0%nat by lia.
      simpl. rewrite app_nil_r. now rewrite take_ge by lia.
Qed.

(** Wrapping is the identity on the numbers the type holds, and a
    congruence for products. *)
Lemma wrap_int_range z : - 2 ^ 31 <= wrap_int z < 2 ^ 31.
Proof.
  unfold wrap_int. pose proof (Z.mod_pos_bound (z + 2 ^ 31) (2 ^ 32)). lia.
Qed.

Lemma wrap_int_small z : - 2 ^ 31 <= z < 2 ^ 31 -> wrap_int z = z.
Proof. intros H. unfold wrap_int. rewrite Z.mod_small by lia. lia. Qed.

Lemma wrap_int_mul_l a b : wrap_int (wrap_int a * b) = wrap_int (a * b).
Proof.
  unfold wrap_int.
  pose proof (Z.div_mod (a + 2 ^ 31) (2 ^ 32) ltac:(lia)) as H.
  set (q := (a + 2 ^ 31) / 2 ^ 32) in *.
  set (r := (a + 2 ^ 31) mod 2 ^ 32) in *. clearbody q r.
  assert (Ha : a = 2 ^ 32 * q + r - 2 ^ 31) by lia.
  replace ((r - 2 ^ 31) * b + 2 ^ 31)
    with (a * b + 2 ^ 31 + (- (q * b)) * 2 ^ 32) by (rewrite Ha; ring).
  now rewrite Z_mod_plus_full.
Qed.

Lemma int_mul_product a b c d :
  int_mul (int_mul (int_mul a b) c) d = wrap_int (a * b * c * d).
Proof.
  unfold int_mul. rewrite wrap_int_mul_l, <- Z.mul_assoc, wrap_int_mul_l.
  f_equal. ring.
Qed.

Lemma wrap_Index_mul_l a b : wrap_Index (wrap_Index a * b) = wrap_Index (a * b).
Proof.
  unfold wrap_Index.
  pose proof (Z.div_mod (a + 2 ^ 63) (2 ^ 64) ltac:(lia)) as H.
  set (q := (a + 2 ^ 63) / 2 ^ 64) in *.
  set (r := (a + 2 ^ 63) mod 2 ^ 64) in *. clearbody q r.
  assert (Ha : a = 2 ^ 64 * q + r - 2 ^ 63) by lia.
  replace ((r - 2 ^ 63) * b + 2 ^ 63)
    with (a * b + 2 ^ 63 + (- (q * b)) * 2 ^ 64) by (rewrite Ha; ring).
  now rewrite Z_mod_plus_full.
Qed.

Lemma to_size_t_wrap_Index z : to_size_t (wrap_Index z) = z mod 2 ^ 64.
Proof.
  unfold to_size_t, wrap_Index.
  pose proof (Z.div_mod (z + 2 ^ 63) (2 ^ 64) ltac:(lia)) as H.
  set (q := (z + 2 ^ 63) / 2 ^ 64) in *.
  set (r := (z + 2 ^ 63) mod 2 ^ 64) in *.
  replace (r - 2 ^ 63) with (z + (- q) * 2 ^ 64) by lia.
  apply Z_mod_plus_full.
Qed.

Lemma Index_mul_product a b c d :
  to_size_t (Index_mul (Index_mul (Index_mul a b) c) d)
  = (a * b * c * d) mod 2 ^ 64.
Proof.
  unfold Index_mul. rewrite wrap_Index_mul_l, <- Z.mul_assoc, wrap_Index_mul_l.
  rewrite to_size_t_wrap_Index. f_equal. ring.
Qed.

(** A product of [int]s that is negative converts to a [size_t] beyond
    [max_size()]; any other is converted as it is. *)
Lemma to_size_t_wrap_int z :
  let w := wrap_int z in
  (max_size <? to_size_t w) = (w <? 0)
  /\ (0 <= w -> to_size_t w = w).
Proof.
  intros w. pose proof (wrap_int_range z) as Hr. fold w in Hr.
  unfold to_size_t. change max_size with 576460752303423487.
  destruct (Z.ltb_spec w 0) as [Hneg|Hpos].
  - split; [|lia].
    replace w with (w + 2 ^ 64 + (-1) * 2 ^ 64) by lia.
    rewrite Z_mod_plus_full, Z.mod_small by lia.
    apply Z.ltb_lt. lia.
  - rewrite Z.mod_small by lia. split; [|reflexivity].
    apply Z.ltb_ge. lia.
Qed.

(** What [resizeAngles] computes. *)
Lemma resizeAngles_run fresh0 fresh1 fresh2 fresh3 n0 n1 n2 n3 ss (log : Log.t) :
  let numSamples :=
    wrap_int (Z.of_nat n0 * Z.of_nat n1 * Z.of_nat n2 * Z.of_nat n3) in
  let resized :=
    set_angles (Eigen_resize fresh0 (angles0_ ss) n0)
               (Eigen_resize fresh1 (angles1_ ss) n1)
               (Eigen_resize fresh2 (angles2_ ss) n2)
               (Eigen_resize fresh3 (angles3_ ss) n3) ss in
  resizeAngles fresh0 fresh1 fresh2 fresh3 n0 n1 n2 n3 (ss, log)
  = if numSamples <? 0 then (Throws std_length_error, (resized, log))
    else
      (Returns,
       (set_spectra (resize (Z.to_nat numSamples) [] (spectra_ ss)) resized,
        log)).
Proof.
  intros numSamples resized. unfold resizeAngles.
  rewrite int_mul_product. fold numSamples.
  destruct (to_size_t_wrap_int
              (Z.of_nat n0 * Z.of_nat n1 * Z.of_nat n2 * Z.of_nat n3))
    as [Hmax Hid].
  fold numSamples in Hmax, Hid.
  unfold bind at 1. unfold update at 1, modify. cbn [fst snd].
  fold resized. rewrite Hmax.
  destruct (Z.ltb_spec numSamples 0) as [Hneg|Hpos]; [reflexivity|].
  rewrite (Hid Hpos). reflexivity.
Qed.

(** What [resizeWavelengths] computes. *)
Lemma resizeWavelengths_run freshW n ss (log : Log.t) :
  let numSamples :=
    (Z.of_nat (length (angles0_ ss)) * Z.of_nat (length (angles1_ ss))
     * Z.of_nat (length (angles2_ ss)) * Z.of_nat (length (angles3_ ss)))
    mod 2 ^ 64 in
  resizeWavelengths freshW n (ss, log)
  = if numSamples <=? Z.of_nat (length (spectra_ ss)) then
      (Returns,
       (set_wavelengths (Eigen_resize freshW (wavelengths_ ss) n)
          (set_spectra
             (replicate (Z.to_nat numSamples) (Zero n)
              ++ drop (Z.to_nat numSamples) (spectra_ ss)) ss), log))
    else
      (Throws std_out_of_range,
       (set_spectra (replicate (length (spectra_ ss)) (Zero n)) ss, log)).
Proof.
  intros numSamples. unfold resizeWavelengths.
  unfold bind at 1. unfold self, gets. cbn [fst].
  rewrite Index_mul_product. fold numSamples.
  assert (Hnn : 0 <= numSamples)
    by (unfold numSamples; apply Z.mod_pos_bound; lia).
  rewrite assign_at_seq by lia. rewrite Nat.add_0_l, Nat.sub_0_r. cbn [take app].
  destruct (Z.leb_spec numSamples (Z.of_nat (length (spectra_ ss)))) as [Hle|Hgt].
  - rewrite (proj2 (Nat.leb_le _ _)) by lia. reflexivity.
  - rewrite (proj2 (Nat.leb_gt _ _)) by lia. reflexivity.
Qed.
End allocation_facts.

(** X1.  [resizeAngles], called with sizes that are not negative, gives the
    four axes the requested sizes; an axis that has the requested size
    already keeps its values.  The number of samples is the product of the
    four sizes as the [int] arithmetic computes it: the product itself when
    it fits an [int], and wrapped around otherwise.  When it is negative, the
    resize of the vector of spectra throws [std::length_error] and the vector
    is as before; otherwise the vector gets that size, the spectra stored
    before stay at their positions and new cells hold empty spectra.
    Wavelengths, colour model and the derived flags are kept. *)
Theorem resizeAngles_spec
    (fresh0 fresh1 fresh2 fresh3 : nat -> spec_float)
    (n0 n1 n2 n3 : nat) (ss : SampleSet) (log : Log.t) :
  Z.of_nat n0 <= SampleSetAllocation.INT_MAX ->
  Z.of_nat n1 <= SampleSetAllocation.INT_MAX ->
  Z.of_nat n2 <= SampleSetAllocation.INT_MAX ->
  Z.of_nat n3 <= SampleSetAllocation.INT_MAX ->
  let after :=
    SampleSetAllocation.resizeAngles fresh0 fresh1 fresh2 fresh3 n0 n1 n2 n3
      (ss, log) in
  let ss' := fst (snd after) in
  let product := Z.of_nat n0 * Z.of_nat n1 * Z.of_nat n2 * Z.of_nat n3 in
  let numSamples := SampleSetAllocation.wrap_int product in
  (SampleSet.getNumAngles0 ss' = n0 /\ SampleSet.getNumAngles1 ss' = n1
   /\ SampleSet.getNumAngles2 ss' = n2 /\ SampleSet.getNumAngles3 ss' = n3)
  /\ (SampleSet.getNumAngles0 ss = n0 -> angles0_ ss' = angles0_ ss)
  /\ (SampleSet.getNumAngles1 ss = n1 -> angles1_ ss' = angles1_ ss)
  /\ (SampleSet.getNumAngles2 ss = n2 -> angles2_ ss' = angles2_ ss)
  /\ (SampleSet.getNumAngles3 ss = n3 -> angles3_ ss' = angles3_ ss)
  /\ (product <= SampleSetAllocation.INT_MAX -> numSamples = product)
  /\ (numSamples < 0 ->
      fst after = SampleSetAllocation.Throws SampleSetAllocation.std_length_error
      /\ spectra_ ss' = spectra_ ss)
  /\ (0 <= numSamples ->
      fst after = SampleSetAllocation.Returns
      /\ length (spectra_ ss') = Z.to_nat numSamples
      /\ forall j, (j < Z.to_nat numSamples)%nat ->
           spectra_ ss' !! j
           = if decide (j < length (spectra_ ss))%nat then spectra_ ss !! j
             else Some [])
  /\ wavelengths_ ss' = wavelengths_ ss /\ colorModel_ ss' = colorModel_ ss
  /\ (equalIntervalAngles0_ ss', equalIntervalAngles1_ ss',
      equalIntervalAngles2_ ss', equalIntervalAngles3_ ss', oneSide_ ss')
     = (equalIntervalAngles0_ ss, equalIntervalAngles1_ ss,
        equalIntervalAngles2_ ss, equalIntervalAngles3_ ss, oneSide_ ss)
  /\ snd (snd after) = log.
Proof.
  intros _ _ _ _ after ss' product numSamples. unfold ss', after.
  rewrite resizeAngles_run. fold product. fold numSamples.
  assert (Hsame : forall fresh a n,
            length a = n -> SampleSetAllocation.Eigen_resize fresh a n = a).
  { intros fresh a n H. unfold SampleSetAllocation.Eigen_resize.
    now rewrite (proj2 (Nat.eqb_eq _ _) H). }
  assert (Hsmall : product <= SampleSetAllocation.INT_MAX -> numSamples = product).
  { intros Hp. apply wrap_int_small. unfold SampleSetAllocation.INT_MAX in Hp.
    unfold product in *. split; [|lia].
    transitivity 0; [lia|]. repeat apply Z.mul_nonneg_nonneg; lia. }
  unfold SampleSet.getNumAngles0, SampleSet.getNumAngles1,
    SampleSet.getNumAngles2, SampleSet.getNumAngles3.
  destruct (Z.ltb_spec numSamples 0) as [Hneg|Hpos];
    cbn [fst snd angles0_ angles1_ angles2_ angles3_ spectra_ wavelengths_
         colorModel_ equalIntervalAngles0_ equalIntervalAngles1_
         equalIntervalAngles2_ equalIntervalAngles3_ oneSide_
         SampleSetAllocation.set_angles SampleSetAllocation.set_spectra];
    rewrite !length_Eigen_resize.
  - repeat split; auto; lia.
  - split; [repeat split|]. do 4 (split; [auto|]). split; [exact Hsmall|].
    split; [lia|]. split; [|repeat split].
    intros _. split; [reflexivity|]. split; [apply length_resize|].
    intros j Hj.
    destruct (decide (j < length (spectra_ ss))%nat) as [Hlt|Hge].
    + now apply lookup_resize.
    + apply lookup_resize_new; lia.
Qed.

Lemma resizeAngles_spec_witness :
  let after :=
    SampleSetAllocation.resizeAngles (fun _ => IEEE.zero) (fun _ => IEEE.zero)
      (fun _ => IEEE.zero) (fun _ => IEEE.zero) 2 1 3 2
      (Brdf.getSampleSet brdf_of_one_inTheta, []) in
  fst after = SampleSetAllocation.Returns
  /\ length (spectra_ (fst (snd after))) = 12%nat.
Proof.
  intros after.
  pose proof (resizeAngles_spec (fun _ => IEEE.zero) (fun _ => IEEE.zero)
                (fun _ => IEEE.zero) (fun _ => IEEE.zero) 2 1 3 2
                (Brdf.getSampleSet brdf_of_one_inTheta) []) as H.
  cbv zeta in H. fold after in H.
  destruct H as (_ & _ & _ & _ & _ & _ & _ & H & _);
    [vm_compute; discriminate ..|].
  destruct H as (H1 & H2 & _); [vm_compute; discriminate|].
  split; [exact H1|exact H2].
Defined.

(** X2.  [resizeWavelengths] runs over as many samples as the product of
    the four axis sizes, taken modulo 2^64 as the [size_t] that holds it.  It
    throws [std::out_of_range] exactly when the vector of spectra is shorter
    than that.  When it does not throw, every cell the loop reaches holds [n]
    zeros, the cells beyond are as before and the array of wavelengths has
    [n] elements.  When it throws, every spectrum of the vector has been
    zeroed all the same, and the array of wavelengths is as before.  The axes
    never change. *)
Theorem resizeWavelengths_spec
    (freshW : nat -> spec_float) (n : nat) (ss : SampleSet) (log : Log.t) :
  Z.of_nat n <= SampleSetAllocation.INT_MAX ->
  let after := SampleSetAllocation.resizeWavelengths freshW n (ss, log) in
  let ss' := fst (snd after) in
  let numSamples :=
    (Z.of_nat (SampleSet.getNumAngles0 ss) * Z.of_nat (SampleSet.getNumAngles1 ss)
     * Z.of_nat (SampleSet.getNumAngles2 ss) * Z.of_nat (SampleSet.getNumAngles3 ss))
    mod 2 ^ 64 in
  let zeros := SampleSetAllocation.Zero n in
  (fst after = SampleSetAllocation.Returns
   <-> numSamples <= Z.of_nat (length (spectra_ ss)))
  /\ (fst after = SampleSetAllocation.Throws SampleSetAllocation.std_out_of_range
      <-> Z.of_nat (length (spectra_ ss)) < numSamples)
  /\ (numSamples <= Z.of_nat (length (spectra_ ss)) ->
      spectra_ ss'
      = replicate (Z.to_nat numSamples) zeros
        ++ drop (Z.to_nat numSamples) (spectra_ ss)
      /\ length (wavelengths_ ss') = n)
  /\ (Z.of_nat (length (spectra_ ss)) < numSamples ->
      spectra_ ss' = replicate (length (spectra_ ss)) zeros
      /\ wavelengths_ ss' = wavelengths_ ss)
  /\ (angles0_ ss', angles1_ ss', angles2_ ss', angles3_ ss')
     = (angles0_ ss, angles1_ ss, angles2_ ss, angles3_ ss)
  /\ colorModel_ ss' = colorModel_ ss
  /\ snd (snd after) = log.
Proof.
  intros _ after ss' numSamples zeros. unfold ss', after.
  rewrite resizeWavelengths_run.
  unfold SampleSet.getNumAngles0, SampleSet.getNumAngles1,
    SampleSet.getNumAngles2, SampleSet.getNumAngles3 in numSamples.
  fold numSamples. fold zeros.
  destruct (Z.leb_spec numSamples (Z.of_nat (length (spectra_ ss)))) as [E|E];
    cbn [fst snd angles0_ angles1_ angles2_ angles3_ spectra_ wavelengths_
         colorModel_ SampleSetAllocation.set_spectra
         SampleSetAllocation.set_wavelengths];
    rewrite ?length_Eigen_resize;
    repeat split; try (intros; lia); try discriminate; auto.
Qed.

Lemma resizeWavelengths_spec_witness :
  let after :=
    SampleSetAllocation.resizeWavelengths (fun _ => IEEE.zero) 2
      (Brdf.getSampleSet brdf_of_one_inTheta, []) in
  fst after = SampleSetAllocation.Returns
  /\ spectra_ (fst (snd after)) = replicate 6 [IEEE.zero; IEEE.zero].
Proof.
  intros after.
  pose proof (resizeWavelengths_spec (fun _ => IEEE.zero) 2
                (Brdf.getSampleSet brdf_of_one_inTheta) []) as H.
  cbv zeta in H. fold after in H.
  destruct H as (H1 & _ & H2 & _); [vm_compute; discriminate|].
  split.
  - apply H1. vm_compute. discriminate.
  - destruct H2 as [H2 _]; [vm_compute; discriminate|].
    rewrite H2. reflexivity.
Defined.

(** What the two resizes compute one after the other. *)
Lemma resize_both_run fresh0 fresh1 fresh2 fresh3 freshW n0 n1 n2 n3 n ss
    (log : Log.t) :
  Z.of_nat n0 * Z.of_nat n1 * Z.of_nat n2 * Z.of_nat n3
    <= SampleSetAllocation.INT_MAX ->
  let resized :=
    SampleSetAllocation.resizeAngles fresh0 fresh1 fresh2 fresh3 n0 n1 n2 n3
      (ss, log) in
  fst resized = SampleSetAllocation.Returns
  /\ SampleSetAllocation.resizeWavelengths freshW n (snd resized)
     = (SampleSetAllocation.Returns,
        (mkSampleSet
           (SampleSetAllocation.Eigen_resize fresh0 (angles0_ ss) n0)
           (SampleSetAllocation.Eigen_resize fresh1 (angles1_ ss) n1)
           (SampleSetAllocation.Eigen_resize fresh2 (angles2_ ss) n2)
           (SampleSetAllocation.Eigen_resize fresh3 (angles3_ ss) n3)
           (replicate (n0 * n1 * n2 * n3) (SampleSetAllocation.Zero n))
           (SampleSetAllocation.Eigen_resize freshW (wavelengths_ ss) n)
           (colorModel_ ss)
           (equalIntervalAngles0_ ss) (equalIntervalAngles1_ ss)
           (equalIntervalAngles2_ ss) (equalIntervalAngles3_ ss) (oneSide_ ss),
         log)).
Proof.
  intros Hfit resized. unfold resized. rewrite resizeAngles_run.
  set (product := Z.of_nat n0 * Z.of_nat n1 * Z.of_nat n2 * Z.of_nat n3) in *.
  assert (Hnn : 0 <= product)
    by (unfold product; repeat apply Z.mul_nonneg_nonneg; lia).
  assert (Hw : SampleSetAllocation.wrap_int product = product).
  { apply wrap_int_small. unfold SampleSetAllocation.INT_MAX in Hfit. lia. }
  rewrite Hw. rewrite (proj2 (Z.ltb_ge _ _) Hnn). cbn [fst snd].
  split; [reflexivity|].
  rewrite resizeWavelengths_run.
  cbn [angles0_ angles1_ angles2_ angles3_ spectra_ wavelengths_
       SampleSetAllocation.set_angles SampleSetAllocation.set_spectra].
  rewrite !length_Eigen_resize, length_resize. fold product.
  unfold SampleSetAllocation.INT_MAX in Hfit.
  rewrite Z.mod_small by lia. rewrite Z2Nat.id by lia.
  rewrite Z.leb_refl.
  unfold SampleSetAllocation.set_wavelengths, SampleSetAllocation.set_spectra,
    SampleSetAllocation.set_angles.
  cbn [angles0_ angles1_ angles2_ angles3_ spectra_ wavelengths_ colorModel_
       equalIntervalAngles0_ equalIntervalAngles1_ equalIntervalAngles2_
       equalIntervalAngles3_ oneSide_].
  rewrite drop_ge by (rewrite length_resize; lia).
  rewrite app_nil_r.
  replace (Z.to_nat product) with (n0 * n1 * n2 * n3)%nat
    by (unfold product; lia).
  reflexivity.
Qed.

(** What the constructor computes. *)
Lemma construct_run fresh0 fresh1 fresh2 fresh3 freshW n0 n1 n2 n3
    colorModel c0 numWavelengths (log : Log.t) :
  let product := Z.of_nat n0 * Z.of_nat n1 * Z.of_nat n2 * Z.of_nat n3 in
  let numSamples := SampleSetAllocation.wrap_int product in
  let channels :=
    match colorModel with
    | SPECTRAL_MODEL => numWavelengths
    | MONOCHROMATIC_MODEL => 1%nat
    | _ => 3%nat
    end in
  let axes (spectra : list Spectrum) (wavelengths : Array) (cm : ColorModel) :=
    mkSampleSet (SampleSetAllocation.Eigen_resize fresh0 [] n0)
      (SampleSetAllocation.Eigen_resize fresh1 [] n1)
      (SampleSetAllocation.Eigen_resize fresh2 [] n2)
      (SampleSetAllocation.Eigen_resize fresh3 [] n3)
      spectra wavelengths cm false false false false false in
  SampleSetAllocation.construct fresh0 fresh1 fresh2 fresh3 freshW
    n0 n1 n2 n3 colorModel numWavelengths
    (SampleSetAllocation.members c0, log)
  = if numSamples <? 0 then
      (SampleSetAllocation.Throws SampleSetAllocation.std_length_error,
       (axes [] [] c0, log))
    else if numSamples <? product mod 2 ^ 64 then
      (SampleSetAllocation.Throws SampleSetAllocation.std_out_of_range,
       (axes (replicate (Z.to_nat numSamples)
                (SampleSetAllocation.Zero channels)) [] colorModel, log))
    else
      (SampleSetAllocation.Returns,
       (axes (replicate (Z.to_nat (product mod 2 ^ 64))
                (SampleSetAllocation.Zero channels)
              ++ drop (Z.to_nat (product mod 2 ^ 64))
                   (replicate (Z.to_nat numSamples) []))
             match colorModel with
             | SPECTRAL_MODEL =>
                 SampleSetAllocation.Eigen_resize freshW [] numWavelengths
             | _ => SampleSetAllocation.Zero channels
             end
             colorModel, log)).
Proof.
  intros product numSamples channels axes.
  unfold SampleSetAllocation.construct. unfold bind at 1.
  rewrite resizeAngles_run. fold product. fold numSamples.
  destruct (Z.ltb_spec numSamples 0) as [Hneg|Hpos]; [reflexivity|].
  unfold bind at 1. unfold SampleSet.update at 1, modify. cbn [fst snd].
  unfold SampleSetAllocation.members, SampleSetAllocation.set_angles,
    SampleSetAllocation.set_spectra, SampleSetAllocation.set_colorModel.
  cbn [angles0_ angles1_ angles2_ angles3_ spectra_ wavelengths_ colorModel_
       equalIntervalAngles0_ equalIntervalAngles1_ equalIntervalAngles2_
       equalIntervalAngles3_ oneSide_].
  rewrite resize_nil.
  fold (axes (replicate (Z.to_nat numSamples) []) [] colorModel).
  assert (Hrun : forall cm n,
    SampleSetAllocation.resizeWavelengths freshW n
      (axes (replicate (Z.to_nat numSamples) []) [] cm, log)
    = if product mod 2 ^ 64 <=? numSamples then
        (SampleSetAllocation.Returns,
         (axes (replicate (Z.to_nat (product mod 2 ^ 64))
                  (SampleSetAllocation.Zero n)
                ++ drop (Z.to_nat (product mod 2 ^ 64))
                     (replicate (Z.to_nat numSamples) []))
               (SampleSetAllocation.Eigen_resize freshW [] n) cm, log))
      else
        (SampleSetAllocation.Throws SampleSetAllocation.std_out_of_range,
         (axes (replicate (Z.to_nat numSamples) (SampleSetAllocation.Zero n))
               [] cm, log))).
  { intros cm n. rewrite resizeWavelengths_run. unfold axes.
    cbn [angles0_ angles1_ angles2_ angles3_ spectra_ wavelengths_].
    rewrite !length_Eigen_resize, length_replicate. fold product.
    rewrite Z2Nat.id by lia. reflexivity. }
  assert (Hout : (numSamples <? product mod 2 ^ 64)
                 = negb (product mod 2 ^ 64 <=? numSamples)).
  { destruct (Z.ltb_spec numSamples (product mod 2 ^ 64)),
             (Z.leb_spec (product mod 2 ^ 64) numSamples); try reflexivity; lia. }
  rewrite Hout.
  destruct colorModel; try unfold bind at 1; rewrite Hrun;
    destruct (product mod 2 ^ 64 <=? numSamples); reflexivity.
Qed.

(** X3.  The constructor, called with sizes that are not negative, ends as
    the two products allow.  The number of samples that [resizeAngles]
    allocates is the product of the four sizes computed in [int]: when it
    wraps to a negative number the constructor throws [std::length_error],
    and when it wraps to less than the product that [resizeWavelengths]
    computes in 64 bits the constructor throws [std::out_of_range].  When the
    product fits an [int] the constructor returns a sample set with the
    requested axis sizes whose every spectrum is all zeros, with one channel
    for the monochromatic model, three for RGB and XYZ and [numWavelengths]
    for the spectral model; the wavelengths are as many, and are zeros except
    for the spectral model; the colour model is stored and every derived flag
    is false. *)
Theorem construct_spec
    (fresh0 fresh1 fresh2 fresh3 freshW : nat -> spec_float)
    (n0 n1 n2 n3 : nat) (colorModel c0 : ColorModel) (numWavelengths : nat)
    (log : Log.t) :
  Z.of_nat n0 <= SampleSetAllocation.INT_MAX ->
  Z.of_nat n1 <= SampleSetAllocation.INT_MAX ->
  Z.of_nat n2 <= SampleSetAllocation.INT_MAX ->
  Z.of_nat n3 <= SampleSetAllocation.INT_MAX ->
  Z.of_nat numWavelengths <= SampleSetAllocation.INT_MAX ->
  let product := Z.of_nat n0 * Z.of_nat n1 * Z.of_nat n2 * Z.of_nat n3 in
  let numSamples := SampleSetAllocation.wrap_int product in
  let channels :=
    match colorModel with
    | SPECTRAL_MODEL => numWavelengths
    | MONOCHROMATIC_MODEL => 1%nat
    | _ => 3%nat
    end in
  let after :=
    SampleSetAllocation.construct fresh0 fresh1 fresh2 fresh3 freshW
      n0 n1 n2 n3 colorModel numWavelengths
      (SampleSetAllocation.members c0, log) in
  let ss := fst (snd after) in
  fst after
  = (if numSamples <? 0 then
       SampleSetAllocation.Throws SampleSetAllocation.std_length_error
     else if numSamples <? product mod 2 ^ 64 then
       SampleSetAllocation.Throws SampleSetAllocation.std_out_of_range
     else SampleSetAllocation.Returns)
  /\ (product <= SampleSetAllocation.INT_MAX ->
      fst after = SampleSetAllocation.Returns
      /\ (SampleSet.getNumAngles0 ss = n0 /\ SampleSet.getNumAngles1 ss = n1
          /\ SampleSet.getNumAngles2 ss = n2 /\ SampleSet.getNumAngles3 ss = n3)
      /\ spectra_ ss
         = replicate (n0 * n1 * n2 * n3) (SampleSetAllocation.Zero channels)
      /\ length (wavelengths_ ss) = channels
      /\ (colorModel <> SPECTRAL_MODEL ->
          wavelengths_ ss = SampleSetAllocation.Zero channels)
      /\ colorModel_ ss = colorModel
      /\ (equalIntervalAngles0_ ss, equalIntervalAngles1_ ss,
          equalIntervalAngles2_ ss, equalIntervalAngles3_ ss, oneSide_ ss)
         = (false, false, false, false, false)
      /\ snd (snd after) = log).
Proof.
  intros _ _ _ _ _ product numSamples channels after ss.
  unfold ss, after. rewrite construct_run.
  fold product. fold numSamples. fold channels.
  split.
  - destruct (numSamples <? 0); [reflexivity|].
    destruct (numSamples <? product mod 2 ^ 64); reflexivity.
  - intros Hfit. unfold SampleSetAllocation.INT_MAX in Hfit.
    assert (Hnn : 0 <= product)
      by (unfold product; repeat apply Z.mul_nonneg_nonneg; lia).
    assert (Hw : numSamples = product)
      by (unfold numSamples; apply wrap_int_small; lia).
    assert (Hm : product mod 2 ^ 64 = product) by (apply Z.mod_small; lia).
    assert (HP : Z.to_nat product = (n0 * n1 * n2 * n3)%nat)
      by (unfold product; lia).
    rewrite Hm, Hw, Z.ltb_irrefl, (proj2 (Z.ltb_ge _ _) Hnn), HP.
    unfold SampleSet.getNumAngles0, SampleSet.getNumAngles1,
      SampleSet.getNumAngles2, SampleSet.getNumAngles3.
    cbn [fst snd angles0_ angles1_ angles2_ angles3_ spectra_ wavelengths_
         colorModel_ equalIntervalAngles0_ equalIntervalAngles1_
         equalIntervalAngles2_ equalIntervalAngles3_ oneSide_].
    rewrite !length_Eigen_resize.
    rewrite drop_ge by (rewrite length_replicate; lia).
    rewrite app_nil_r.
    repeat split; try reflexivity.
    + destruct colorModel; unfold channels;
        rewrite ?length_Eigen_resize; reflexivity.
    + destruct colorModel; try reflexivity. congruence.
Qed.

Lemma construct_spec_witness :
  let build n0 n1 :=
    SampleSetAllocation.construct (fun _ => IEEE.zero) (fun _ => IEEE.zero)
      (fun _ => IEEE.zero) (fun _ => IEEE.zero) (fun _ => IEEE.zero)
      n0 n1 1 1 RGB_MODEL 3 (SampleSetAllocation.members RGB_MODEL, []) in
  fst (build (2 ^ 16)%nat (2 ^ 16)%nat)
  = SampleSetAllocation.Throws SampleSetAllocation.std_out_of_range
  /\ fst (build 2%nat 3%nat) = SampleSetAllocation.Returns
  /\ spectra_ (fst (snd (build 2%nat 3%nat)))
     = replicate 6 [IEEE.zero; IEEE.zero; IEEE.zero].
Proof.
  intros build. split; [|split].
  - unfold build.
    rewrite (proj1 (construct_spec (fun _ => IEEE.zero) (fun _ => IEEE.zero)
                      (fun _ => IEEE.zero) (fun _ => IEEE.zero)
                      (fun _ => IEEE.zero) (2 ^ 16) (2 ^ 16) 1 1
                      RGB_MODEL RGB_MODEL 3 []
                      ltac:(vm_compute; discriminate)
                      ltac:(vm_compute; discriminate)
                      ltac:(vm_compute; discriminate)
                      ltac:(vm_compute; discriminate)
                      ltac:(vm_compute; discriminate))).
    vm_compute. reflexivity.
  - unfold build.
    apply (proj2 (construct_spec (fun _ => IEEE.zero) (fun _ => IEEE.zero)
                    (fun _ => IEEE.zero) (fun _ => IEEE.zero)
                    (fun _ => IEEE.zero) 2 3 1 1 RGB_MODEL RGB_MODEL 3 []
                    ltac:(vm_compute; discriminate)
                    ltac:(vm_compute; discriminate)
                    ltac:(vm_compute; discriminate)
                    ltac:(vm_compute; discriminate)
                    ltac:(vm_compute; discriminate))).
    vm_compute. discriminate.
  - unfold build.
    apply (proj2 (construct_spec (fun _ => IEEE.zero) (fun _ => IEEE.zero)
                    (fun _ => IEEE.zero) (fun _ => IEEE.zero)
                    (fun _ => IEEE.zero) 2 3 1 1 RGB_MODEL RGB_MODEL 3 []
                    ltac:(vm_compute; discriminate)
                    ltac:(vm_compute; discriminate)
                    ltac:(vm_compute; discriminate)
                    ltac:(vm_compute; discriminate)
                    ltac:(vm_compute; discriminate))).
    vm_compute. discriminate.
Defined.

(** X19.  When the product of the four sizes fits an [int],
    [resizeWavelengths] after [resizeAngles] does not throw, whatever the
    sample set held: the vector of spectra has the size the loop runs over.
    Every spectrum then holds [numWavelengths] zeros, so the samples stored
    before are gone although [resizeAngles] alone had kept them; the axes
    have the requested sizes and there are [numWavelengths] wavelengths. *)
Theorem resizeAngles_resizeWavelengths
    (fresh0 fresh1 fresh2 fresh3 freshW : nat -> spec_float)
    (n0 n1 n2 n3 numWavelengths : nat) (ss : SampleSet) (log : Log.t) :
  Z.of_nat n0 <= SampleSetAllocation.INT_MAX ->
  Z.of_nat n1 <= SampleSetAllocation.INT_MAX ->
  Z.of_nat n2 <= SampleSetAllocation.INT_MAX ->
  Z.of_nat n3 <= SampleSetAllocation.INT_MAX ->
  Z.of_nat numWavelengths <= SampleSetAllocation.INT_MAX ->
  Z.of_nat n0 * Z.of_nat n1 * Z.of_nat n2 * Z.of_nat n3
    <= SampleSetAllocation.INT_MAX ->
  let resized :=
    SampleSetAllocation.resizeAngles fresh0 fresh1 fresh2 fresh3 n0 n1 n2 n3
      (ss, log) in
  let after :=
    SampleSetAllocation.resizeWavelengths freshW numWavelengths (snd resized) in
  let ss' := fst (snd after) in
  fst resized = SampleSetAllocation.Returns
  /\ fst after = SampleSetAllocation.Returns
  /\ spectra_ ss'
     = replicate (n0 * n1 * n2 * n3) (SampleSetAllocation.Zero numWavelengths)
  /\ (SampleSet.getNumAngles0 ss' = n0 /\ SampleSet.getNumAngles1 ss' = n1
      /\ SampleSet.getNumAngles2 ss' = n2 /\ SampleSet.getNumAngles3 ss' = n3)
  /\ SampleSet.getNumWavelengths ss' = numWavelengths
  /\ colorModel_ ss' = colorModel_ ss.
Proof.
  intros _ _ _ _ _ Hfit resized after ss'.
  destruct (resize_both_run fresh0 fresh1 fresh2 fresh3 freshW n0 n1 n2 n3
              numWavelengths ss log Hfit) as [Hres Hrun].
  fold resized in Hres, Hrun.
  split; [exact Hres|]. unfold ss', after. rewrite Hrun.
  unfold SampleSet.getNumAngles0, SampleSet.getNumAngles1,
    SampleSet.getNumAngles2, SampleSet.getNumAngles3,
    SampleSet.getNumWavelengths.
  cbn [fst snd angles0_ angles1_ angles2_ angles3_ spectra_ wavelengths_
       colorModel_].
  rewrite !length_Eigen_resize. repeat split.
Qed.

Lemma resizeAngles_resizeWavelengths_witness :
  let resized :=
    SampleSetAllocation.resizeAngles (fun _ => IEEE.zero) (fun _ => IEEE.zero)
      (fun _ => IEEE.zero) (fun _ => IEEE.zero) 1 1 2 2
      (Brdf.getSampleSet brdf_of_one_inTheta, []) in
  spectra_ (fst (snd (SampleSetAllocation.resizeWavelengths
                        (fun _ => IEEE.zero) 1 (snd resized))))
  = replicate 4 [IEEE.zero].
Proof.
  intros resized.
  apply (resizeAngles_resizeWavelengths
           (fun _ => IEEE.zero) (fun _ => IEEE.zero) (fun _ => IEEE.zero)
           (fun _ => IEEE.zero) (fun _ => IEEE.zero) 1 1 2 2 1
           (Brdf.getSampleSet brdf_of_one_inTheta) []);
    vm_compute; discriminate.
Defined.

(** ** array_util: copying and appending *)

(** The loop of [copy] from the index [i] on. *)
Lemma copy_from_spec cast : forall srcArray i destArray,
  (i <= length destArray)%nat ->
  array_util_elements.copy_from cast i srcArray destArray
  = if (i + length srcArray <=? length destArray)%nat then
      Some (take i destArray ++ (cast <$> srcArray)
            ++ drop (i + length srcArray) destArray)
    else None.
Proof.
  induction srcArray as [|x rest IH]; intros i destArray Hi;
    cbn [array_util_elements.copy_from length fmap list_fmap].
  - rewrite Nat.add_0_r. rewrite (proj2 (Nat.leb_le _ _) Hi).
    cbn [app]. now rewrite take_drop.
  - destruct (i <? length destArray)%nat eqn:Elt.
    + apply Nat.ltb_lt in Elt.
      rewrite IH by (rewrite length_insert; lia).
      rewrite length_insert.
      replace (S i + length rest)%nat with (i + S (length rest))%nat by lia.
      destruct (i + S (length rest) <=? length destArray)%nat; [|reflexivity].
      f_equal.
      rewrite (take_S_r _ i (cast x))
        by (apply list_lookup_insert_eq; lia).
      rewrite take_insert_ge by lia.
      rewrite drop_insert_lt by lia.
      now rewrite <- app_assoc.
    + apply Nat.ltb_ge in Elt.
      rewrite (proj2 (Nat.leb_gt _ _)) by lia. reflexivity.
Qed.

(** X4.  [copy] does not resize the destination.  It stays inside the
    destination exactly when the source is not longer; it then overwrites the
    first elements of the destination with the elements of the source,
    converted to the scalar type of the destination and in their order, and
    leaves the other elements of the destination as they were. *)
Theorem copy_spec
    (cast : spec_float -> spec_float) (srcArray destArray : Array) :
  array_util_elements.copy cast srcArray destArray
  = if (length srcArray <=? length destArray)%nat then
      Some ((cast <$> srcArray) ++ drop (length srcArray) destArray)
    else None.
Proof.
  unfold array_util_elements.copy.
  rewrite copy_from_spec by lia. reflexivity.
Qed.

(** X5.  [appendElement] gives the array with [value] added at its end: the
    elements stored before are kept in their order, although the resized
    storage is allocated anew; nothing of what the new storage held is left
    in the result, and the copy never leaves the resized array. *)
Theorem appendElement_spec
    (fresh : nat -> spec_float) (a : Array) (value : spec_float) :
  array_util_elements.appendElement fresh a value = Some (a ++ [value]).
Proof.
  unfold array_util_elements.appendElement.
  rewrite copy_from_spec by lia.
  rewrite length_Eigen_resize.
  rewrite length_app. cbn [length].
  rewrite (proj2 (Nat.leb_le _ _)) by lia.
  cbn [take app Nat.add].
  rewrite drop_ge
    by (rewrite length_Eigen_resize; lia).
  rewrite app_nil_r. f_equal. now rewrite list_fmap_id.
Qed.

(** ** Btdf *)

Section Btdf_facts.
Import IEEE.

Lemma abs_opp x : abs (opp x) = abs x.
Proof. now destruct x. Qed.

Lemma abs_signed_false x : signed false x -> abs x = x.
Proof. now intros []. Qed.

Lemma abs_idem x : abs (abs x) = abs x.
Proof. now destruct x. Qed.

(** X6.  The transmittance lookup does not see the side of the surface a
    direction is on: mirroring the incoming direction, the outgoing one or
    both at the surface gives the same spectrum, whatever the reflectance
    data do. *)
Theorem Btdf_getSpectrum_mirrored
    (Brdf_getSpectrum : Brdf -> Vec3 -> Vec3 -> Spectrum)
    (btdf : Btdf) (inDir outDir : Vec3) :
  Btdf.getSpectrum Brdf_getSpectrum btdf (mirrored inDir) outDir
  = Btdf.getSpectrum Brdf_getSpectrum btdf inDir outDir
  /\ Btdf.getSpectrum Brdf_getSpectrum btdf inDir (mirrored outDir)
     = Btdf.getSpectrum Brdf_getSpectrum btdf inDir outDir
  /\ Btdf.getSpectrum Brdf_getSpectrum btdf (mirrored inDir) (mirrored outDir)
     = Btdf.getSpectrum Brdf_getSpectrum btdf inDir outDir.
Proof.
  unfold Btdf.getSpectrum, mirrored. cbn [vx vy vz].
  rewrite !abs_opp. repeat split.
Qed.

(** X7.  The directions [Btdf::getInOutDirection] gives for a sample are
    those of the reflectance data with the outgoing one mirrored at the
    surface, the incoming one as it is.  When the directions of the
    reflectance data have a z component that is not negative, the spectrum
    [Btdf::getSpectrum] returns at the directions of the sample is the one
    the reflectance data hold at their own directions. *)
Theorem Btdf_sample_round_trip
    (Brdf_getSpectrum : Brdf -> Vec3 -> Vec3 -> Spectrum)
    (Brdf_getInOutDirection : Brdf -> nat -> nat -> nat -> nat -> Vec3 * Vec3)
    (btdf : Btdf) (index0 index1 index2 index3 : nat) :
  let dirs := Brdf_getInOutDirection (brdf_ btdf) index0 index1 index2 index3 in
  let dirs' :=
    Btdf.getInOutDirection Brdf_getInOutDirection btdf
      index0 index1 index2 index3 in
  signed false (vz (fst dirs)) -> signed false (vz (snd dirs)) ->
  fst dirs' = fst dirs
  /\ snd dirs' = mirrored (snd dirs)
  /\ Btdf.getSpectrum Brdf_getSpectrum btdf (fst dirs') (snd dirs')
     = Brdf_getSpectrum (brdf_ btdf) (fst dirs) (snd dirs).
Proof.
  intros dirs dirs' Hin Hout. unfold dirs'.
  unfold Btdf.getInOutDirection. fold dirs.
  destruct dirs as [[ix iy iz] [ox oy oz]]. cbn [fst snd vx vy vz] in *.
  split; [reflexivity|]. split; [reflexivity|].
  unfold Btdf.getSpectrum. cbn [vx vy vz].
  now rewrite abs_opp, !abs_signed_false.
Qed.

Lemma Btdf_sample_round_trip_witness :
  let btdf := mkBtdf brdf_of_one_inTheta in
  let dirs' := Btdf.getInOutDirection upwardDirections btdf 0 0 1 1 in
  snd dirs' = mkVec3 zero zero (opp Utility.one_f)
  /\ Btdf.getSpectrum outgoingComponents btdf (fst dirs') (snd dirs')
     = [zero; zero; Utility.one_f].
Proof.
  intros btdf dirs'.
  destruct (Btdf_sample_round_trip outgoingComponents upwardDirections
              btdf 0 0 1 1) as (_ & Hout & Hsp);
    [vm_compute; constructor | vm_compute; constructor |].
  split; [exact Hout | exact Hsp].
Defined.
End Btdf_facts.

(** ** SampleSet: what validate logs *)

Section validate_log_facts.
Import IEEE SampleSet SampleSetMethods.

Lemma noLevel_app lvl es1 es2 :
  noLevel lvl (es1 ++ es2) = noLevel lvl es1 && noLevel lvl es2.
Proof. unfold noLevel. apply forallb_app. Qed.

Lemma noLevel_false lvl es :
  noLevel lvl es = false <-> exists e, e ∈ es /\ Log.level e = lvl.
Proof.
  induction es as [|e es IH]; cbn.
  - split; [discriminate|]. intros (e & He & _). now apply elem_of_nil in He.
  - destruct (decide (Log.level e = lvl)) as [El|El].
    + rewrite bool_decide_eq_true_2 by exact El. cbn.
      split; [|reflexivity]. intros _. exists e. split; [left|exact El].
    + rewrite bool_decide_eq_false_2 by exact El. cbn. fold (noLevel lvl es).
      rewrite IH. split.
      * intros (e' & He' & Hl). exists e'. split; [now right|exact Hl].
      * intros (e' & He' & Hl). apply elem_of_cons in He' as [->|He'];
          [contradiction|]. now exists e'.
Qed.

Lemma warns_bind ss (m : Method bool) (k : bool -> Method bool) v :
  warns_at ss m v -> (forall v', warns_at ss (k v') v') ->
  warns_at ss (bind m k) v.
Proof.
  intros Hm Hk log. destruct (Hm log) as (es1 & E1 & N1).
  destruct (Hk (v && noLevel Log.Warn es1) (log ++ es1)) as (es2 & E2 & N2).
  exists (es1 ++ es2). unfold bind. rewrite E1, E2.
  rewrite !noLevel_app, app_assoc, andb_assoc, N1, N2. now split.
Qed.

Lemma warns_ret ss v : warns_at ss (ret v) v.
Proof.
  intros log. exists []. unfold ret. now rewrite andb_true_r, app_nil_r.
Qed.

Lemma warns_foldM {I} ss (body : bool -> I -> Method bool) l :
  (forall a i, warns_at ss (body a i) a) ->
  forall a, warns_at ss (foldM body a l) a.
Proof.
  intros Hbody. induction l as [|i l IH]; intros a; simpl.
  - apply warns_ret.
  - apply warns_bind; [apply Hbody | apply IH].
Qed.

Lemma warns_self ss (k : SampleSet -> Method bool) v :
  warns_at ss (k ss) v -> warns_at ss (bind self k) v.
Proof. intros H log. exact (H log). Qed.

(** One warning, and false. *)
Lemma warns_lbWarn ss msg nums v :
  warns_at ss (do_ lbWarn msg nums; ret false) v.
Proof.
  intros log. exists [Log.Build_Entry Log.Warn msg nums].
  split; [|reflexivity]. cbn. now destruct v.
Qed.

(** One message, and the accumulator. *)
Lemma warns_lbInfo ss msg v : warns_at ss (do_ lbInfo msg; ret v) v.
Proof.
  intros log. exists [Log.Build_Entry Log.Info msg []].
  split; [|reflexivity]. cbn. now destruct v.
Qed.

Lemma validate_cell_warns ss i0 i1 i2 i3 v :
  warns_at ss (validate_cell i0 i1 i2 i3 v) v.
Proof.
  unfold validate_cell. apply warns_self. cbv zeta.
  destruct (Eigen.allFinite (getSpectrum ss i0 i1 i2 i3)); cbn [negb].
  - apply warns_ret.
  - destruct (Eigen.hasNaN _); apply warns_lbWarn.
Qed.

Lemma validate_array_warns ss a okMsg badMsg v :
  warns_at ss (validate_array a okMsg badMsg v) v.
Proof.
  unfold validate_array.
  destruct (Eigen.allFinite a); [apply warns_lbInfo | apply warns_lbWarn].
Qed.

Lemma validate_warns ss : warns_at ss validate true.
Proof.
  unfold validate. apply warns_self. cbv zeta.
  apply warns_bind.
  { apply warns_foldM. intros v0 i0.
    apply warns_foldM. intros v1 i1.
    apply warns_foldM. intros v2 i2.
    apply warns_foldM. intros v3 i3.
    apply validate_cell_warns. }
  intros spectraValid. apply warns_bind.
  { destruct spectraValid; [apply warns_lbInfo | apply warns_lbWarn]. }
  intros v. do 4 (apply warns_bind; [apply validate_array_warns|intros ?]).
  apply warns_bind; [apply validate_array_warns|].
  intros valid. apply warns_ret.
Qed.
End validate_log_facts.

(** X8.  [validate] only adds entries at the end of the log, and it returns
    false exactly when one of the entries it adds is a warning: every failed
    check is reported, and nothing is reported as a warning that does not
    make the result false.  It never logs an error. *)
Theorem validate_result_is_logged (ss : SampleSet) (log : Log.t) :
  let result := SampleSetMethods.validate (ss, log) in
  exists entries,
    snd (snd result) = log ++ entries
    /\ (fst result = false <->
        exists e, e ∈ entries /\ Log.level e = Log.Warn)
    /\ (forall e, e ∈ entries -> Log.level e <> Log.Error).
Proof.
  intros result. unfold result.
  destruct (validate_warns ss log) as (es & E & N). rewrite E. cbn [fst snd].
  exists es. split; [reflexivity|]. split.
  - apply noLevel_false.
  - intros e He Hl.
    assert (noLevel Log.Error es = false)
      by (apply noLevel_false; now exists e).
    congruence.
Qed.

(** ** SampleSet: the derived flags *)

Section flags_facts.
Import IEEE SampleSet SampleSetMethods.

Lemma updateOneSide_run ss (log : Log.t) :
  fst (snd (updateOneSide (ss, log)))
  = set_oneSide (oneSide_of (angles3_ ss)) ss.
Proof.
  unfold updateOneSide, oneSide_of, bind, self, gets, update, lbInfo, modify.
  cbn [fst snd].
  destruct (updateOneSide_flags (angles3_ ss)) as [c0 c1]. reflexivity.
Qed.

Lemma oneSide_of_existsb angles3 :
  oneSide_of angles3
  = negb (existsb inLowerHalf angles3) || negb (existsb inUpperHalf angles3).
Proof.
  unfold oneSide_of, updateOneSide_flags.
  now rewrite updateOneSide_flags_existsb.
Qed.

(** The two ranges of azimuths do not meet. *)
Lemma halves_disjoint a : inLowerHalf a && inUpperHalf a = false.
Proof.
  unfold inLowerHalf, inUpperHalf.
  destruct (ltb lowerHalf_min a); [|reflexivity].
  destruct (ltb a lowerHalf_max) eqn:E1; [|reflexivity].
  destruct (ltb upperHalf_min a) eqn:E2; [|reflexivity].
  exfalso.
  pose proof (ltb_trans _ _ _ E2 E1) as H.
  apply ltb_asym in H. vm_compute in H. discriminate.
Qed.

Lemma existsb_subset (p : spec_float -> bool) l1 l2 :
  (forall a, a ∈ l1 -> a ∈ l2) -> existsb p l1 = true -> existsb p l2 = true.
Proof.
  intros Hsub. rewrite !existsb_elem_of.
  intros (a & Ha & Hp). exists a. auto.
Qed.
End flags_facts.

(** X9.  An azimuth axis with fewer than two samples is always one-sided:
    no value lies in both ranges of azimuths, so one sample cannot show both
    halves. *)
Theorem updateOneSide_single_azimuth (ss : SampleSet) (log : Log.t) :
  (SampleSet.getNumAngles3 ss <= 1)%nat ->
  oneSide_ (fst (snd (SampleSetMethods.updateOneSide (ss, log)))) = true.
Proof.
  intros Hlen. rewrite updateOneSide_run. cbn [oneSide_ SampleSetMethods.set_oneSide].
  rewrite oneSide_of_existsb. unfold SampleSet.getNumAngles3 in Hlen.
  destruct (angles3_ ss) as [|a [|b l]]; [reflexivity| |simpl in Hlen; lia].
  cbn [existsb]. rewrite !orb_false_r.
  pose proof (halves_disjoint a) as H.
  destruct (inLowerHalf a), (inUpperHalf a); try reflexivity. discriminate.
Qed.

Lemma updateOneSide_single_azimuth_witness :
  oneSide_ (fst (snd (SampleSetMethods.updateOneSide
                        (sampleSet_of_angles3 [toRadian_f 190], [])))) = true.
Proof.
  apply updateOneSide_single_azimuth. vm_compute. lia.
Defined.

(** X10.  The flag depends on the values of the azimuth axis as a set:
    neither their order nor repetitions matter, nor the flag stored before.
    More values can only clear it: when every azimuth of one sample set is an
    azimuth of another and the other is found one-sided, so is the first. *)
Theorem updateOneSide_monotone (ss1 ss2 : SampleSet) (log1 log2 : Log.t) :
  (forall a, a ∈ angles3_ ss1 -> a ∈ angles3_ ss2) ->
  oneSide_ (fst (snd (SampleSetMethods.updateOneSide (ss2, log2)))) = true ->
  oneSide_ (fst (snd (SampleSetMethods.updateOneSide (ss1, log1)))) = true.
Proof.
  intros Hsub. rewrite !updateOneSide_run.
  cbn [oneSide_ SampleSetMethods.set_oneSide]. rewrite !oneSide_of_existsb.
  pose proof (existsb_subset inLowerHalf _ _ Hsub) as Hl.
  pose proof (existsb_subset inUpperHalf _ _ Hsub) as Hu.
  destruct (existsb inLowerHalf (angles3_ ss1)),
           (existsb inUpperHalf (angles3_ ss1)); try reflexivity.
  rewrite Hl, Hu by reflexivity. discriminate.
Qed.

Lemma updateOneSide_monotone_witness :
  oneSide_ (fst (snd (SampleSetMethods.updateOneSide
                        (sampleSet_of_angles3
                           [toRadian_f 90; toRadian_f 10; toRadian_f 90], []))))
  = true.
Proof.
  apply (updateOneSide_monotone _
           (sampleSet_of_angles3 [toRadian_f 10; toRadian_f 90]) _ []).
  - intros a Ha. cbn [angles3_ sampleSet_of_angles3] in *.
    rewrite !elem_of_cons in *. tauto.
  - vm_compute. reflexivity.
Defined.

Lemma updateAngleAttributes_run isEqual ss (log : Log.t) :
  let equalInterval := array_util.isEqualInterval IEEE.binary32 isEqual in
  fst (snd (SampleSetMethods.updateAngleAttributes isEqual (ss, log)))
  = SampleSetMethods.set_oneSide (oneSide_of (angles3_ ss))
      (SampleSetMethods.set_equalIntervalAngles
         (equalInterval (angles0_ ss)) (equalInterval (angles1_ ss))
         (equalInterval (angles2_ ss)) (equalInterval (angles3_ ss)) ss).
Proof.
  intros equalInterval.
  unfold SampleSetMethods.updateAngleAttributes. unfold bind at 1.
  destruct (SampleSetMethods.updateEqualIntervalAngles isEqual (ss, log))
    as [[] [ss1 log1]] eqn:E.
  rewrite updateOneSide_run.
  unfold SampleSetMethods.updateEqualIntervalAngles, bind, SampleSet.self,
    gets, SampleSet.update, SampleSet.lbInfo, modify in E.
  cbn [fst snd] in E. injection E as <- _. reflexivity.
Qed.

(** X11.  [updateAngleAttributes] computes the five derived flags from the
    arrays of angles alone: the flags stored before do not matter, running it
    again changes nothing, and an axis of one or two samples is never marked
    as equally spaced, whatever [isEqual] accepts.  The arrays, the spectra
    and the colour model are kept. *)
Theorem updateAngleAttributes_spec
    (isEqual : spec_float -> spec_float -> bool)
    (ss : SampleSet) (log : Log.t) :
  let run s l := fst (snd (SampleSetMethods.updateAngleAttributes isEqual (s, l))) in
  let ss' := run ss log in
  (forall e0 e1 e2 e3 b log',
     run (SampleSetMethods.set_oneSide b
            (SampleSetMethods.set_equalIntervalAngles e0 e1 e2 e3 ss)) log'
     = ss')
  /\ (forall log', run ss' log' = ss')
  /\ ((SampleSet.getNumAngles0 ss <= 2)%nat -> equalIntervalAngles0_ ss' = false)
  /\ ((SampleSet.getNumAngles1 ss <= 2)%nat -> equalIntervalAngles1_ ss' = false)
  /\ ((SampleSet.getNumAngles2 ss <= 2)%nat -> equalIntervalAngles2_ ss' = false)
  /\ ((SampleSet.getNumAngles3 ss <= 2)%nat -> equalIntervalAngles3_ ss' = false)
  /\ (angles0_ ss', angles1_ ss', angles2_ ss', angles3_ ss')
     = (angles0_ ss, angles1_ ss, angles2_ ss, angles3_ ss)
  /\ spectra_ ss' = spectra_ ss /\ wavelengths_ ss' = wavelengths_ ss
  /\ colorModel_ ss' = colorModel_ ss.
Proof.
  intros run ss'. unfold ss', run. rewrite updateAngleAttributes_run.
  assert (Hshort : forall a : Array, (length a <= 2)%nat ->
            array_util.isEqualInterval IEEE.binary32 isEqual a = false).
  { intros a Ha. unfold array_util.isEqualInterval.
    now rewrite (proj2 (Nat.leb_le _ _) Ha). }
  split; [|split].
  - intros. now rewrite updateAngleAttributes_run.
  - intros. now rewrite updateAngleAttributes_run.
  - cbn. repeat split; auto.
Qed.

(** ** DdrWriter: failures and the log *)

Section writer_log_facts.
Import IEEE Stream.

Variable isEqual : spec_float -> spec_float -> bool.
Variable toDegree : spec_float -> spec_float.
Variable getVersion : string.
Variable xyzToSrgb : Spectrum -> Spectrum.

(** What [output] returns, streams and logs. *)
Lemma output_run brdf comments :
  exists t,
    (isValid (Brdf.getSampleSet brdf) = false -> t = [])
    /\ forall stream (log : Log.t), exists entries,
         DdrWriter.output toDegree getVersion xyzToSrgb brdf comments
           (stream, log)
         = (isValid (Brdf.getSampleSet brdf), (stream ++ t, log ++ entries))
         /\ noLevel Log.Error entries = isValid (Brdf.getSampleSet brdf).
Proof.
  destruct (output_lines_returns toDegree getVersion xyzToSrgb brdf comments)
    as [t Ht].
  exists (if isValid (Brdf.getSampleSet brdf) then t else []).
  split; [intros ->; reflexivity|].
  intros stream log.
  unfold DdrWriter.output. unfold bind at 1. unfold DdrWriter.call.
  cbn [fst snd]. unfold DdrWriter.validate.
  pose proof (validate_value (Brdf.getSampleSet brdf) log) as Hv.
  destruct (validate_warns (Brdf.getSampleSet brdf) log) as (es & E & N).
  rewrite E in Hv |- *. cbn [fst] in Hv. rewrite Hv.
  destruct (isValid (Brdf.getSampleSet brdf)); cbn [negb].
  - exists es. rewrite Ht. cbn [fst snd]. now split.
  - exists (es ++ [Log.Build_Entry Log.Error
                     "[DdrReader::write] BRDF data is invalid." []]).
    unfold bind, DdrWriter.lbError, modify, ret. cbn [fst snd].
    rewrite app_nil_r, app_assoc. split; [reflexivity|].
    rewrite noLevel_app, N. reflexivity.
Qed.
End writer_log_facts.

Lemma write_SpecularCoordinatesBrdf_log
    toDegree getVersion xyzToSrgb fileName brdf comments (w : World) :
  let result :=
    DdrWriter.write_SpecularCoordinatesBrdf toDegree getVersion xyzToSrgb
      fileName brdf comments w in
  exists entries,
    logger (snd result) = logger w ++ entries
    /\ fst result = noLevel Log.Error entries.
Proof.
  intros result. unfold result, DdrWriter.write_SpecularCoordinatesBrdf.
  destruct (canOpen (files w) fileName); cbn [negb].
  - destruct (output_run toDegree getVersion xyzToSrgb brdf comments)
      as (t & _ & Hrun).
    destruct (Hrun [] (logger w)) as (es & E & N).
    rewrite E. cbn [fst snd logger]. exists es. now split.
  - cbn [fst snd logger]. eexists. split; reflexivity.
Qed.

(** X12.  [output] returns false exactly when it logs an error, and then it
    streams nothing; what was in the stream and in the log before is kept,
    and neither the returned value nor the streamed text depends on them. *)
Theorem output_failure_is_logged
    (toDegree : spec_float -> spec_float) (getVersion : string)
    (xyzToSrgb : Spectrum -> Spectrum) (brdf : Brdf) (comments : string) :
  exists (text : Stream.ostream) (returned : bool),
    (returned = false -> text = [])
    /\ forall (stream : Stream.ostream) (log : Log.t),
         let result :=
           DdrWriter.output toDegree getVersion xyzToSrgb brdf comments
             (stream, log) in
         fst result = returned
         /\ fst (snd result) = stream ++ text
         /\ exists entries,
              snd (snd result) = log ++ entries
              /\ (returned = false <->
                  exists e, e ∈ entries /\ Log.level e = Log.Error).
Proof.
  destruct (output_run toDegree getVersion xyzToSrgb brdf comments)
    as (t & Hnil & Hrun).
  exists t, (isValid (Brdf.getSampleSet brdf)). split; [exact Hnil|].
  intros stream log result. unfold result.
  destruct (Hrun stream log) as (es & E & N). rewrite E. cbn [fst snd].
  split; [reflexivity|]. split; [reflexivity|].
  exists es. split; [reflexivity|].
  rewrite <- N. apply noLevel_false.
Qed.

(** X13.  [write] for a grid in specular coordinates returns true exactly
    when the file can be opened and the grid passes [validate].  When the
    file cannot be opened, no file changes.  When it can, the file holds what
    [output] streams and nothing of what it held before, so it is empty when
    the grid is invalid; the other files are as before.  The log is only
    added to, and an error is added exactly when the result is false. *)
Theorem write_SpecularCoordinatesBrdf_spec
    (toDegree : spec_float -> spec_float) (getVersion : string)
    (xyzToSrgb : Spectrum -> Spectrum)
    (fileName : string) (brdf : Brdf) (comments : string) (w : World) :
  let result :=
    DdrWriter.write_SpecularCoordinatesBrdf toDegree getVersion xyzToSrgb
      fileName brdf comments w in
  let opened := canOpen (files w) fileName in
  let valid := fst (SampleSetMethods.validate (Brdf.getSampleSet brdf, [])) in
  fst result = opened && valid
  /\ (opened = false -> files (snd result) = files w)
  /\ (opened = true ->
      contents (files (snd result)) fileName
      = Some (fst (snd (DdrWriter.output toDegree getVersion xyzToSrgb
                          brdf comments ([], []))))
      /\ (valid = false -> contents (files (snd result)) fileName = Some [])
      /\ (forall f, f <> fileName ->
            contents (files (snd result)) f = contents (files w) f)
      /\ canOpen (files (snd result)) = canOpen (files w))
  /\ exists entries,
       logger (snd result) = logger w ++ entries
       /\ (fst result = false <->
           exists e, e ∈ entries /\ Log.level e = Log.Error).
Proof.
  intros result opened valid. unfold result, valid.
  rewrite validate_value.
  unfold DdrWriter.write_SpecularCoordinatesBrdf. fold opened.
  destruct opened; cbn [negb].
  - destruct (output_run toDegree getVersion xyzToSrgb brdf comments)
      as (t & Hnil & Hrun).
    destruct (Hrun [] (logger w)) as (es & E & N).
    destruct (Hrun [] []) as (es0 & E0 & _).
    rewrite E, E0. cbn [fst snd files contents canOpen logger app].
    split; [reflexivity|]. split; [discriminate|]. split.
    + intros _. rewrite String.eqb_refl.
      split; [reflexivity|]. split; [intros Hv; now rewrite (Hnil Hv)|].
      split; [|reflexivity].
      intros f Hf. destruct (String.eqb f fileName) eqn:Ef; [|reflexivity].
      apply String.eqb_eq in Ef. contradiction.
    + exists es. split; [reflexivity|]. rewrite <- N. apply noLevel_false.
  - cbn [fst snd files logger andb].
    split; [reflexivity|]. split; [reflexivity|]. split; [discriminate|].
    eexists. split; [reflexivity|].
    split; [|reflexivity]. intros _. eexists. split; [left|reflexivity].
Qed.

(** X14.  [write] for any grid and a data type only adds to the log, and it
    adds an error exactly when it returns false: the rejected grid, the file
    that cannot be opened and the arranged grid that [output] rejects are
    each reported, and a successful run logs no error, whatever the passes
    of the pipeline do. *)
Theorem write_failure_is_logged
    (isEqual : spec_float -> spec_float -> bool)
    (toDegree : spec_float -> spec_float) (getVersion : string)
    (xyzToSrgb : Spectrum -> Spectrum)
    (fromSphericalCoordinatesBrdf : Brdf -> nat -> nat -> Brdf)
    (initializeSpectra : Brdf -> Array -> Array -> Array -> Array -> list Spectrum)
    (equalizeOverlappingSamples expandAngles : Brdf -> Brdf)
    (copySpectraFromPhiOf0To360 : SampleSet -> SampleSet)
    (fixEnergyConservation : Brdf -> Brdf)
    (fillSpectraAtInThetaOf90 : Brdf -> spec_float -> Brdf)
    (pow : spec_float -> spec_float -> spec_float)
    (fileName : string) (brdf : Brdf) (dataType : DataType) (comments : string)
    (w : World) :
  let result :=
    DdrWriter.write isEqual toDegree getVersion xyzToSrgb
      fromSphericalCoordinatesBrdf initializeSpectra equalizeOverlappingSamples
      expandAngles copySpectraFromPhiOf0To360 fixEnergyConservation
      fillSpectraAtInThetaOf90 pow fileName brdf dataType comments w in
  exists entries,
    logger (snd result) = logger w ++ entries
    /\ (fst result = false <->
        exists e, e ∈ entries /\ Log.level e = Log.Error).
Proof.
  intros result. unfold result, DdrWriter.write, DdrWriter.validate.
  pose proof (validate_value (Brdf.getSampleSet brdf) (logger w)) as Hv.
  destruct (validate_warns (Brdf.getSampleSet brdf) (logger w)) as (es & E & N).
  rewrite E in Hv |- *. cbn [fst] in Hv. rewrite Hv.
  destruct (isValid (Brdf.getSampleSet brdf)); cbn [negb].
  - set (arranged := DdrWriter.arrange _ _ _ _ _ _ _ _ _).
    destruct (write_SpecularCoordinatesBrdf_log toDegree getVersion xyzToSrgb
                fileName arranged comments (mkWorld (files w) (logger w ++ es)))
      as (es' & El & Hf).
    cbn [logger] in El.
    exists (es ++ es'). rewrite El, app_assoc. split; [reflexivity|].
    rewrite Hf. rewrite <- !noLevel_false, noLevel_app, N. reflexivity.
  - cbn [fst snd logger]. eexists. rewrite <- app_assoc.
    split; [reflexivity|].
    split; [|reflexivity]. intros _. eexists.
    split; [apply elem_of_app; right; left|reflexivity].
Qed.

(** ** DdrWriter: the conversion to specular coordinates *)

(** X15.  [convert] returns a grid in specular coordinates as it is.  For a
    grid in spherical coordinates it asks for at least 181 specular polar and
    73 specular azimuthal angles, and never fewer than the grid has.  Any
    other grid is resampled at 19 incoming polar angles from 0 to the largest
    one, 1 incoming azimuth for an isotropic grid and 37 otherwise, 91
    specular polar angles from 0 to the largest one, whatever [std::pow]
    returns, and 73 specular azimuths from 0 to the largest one; the colour
    model, the wavelengths and the source type are kept, and the first step
    of [arrange] leaves that grid as it is. *)
Theorem convert_spec
    (isEqual : spec_float -> spec_float -> bool)
    (fromSphericalCoordinatesBrdf : Brdf -> nat -> nat -> Brdf)
    (initializeSpectra : Brdf -> Array -> Array -> Array -> Array -> list Spectrum)
    (pow : spec_float -> spec_float -> spec_float)
    (brdf : Brdf) :
  let converted :=
    DdrWriter.convert isEqual fromSphericalCoordinatesBrdf initializeSpectra
      pow brdf in
  let ss := Brdf.getSampleSet brdf in
  (class_ brdf = SpecularCoordinatesBrdf -> converted = brdf)
  /\ (class_ brdf = SphericalCoordinatesBrdf ->
      exists numSpecTheta numSpecPhi,
        converted = fromSphericalCoordinatesBrdf brdf numSpecTheta numSpecPhi
        /\ (181 <= numSpecTheta /\ SampleSet.getNumAngles2 ss <= numSpecTheta)%nat
        /\ (73 <= numSpecPhi /\ SampleSet.getNumAngles3 ss <= numSpecPhi)%nat)
  /\ (class_ brdf = OtherBrdf ->
      class_ converted = SpecularCoordinatesBrdf
      /\ Brdf.getNumInTheta converted = 19%nat
      /\ Brdf.getNumInPhi converted
         = (if SampleSet.isIsotropic ss then 1 else 37)%nat
      /\ Brdf.getNumSpecTheta converted = 91%nat
      /\ Brdf.getNumSpecPhi converted = 73%nat
      /\ (Brdf.getInTheta converted 0 = IEEE.zero
          /\ Brdf.getInTheta converted 18 = SpecularCoordinateSystem.MAX_ANGLE0)
      /\ (Brdf.getSpecTheta converted 0 = IEEE.zero
          /\ Brdf.getSpecTheta converted 90 = SpecularCoordinateSystem.MAX_ANGLE2)
      /\ (Brdf.getSpecPhi converted 0 = IEEE.zero
          /\ Brdf.getSpecPhi converted 72 = SpecularCoordinateSystem.MAX_ANGLE3)
      /\ colorModel_ (Brdf.getSampleSet converted) = colorModel_ ss
      /\ wavelengths_ (Brdf.getSampleSet converted) = wavelengths_ ss
      /\ Brdf.getSourceType converted = Brdf.getSourceType brdf
      /\ DdrWriter.arrange_expand isEqual initializeSpectra converted = converted).
Proof.
  intros converted ss. unfold converted, DdrWriter.convert.
  split; [|split]; intros Hc; rewrite Hc.
  - reflexivity.
  - eexists _, _. split; [reflexivity|]. fold ss. lia.
  - cbv zeta. fold ss.
    set (inPhiAngles := Eigen.LinSpaced _ _ _ SpecularCoordinateSystem.MAX_ANGLE1).
    set (specThetaAngles := array_util.createExponential _ _ _ _ _).
    destruct (createExponential_interior DdrWriter.f32 pow 91
                SpecularCoordinateSystem.MAX_ANGLE2 Utility.two_f)
      as [Hlen Hval].
    fold specThetaAngles in Hlen, Hval.
    unfold DdrWriter.fromBrdfAndAngles. cbv zeta.
    set (created := mkSampleSet _ _ _ _ _ _ _ _ _ _ _ _).
    destruct (updateAngleAttributes_keeps isEqual created [])
      as (H0 & H1 & H2 & H3 & _ & Hw & Hcm).
    cbv zeta in H0, H1, H2, H3, Hw, Hcm.
    set (updated := fst (snd (SampleSetMethods.updateAngleAttributes
                                isEqual (created, [])))) in *.
    assert (Hn0 : Brdf.getNumInTheta
                    (mkBrdf SpecularCoordinatesBrdf updated (sourceType_ brdf) [])
                  = 19%nat).
    { unfold Brdf.getNumInTheta, SampleSet.getNumAngles0. cbn [samples_].
      rewrite H0. reflexivity. }
    split; [reflexivity|]. split; [exact Hn0|].
    unfold Brdf.getNumInPhi, Brdf.getNumSpecTheta, Brdf.getNumSpecPhi,
      Brdf.getInTheta, Brdf.getSpecTheta, Brdf.getSpecPhi,
      SampleSet.getNumAngles1, SampleSet.getNumAngles2, SampleSet.getNumAngles3,
      Brdf.getSampleSet, Brdf.getSourceType.
    cbn [samples_ sourceType_].
    rewrite H0, H1, H2, H3, Hw, Hcm. unfold created.
    cbn [angles0_ angles1_ angles2_ angles3_ wavelengths_ colorModel_].
    split.
    { unfold inPhiAngles. rewrite length_LinSpaced.
      unfold SampleSet.isIsotropic. reflexivity. }
    split; [exact Hlen|]. split; [apply length_LinSpaced|].
    split; [split; vm_compute; reflexivity|].
    split.
    { rewrite !Hval. rewrite !bool_decide_eq_false_2 by lia.
      split; vm_compute; reflexivity. }
    split; [split; vm_compute; reflexivity|].
    do 3 (split; [reflexivity|]).
    unfold DdrWriter.arrange_expand. now rewrite Hn0.
Qed.

(** ** setupTabularBrdf: what the loops leave alone *)

Section tabulate_frame_facts.
Import IEEE reflectance_model_utility.

Variable getBrdfValue : Vec3 -> Vec3 -> Vec3.
Variable getInOutDirection : Brdf -> nat -> nat -> nat -> nat -> Vec3 * Vec3.
Variable isDownwardDir : Vec3 -> bool.
Variable normalize : Vec3 -> Vec3.

(** The number of channels of a spectrum that [tabulate] returns. *)
Lemma tabulate_channels brdf dataType maxValue cm fillable i0 i1 i2 i3 sp :
  tabulate getBrdfValue getInOutDirection isDownwardDir normalize
    brdf dataType maxValue cm fillable i0 i1 i2 i3 = Some sp ->
  length sp = if decide (cm = RGB_MODEL) then 3%nat else 1%nat.
Proof.
  intros H. apply tabulate_Some in H as (inDir & outDir & H1 & H2 & _).
  cbv zeta in H1, H2.
  destruct (decide (cm = RGB_MODEL)) as [Hcm|Hcm].
  - now rewrite (H1 Hcm).
  - now rewrite (H2 Hcm).
Qed.

(** One store changes the vector of spectra only, and one cell of it at
    most. *)
Lemma tabulate_store_frame dataType maxValue cm fillable brdf c :
  let brdf' :=
    tabulate_store getBrdfValue getInOutDirection isDownwardDir normalize
      dataType maxValue cm fillable brdf c in
  frame_of brdf' = frame_of brdf
  /\ length (spectra_ (samples_ brdf')) = length (spectra_ (samples_ brdf))
  /\ forall j,
       spectra_ (samples_ brdf') !! j = spectra_ (samples_ brdf) !! j
       \/ exists sp, spectra_ (samples_ brdf') !! j = Some sp
            /\ length sp = if decide (cm = RGB_MODEL) then 3%nat else 1%nat.
Proof.
  destruct c as [[[i0 i1] i2] i3]. unfold tabulate_store.
  destruct (tabulate _ _ _ _ brdf dataType maxValue cm fillable i0 i1 i2 i3)
    as [sp|] eqn:E; cbv zeta.
  2: { split; [reflexivity|]. split; [reflexivity|]. intros j. now left. }
  apply tabulate_channels in E.
  unfold Brdf.setSampleSet, SampleSet.setSpectrum, Brdf.getSampleSet.
  cbn [samples_ spectra_].
  split; [reflexivity|]. split; [apply length_insert|].
  intros j. set (k := SampleSet.index (samples_ brdf) i0 i1 i2 i3).
  destruct (decide (k = j)) as [<-|Hne].
  - destruct (decide (k < length (spectra_ (samples_ brdf)))%nat) as [Hlt|Hge].
    + right. exists sp. split; [now apply list_lookup_insert_eq|exact E].
    + left. now rewrite list_insert_ge by lia.
  - left. now apply list_lookup_insert_ne.
Qed.
End tabulate_frame_facts.

(** X16.  The loops of [setupTabularBrdf] write spectra and nothing else:
    the class of the grid, its source type, its four arrays of angles, its
    wavelengths, its colour model and its derived flags are as before, and
    so is the number of stored spectra.  Each stored spectrum is as before
    or has three channels on an RGB grid and one on a monochromatic grid.
    On a grid of another colour model nothing at all is changed and one
    error is written to [std::cerr]. *)
Theorem setupTabularBrdf_frame
    (getBrdfValue : Vec3 -> Vec3 -> Vec3)
    (getInOutDirection : Brdf -> nat -> nat -> nat -> nat -> Vec3 * Vec3)
    (isDownwardDir : Vec3 -> bool) (normalize : Vec3 -> Vec3)
    (fillBackSide : Brdf -> Brdf)
    (dataType : DataType) (maxValue : spec_float)
    (brdf : Brdf) (cerr : Log.t) :
  let ss := Brdf.getSampleSet brdf in
  let cm := SampleSet.getColorModel ss in
  let fillable :=
    match class_ brdf with SpecularCoordinatesBrdf => true | _ => false end in
  let tabulated :=
    foldl (reflectance_model_utility.tabulate_store getBrdfValue
             getInOutDirection isDownwardDir normalize dataType maxValue cm
             fillable)
          brdf (reflectance_model_utility.cells ss) in
  let result :=
    reflectance_model_utility.setupTabularBrdf getBrdfValue getInOutDirection
      isDownwardDir normalize fillBackSide dataType maxValue (brdf, cerr) in
  frame_of tabulated = frame_of brdf
  /\ length (spectra_ (samples_ tabulated)) = length (spectra_ ss)
  /\ (forall j,
        spectra_ (samples_ tabulated) !! j = spectra_ ss !! j
        \/ exists sp, spectra_ (samples_ tabulated) !! j = Some sp
             /\ length sp = if decide (cm = RGB_MODEL) then 3%nat else 1%nat)
  /\ (fst result = true ->
      fst (snd result) = (if fillable then fillBackSide tabulated else tabulated)
      /\ snd (snd result) = cerr)
  /\ (fst result = false ->
      fst (snd result) = brdf
      /\ exists e, snd (snd result) = cerr ++ [e] /\ Log.level e = Log.Error).
Proof.
  intros ss cm fillable tabulated result.
  assert (Hinv : frame_of tabulated = frame_of brdf
    /\ length (spectra_ (samples_ tabulated)) = length (spectra_ ss)
    /\ (forall j,
          spectra_ (samples_ tabulated) !! j = spectra_ ss !! j
          \/ exists sp, spectra_ (samples_ tabulated) !! j = Some sp
               /\ length sp = if decide (cm = RGB_MODEL) then 3%nat else 1%nat)).
  { unfold tabulated. apply foldl_invariant.
    - intros b c (Hf & Hl & Hc).
      destruct (tabulate_store_frame getBrdfValue getInOutDirection
                  isDownwardDir normalize dataType maxValue cm fillable b c)
        as (Hf' & Hl' & Hc').
      split; [congruence|]. split; [congruence|].
      intros j. destruct (Hc' j) as [Hj|Hj]; [|now right].
      rewrite Hj. apply Hc.
    - split; [reflexivity|]. split; [reflexivity|]. intros j. now left. }
  destruct Hinv as (Hf & Hl & Hc).
  split; [exact Hf|]. split; [exact Hl|]. split; [exact Hc|].
  unfold result, reflectance_model_utility.setupTabularBrdf.
  fold ss cm.
  destruct (bool_decide (cm <> RGB_MODEL)
            && bool_decide (cm <> MONOCHROMATIC_MODEL)); cbn [fst snd].
  - split; [discriminate|]. intros _. split; [reflexivity|].
    eexists. split; reflexivity.
  - split; [|discriminate]. intros _. split; reflexivity.
Qed.

(** ** DdrWriter: the layout of a def block *)

Section def_layout_facts.
Import Stream.

Lemma data_values_bind {I} (l : list I) (f : I -> list Token)
    (g : I -> list spec_float) :
  (forall i rest, data_values (f i ++ rest) = g i ++ data_values rest) ->
  forall rest, data_values ((l ≫= f) ++ rest) = (l ≫= g) ++ data_values rest.
Proof.
  intros H. induction l as [|i l IH]; intros rest; [reflexivity|].
  rewrite !bind_cons. now rewrite <- !app_assoc, H, IH.
Qed.

Lemma count_lines_app t1 t2 :
  count_lines (t1 ++ t2) = (count_lines t1 + count_lines t2)%nat.
Proof. unfold count_lines. now rewrite List.filter_app, length_app. Qed.

Lemma count_lines_bind {I} (l : list I) (f : I -> list Token) c :
  (forall i, count_lines (f i) = c) ->
  count_lines (l ≫= f) = (length l * c)%nat.
Proof.
  intros H. induction l as [|i l IH]; [reflexivity|].
  rewrite bind_cons, count_lines_app, H, IH. cbn [length]. lia.
Qed.

Lemma length_bind_const {I A} (l : list I) (f : I -> list A) c :
  (forall i, length (f i) = c) -> length (l ≫= f) = (length l * c)%nat.
Proof.
  intros H. induction l as [|i l IH]; [reflexivity|].
  rewrite bind_cons, length_app, H, IH. cbn [length]. lia.
Qed.

Lemma data_values_comment s x rest :
  String.eqb s " " = false ->
  data_values (Str s :: Num x :: Endl :: rest) = data_values rest.
Proof. intros H. cbn [data_values]. now rewrite H. Qed.

Lemma data_values_value x rest :
  data_values (Str " " :: Num x :: rest) = x :: data_values rest.
Proof. reflexivity. Qed.

Lemma def_tokens_values toDegree value brdf :
  data_values (def_tokens toDegree value brdf)
  = (inPhIndex ← seq 0 (Brdf.getNumInPhi brdf);
     inThIndex ← seq 0 (Brdf.getNumInTheta brdf);
     spPhIndex ← seq 0 (Brdf.getNumSpecPhi brdf);
     spThIndex ← seq 0 (Brdf.getNumSpecTheta brdf);
     [value inThIndex inPhIndex spThIndex spPhIndex]).
Proof.
  unfold def_tokens.
  rewrite <- (app_nil_r (_ ≫= _)) at 1.
  rewrite (data_values_bind _ _
             (fun inPhIndex =>
                inThIndex ← seq 0 (Brdf.getNumInTheta brdf);
                spPhIndex ← seq 0 (Brdf.getNumSpecPhi brdf);
                spThIndex ← seq 0 (Brdf.getNumSpecTheta brdf);
                [value inThIndex inPhIndex spThIndex spPhIndex]));
    [now rewrite app_nil_r|].
  intros inPhIndex rest. cbv beta. rewrite <- ?app_assoc. cbn [app].
  rewrite data_values_comment by reflexivity.
  apply data_values_bind. intros inThIndex rest1.
  cbv beta. rewrite <- ?app_assoc. cbn [app].
  rewrite data_values_comment by reflexivity.
  apply data_values_bind. intros spPhIndex rest2.
  cbv beta. rewrite <- ?app_assoc. cbn [app].
  rewrite (data_values_bind _ _
             (fun spThIndex => [value inThIndex inPhIndex spThIndex spPhIndex]));
    [reflexivity|].
  intros spThIndex rest3. reflexivity.
Qed.

Lemma def_tokens_lines toDegree value brdf :
  count_lines (def_tokens toDegree value brdf)
  = (Brdf.getNumInPhi brdf
     * (1 + Brdf.getNumInTheta brdf * (1 + Brdf.getNumSpecPhi brdf)))%nat.
Proof.
  unfold def_tokens.
  rewrite (count_lines_bind _ _
             (1 + Brdf.getNumInTheta brdf * (1 + Brdf.getNumSpecPhi brdf))%nat);
    [now rewrite length_seq|].
  intros inPhIndex. rewrite count_lines_app.
  rewrite (count_lines_bind _ _ (1 + Brdf.getNumSpecPhi brdf)%nat);
    [rewrite length_seq; reflexivity|].
  intros inThIndex. rewrite count_lines_app.
  rewrite (count_lines_bind _ _ 1%nat); [rewrite length_seq; cbn; lia|].
  intros spPhIndex. rewrite count_lines_app.
  rewrite (count_lines_bind _ _ 0%nat); [cbn; lia|].
  intros spThIndex. reflexivity.
Qed.
End def_layout_facts.

(** X17.  The lines [output] streams between [def] and [enddef] hold one
    data value for every cell of the grid and no other: the values come in
    the order of the loops, the incoming azimuth outermost, then the incoming
    polar angle, the specular azimuth and the specular polar angle, so there
    are as many as the product of the four axis sizes.  The block has one
    comment line for each incoming azimuth, one for each incoming direction
    and one data line for each specular azimuth of each incoming direction;
    what was in the stream before is kept and nothing is logged. *)
Theorem output_def_layout
    (toDegree : spec_float -> spec_float) (xyzToSrgb : Spectrum -> Spectrum)
    (brdf : Brdf) (wlIndex : nat) (stream : Stream.ostream) (log : Log.t) :
  let value := DdrWriter.output_value xyzToSrgb brdf wlIndex in
  exists block,
    DdrWriter.output_def toDegree xyzToSrgb brdf wlIndex (stream, log)
    = (tt, (stream ++ block, log))
    /\ data_values block
       = (inPhIndex ← seq 0 (Brdf.getNumInPhi brdf);
          inThIndex ← seq 0 (Brdf.getNumInTheta brdf);
          spPhIndex ← seq 0 (Brdf.getNumSpecPhi brdf);
          spThIndex ← seq 0 (Brdf.getNumSpecTheta brdf);
          [value inThIndex inPhIndex spThIndex spPhIndex])
    /\ length (data_values block)
       = (Brdf.getNumInPhi brdf * (Brdf.getNumInTheta brdf
          * (Brdf.getNumSpecPhi brdf * Brdf.getNumSpecTheta brdf)))%nat
    /\ count_lines block
       = (Brdf.getNumInPhi brdf
          * (1 + Brdf.getNumInTheta brdf * (1 + Brdf.getNumSpecPhi brdf)))%nat.
Proof.
  intros value.
  exists (def_tokens toDegree value brdf).
  split; [apply (output_def_emits toDegree xyzToSrgb brdf wlIndex (stream, log))|].
  split; [apply def_tokens_values|].
  split; [|apply def_tokens_lines].
  rewrite def_tokens_values.
  rewrite (length_bind_const _ _
             (Brdf.getNumInTheta brdf
              * (Brdf.getNumSpecPhi brdf * Brdf.getNumSpecTheta brdf))%nat);
    [now rewrite length_seq|].
  intros inPhIndex.
  rewrite (length_bind_const _ _
             (Brdf.getNumSpecPhi brdf * Brdf.getNumSpecTheta brdf)%nat);
    [now rewrite length_seq|].
  intros inThIndex.
  rewrite (length_bind_const _ _ (Brdf.getNumSpecTheta brdf));
    [now rewrite length_seq|].
  intros spPhIndex.
  rewrite (length_bind_const _ _ 1%nat); [rewrite length_seq; lia|].
  reflexivity.
Qed.

(** ** setupTabularBrdf: where the model is evaluated *)

Section tabulate_query_facts.
Import IEEE reflectance_model_utility.

End tabulate_query_facts.


(** ** The writer of 2014-2015 *)

Section writer2015_facts.
Import IEEE Stream DdrWriter.

Variable toDegree : spec_float -> spec_float.
Variable xyzToSrgb : Spectrum -> Spectrum.
Variable getVersion : string.

Lemma output_def_2015_emits brdf wlIndex :
  emits (DdrWriter2015.output_def toDegree xyzToSrgb brdf wlIndex) tt
        (def_tokens toDegree (DdrWriter2015.output_value xyzToSrgb brdf wlIndex)
                    brdf).
Proof.
  unfold DdrWriter2015.output_def, def_tokens.
  apply emits_for_. intros inPhIndex.
  eapply emits_bind; [apply emits_put|].
  apply emits_for_. intros inThIndex.
  eapply emits_bind; [apply emits_put|].
  apply emits_for_. intros spPhIndex.
  eapply emits_bind; [|apply emits_put].
  apply emits_for_. intros spThIndex. apply emits_put.
Qed.

Lemma output_channel_2015_appends brdf colorModel wlIndex :
  appends (DdrWriter2015.output_channel toDegree xyzToSrgb brdf colorModel
             wlIndex).
Proof.
  unfold DdrWriter2015.output_channel. cbv zeta.
  apply appends_bind; [appends_tac|intros _].
  do 4 (apply appends_bind; [appends_tac|intros _]).
  apply appends_bind; [|intros _; appends_tac].
  eapply emits_appends, output_def_2015_emits.
Qed.

(** [output] of 2014-2015 starts with the line of the generator, and returns
    true. *)
Lemma output_2015_emits brdf :
  exists t,
    emits (DdrWriter2015.output toDegree xyzToSrgb getVersion brdf) true
      ([Str ";; This file is generated by libbsdf-"; Str getVersion;
        Str (String "."%char (String "010"%char EmptyString)); Endl] ++ t).
Proof.
  unfold DdrWriter2015.output.
  assert (Hrest : forall m : Out bool, returns m true ->
            exists t, emits (do_ put
              [Str ";; This file is generated by libbsdf-"; Str getVersion;
               Str (String "."%char (String "010"%char EmptyString)); Endl];
              m) true
              ([Str ";; This file is generated by libbsdf-"; Str getVersion;
                Str (String "."%char (String "010"%char EmptyString)); Endl]
               ++ t)).
  { intros m [t Ht]. exists t. eapply emits_bind; [apply emits_put|exact Ht]. }
  apply Hrest. cbv zeta.
  repeat (apply returns_bind;
          [first [apply output_angles_appends
                 |apply appends_for_; intros; apply output_channel_2015_appends
                 |appends_tac; apply output_angles_appends]
          |intros]).
  apply returns_ret.
Qed.

(** Clamping at zero keeps a spectrum without a channel below zero. *)
Lemma cwiseMax_zero_id (sp : Spectrum) :
  (forall c, c ∈ sp -> ltb c zero = false) -> Eigen.cwiseMax sp zero = sp.
Proof.
  intros H. unfold Eigen.cwiseMax.
  induction sp as [|c sp IH]; [reflexivity|].
  cbn [fmap list_fmap]. f_equal.
  - unfold std_max. now rewrite (H c) by left.
  - apply IH. intros c' Hc'. apply H. now right.
Qed.

Lemma bind_seq_ext {A} (f g : nat -> list A) n :
  (forall i, (i < n)%nat -> f i = g i) -> seq 0 n ≫= f = seq 0 n ≫= g.
Proof.
  intros H.
  assert (Hgen : forall l : list nat, (forall i, i ∈ l -> (i < n)%nat) ->
            l ≫= f = l ≫= g).
  { induction l as [|i l IH]; intros Hl; [reflexivity|].
    rewrite !bind_cons. rewrite H by (apply Hl; left).
    f_equal. apply IH. intros j Hj. apply Hl. now right. }
  apply Hgen. intros i Hi. apply elem_of_seq in Hi. lia.
Qed.

Lemma def_tokens_ext value1 value2 brdf :
  (forall inThIndex inPhIndex spThIndex spPhIndex,
     (inThIndex < Brdf.getNumInTheta brdf)%nat ->
     (inPhIndex < Brdf.getNumInPhi brdf)%nat ->
     (spThIndex < Brdf.getNumSpecTheta brdf)%nat ->
     (spPhIndex < Brdf.getNumSpecPhi brdf)%nat ->
     value1 inThIndex inPhIndex spThIndex spPhIndex
     = value2 inThIndex inPhIndex spThIndex spPhIndex) ->
  def_tokens toDegree value1 brdf = def_tokens toDegree value2 brdf.
Proof.
  intros H. unfold def_tokens.
  apply bind_seq_ext. intros inPhIndex H1. f_equal.
  apply bind_seq_ext. intros inThIndex H0. f_equal.
  apply bind_seq_ext. intros spPhIndex H3. f_equal.
  apply bind_seq_ext. intros spThIndex H2.
  now rewrite H.
Qed.
End writer2015_facts.

(** X20.  [write] of 2014-2015 returns true exactly when the file can be
    opened: the grid is never validated, so a grid with NaN or infinite
    samples is written like any other.  When the file cannot be opened, no
    file changes and one error goes to [std::cerr]; when it can, the file
    holds what [output] streams, which starts with the line of the generator,
    and nothing of what it held before, the other files are as they were and
    nothing goes to [std::cerr]. *)
Theorem write_2015_result
    (toDegree : spec_float -> spec_float) (xyzToSrgb : Spectrum -> Spectrum)
    (getVersion : string) (fileName : string) (brdf : Brdf)
    (fs : FileSystem) (cerr : Log.t) :
  let result :=
    DdrWriter2015.write toDegree xyzToSrgb getVersion fileName brdf (fs, cerr) in
  let fs' := fst (snd result) in
  fst result = canOpen fs fileName
  /\ (canOpen fs fileName = false ->
      fs' = fs
      /\ exists e, snd (snd result) = cerr ++ [e] /\ Log.level e = Log.Error)
  /\ (canOpen fs fileName = true ->
      (exists t,
         contents fs' fileName
         = Some ([Stream.Str ";; This file is generated by libbsdf-";
                  Stream.Str getVersion;
                  Stream.Str (String "."%char (String "010"%char EmptyString));
                  Stream.Endl] ++ t))
      /\ contents fs' fileName
         = Some (fst (snd (DdrWriter2015.output toDegree xyzToSrgb getVersion
                             brdf ([], []))))
      /\ (forall f, f <> fileName -> contents fs' f = contents fs f)
      /\ snd (snd result) = cerr).
Proof.
  intros result fs'. unfold fs', result, DdrWriter2015.write.
  destruct (output_2015_emits toDegree xyzToSrgb getVersion brdf) as [t Ht].
  destruct (canOpen fs fileName); cbn [negb].
  - rewrite (Ht ([], cerr)), (Ht ([], [])). cbn [fst snd contents app].
    split; [reflexivity|]. split; [discriminate|]. intros _.
    rewrite String.eqb_refl.
    split; [now exists t|]. split; [reflexivity|]. split; [|reflexivity].
    intros f Hf. destruct (String.eqb f fileName) eqn:Ef; [|reflexivity].
    apply String.eqb_eq in Ef. contradiction.
  - cbn [fst snd]. split; [reflexivity|]. split; [|discriminate].
    intros _. split; [reflexivity|]. eexists. split; reflexivity.
Qed.

(** X21.  On a grid that holds no channel below zero, the lines between
    [def] and [enddef] are the same in the two versions of the writer: the
    clamp at zero that [output] has and the writer of 2014-2015 has not
    changes no value, with or without the conversion from XYZ. *)
Theorem output_def_versions_agree
    (toDegree : spec_float -> spec_float) (xyzToSrgb : Spectrum -> Spectrum)
    (brdf : Brdf) (wlIndex : nat) (s : Stream.ostream * Log.t) :
  noneBelowZero brdf ->
  DdrWriter.output_def toDegree xyzToSrgb brdf wlIndex s
  = DdrWriter2015.output_def toDegree xyzToSrgb brdf wlIndex s.
Proof.
  intros Hnn.
  rewrite (output_def_emits toDegree xyzToSrgb brdf wlIndex s).
  rewrite (output_def_2015_emits toDegree xyzToSrgb brdf wlIndex s).
  f_equal. f_equal. f_equal.
  apply def_tokens_ext. intros inThIndex inPhIndex spThIndex spPhIndex H0 H1 H2 H3.
  unfold DdrWriter.output_value, DdrWriter2015.output_value. cbv zeta.
  rewrite cwiseMax_zero_id by (now apply Hnn). reflexivity.
Qed.

Lemma output_def_versions_agree_witness :
  DdrWriter.output_def toDegree_f SpectrumUtility.xyzToSrgb
    brdf_of_one_inTheta 1 ([], [])
  = DdrWriter2015.output_def toDegree_f SpectrumUtility.xyzToSrgb
      brdf_of_one_inTheta 1 ([], []).
Proof.
  apply output_def_versions_agree.
  intros inThIndex inPhIndex spThIndex spPhIndex _ _ _ _ c Hc.
  unfold Brdf.getSpectrum, SampleSet.getSpectrum in Hc.
  set (k := SampleSet.index _ _ _ _ _) in Hc. clearbody k.
  cbn [samples_ brdf_of_one_inTheta spectra_] in Hc.
  do 6 (destruct k as [|k];
        [cbn in Hc;
         repeat (apply elem_of_cons in Hc as [->|Hc]; [vm_compute; reflexivity|]);
         now apply elem_of_nil in Hc|]).
  cbn in Hc. now apply elem_of_nil in Hc.
Defined.

(** ** DdrWriter: the first step of arrange *)

Section flat_extension_facts.
Import IEEE SampleSet.

(** The element [j] of the block [i] of a list made of blocks of one
    length. *)
Lemma lookup_bind_block {A} (f : nat -> list A) (c : nat) :
  (forall k, length (f k) = c) ->
  forall n a i j, (i < n)%nat -> (j < c)%nat ->
    (seq a n ≫= f) !! (j + c * i)%nat = f (a + i)%nat !! j.
Proof.
  intros Hlen. induction n as [|n IH]; intros a i j Hi Hj; [lia|].
  cbn [seq]. rewrite bind_cons.
  destruct i as [|i].
  - rewrite Nat.mul_0_r, !Nat.add_0_r.
    apply lookup_app_l. rewrite Hlen. exact Hj.
  - rewrite Nat.mul_succ_r.
    rewrite lookup_app_r by (rewrite Hlen; lia).
    rewrite Hlen.
    replace (j + (c * i + c) - c)%nat with (j + c * i)%nat by lia.
    rewrite IH by lia.
    replace (a + S i)%nat with (S a + i)%nat by lia. reflexivity.
Qed.

Lemma index_lt (a b i j : nat) :
  (i < a)%nat -> (j < b)%nat -> (i + a * j < a * b)%nat.
Proof.
  intros Hi Hj.
  assert (a * j + a <= a * b)%nat
    by (rewrite <- Nat.mul_succ_r; apply Nat.mul_le_mono_l; lia).
  lia.
Qed.

(** The cell [(i0, i1, i2, i3)] of a flat extension to [n0] incoming polar
    angles holds the samples of the cell [(0, i1, i2, i3)] of the grid. *)
Lemma flatExtension_lookup brdf (a0 a1 a2 a3 : Array) i0 i1 i2 i3 :
  (i0 < length a0)%nat -> (i1 < length a1)%nat ->
  (i2 < length a2)%nat -> (i3 < length a3)%nat ->
  flatExtension brdf a0 a1 a2 a3
    !! (i0 + length a0 * i1 + length a0 * length a1 * i2
        + length a0 * length a1 * length a2 * i3)%nat
  = Some (Brdf.getSpectrum brdf 0 i1 i2 i3).
Proof.
  intros H0 H1 H2 H3. unfold flatExtension.
  set (n0 := length a0) in *. set (n1 := length a1) in *.
  set (n2 := length a2) in *. set (n3 := length a3) in *.
  assert (L0 : forall i1 i2 i3,
            length (seq 0 n0 ≫= fun _ => [Brdf.getSpectrum brdf 0 i1 i2 i3])
            = n0).
  { intros. rewrite (length_bind_const _ _ 1%nat) by reflexivity.
    rewrite length_seq. lia. }
  assert (L1 : forall i2 i3,
            length (seq 0 n1 ≫= fun i1 =>
                      seq 0 n0 ≫= fun _ => [Brdf.getSpectrum brdf 0 i1 i2 i3])
            = (n0 * n1)%nat).
  { intros. rewrite (length_bind_const _ _ n0) by (intros; apply L0).
    rewrite length_seq. lia. }
  assert (L2 : forall i3,
            length (seq 0 n2 ≫= fun i2 =>
                      seq 0 n1 ≫= fun i1 =>
                        seq 0 n0 ≫= fun _ => [Brdf.getSpectrum brdf 0 i1 i2 i3])
            = (n0 * n1 * n2)%nat).
  { intros. rewrite (length_bind_const _ _ (n0 * n1)%nat) by (intros; apply L1).
    rewrite length_seq. lia. }
  assert (B1 : (i0 + n0 * i1 < n0 * n1)%nat) by (now apply index_lt).
  assert (B2 : (i0 + n0 * i1 + n0 * n1 * i2 < n0 * n1 * n2)%nat)
    by (now apply index_lt).
  rewrite (lookup_bind_block _ (n0 * n1 * n2)%nat L2 n3 0 i3
             (i0 + n0 * i1 + n0 * n1 * i2)%nat H3 B2).
  cbn [Nat.add].
  rewrite (lookup_bind_block _ (n0 * n1)%nat (fun k => L1 k i3) n2 0 i2
             (i0 + n0 * i1)%nat H2 B1).
  cbn [Nat.add].
  rewrite (lookup_bind_block _ n0 (fun k => L0 k i2 i3) n1 0 i1 i0 H1 H0).
  cbn [Nat.add].
  replace i0 with (0 + 1 * i0)%nat at 1 by lia.
  rewrite (lookup_bind_block
             (fun _ : nat => [Brdf.getSpectrum brdf 0 i1 i2 i3]) 1%nat
             (fun _ => eq_refl) n0 0 i0 0%nat H0) by lia.
  reflexivity.
Qed.
End flat_extension_facts.

(** C7.  [arrange] runs its passes on the grid that its first step gives.
    On a grid whose incoming polar axis has exactly one sample that step
    replaces the axis by exactly 10 samples, spaced linearly from 0 to the
    largest incoming polar angle, keeps the other three axes and resamples
    the single-angle data onto the new axis: every cell of the new grid holds
    the samples the given grid has at the same incoming azimuth and specular
    offset.  On a grid with another number of incoming polar samples the
    step changes nothing. *)
Theorem arrange_expand_spec
    (isEqual : spec_float -> spec_float -> bool)
    (equalizeOverlappingSamples expandAngles : Brdf -> Brdf)
    (copySpectraFromPhiOf0To360 : SampleSet -> SampleSet)
    (fixEnergyConservation : Brdf -> Brdf)
    (fillSpectraAtInThetaOf90 : Brdf -> spec_float -> Brdf)
    (brdf : Brdf) (dataType : DataType) :
  let expanded := DdrWriter.arrange_expand isEqual flatExtension brdf in
  let ss := Brdf.getSampleSet brdf in
  let ss' := Brdf.getSampleSet expanded in
  let max := SpecularCoordinateSystem.MAX_ANGLE0 in
  let step := IEEE.div IEEE.binary32 max (IEEE.ofZ IEEE.binary32 9) in
  DdrWriter.arrange isEqual flatExtension equalizeOverlappingSamples
    expandAngles copySpectraFromPhiOf0To360 fixEnergyConservation
    fillSpectraAtInThetaOf90 brdf dataType
  = (let equalized := equalizeOverlappingSamples expanded in
     let widened := expandAngles equalized in
     let closed :=
       Brdf.setSampleSet
         (copySpectraFromPhiOf0To360 (Brdf.getSampleSet widened)) widened in
     let plausible := fixEnergyConservation closed in
     if decide (dataType = BTDF_DATA)
     then fillSpectraAtInThetaOf90 plausible IEEE.zero
     else plausible)
  /\ (Brdf.getNumInTheta brdf = 1%nat ->
      Brdf.getNumInTheta expanded = 10%nat
      /\ angles0_ ss' = Eigen.LinSpaced IEEE.binary32 10 IEEE.zero max
      /\ angles0_ ss' !!! 0%nat = IEEE.zero
      /\ angles0_ ss' !!! 9%nat = max
      /\ (forall i, (i < 9)%nat ->
            angles0_ ss' !!! i
            = IEEE.mul IEEE.binary32 (IEEE.ofZ IEEE.binary32 (Z.of_nat i)) step)
      /\ angles1_ ss' = angles1_ ss /\ angles2_ ss' = angles2_ ss
      /\ angles3_ ss' = angles3_ ss
      /\ (forall inThIndex inPhIndex spThIndex spPhIndex,
            (inThIndex < 10)%nat ->
            (inPhIndex < Brdf.getNumInPhi brdf)%nat ->
            (spThIndex < Brdf.getNumSpecTheta brdf)%nat ->
            (spPhIndex < Brdf.getNumSpecPhi brdf)%nat ->
            Brdf.getSpectrum expanded inThIndex inPhIndex spThIndex spPhIndex
            = Brdf.getSpectrum brdf 0 inPhIndex spThIndex spPhIndex))
  /\ (Brdf.getNumInTheta brdf <> 1%nat -> expanded = brdf).
Proof.
  intros expanded ss ss' max step.
  split; [reflexivity|].
  unfold ss', expanded, DdrWriter.arrange_expand.
  split.
  - intros H1. rewrite H1. simpl Nat.eqb. cbv iota zeta.
    unfold ss, step, max. clear ss step max.
    unfold DdrWriter.fromBrdfAndAngles, Brdf.getNumInTheta, Brdf.getNumInPhi,
      Brdf.getNumSpecTheta, Brdf.getNumSpecPhi, Brdf.getSpectrum,
      SampleSet.getSpectrum, SampleSet.index,
      SampleSet.getNumAngles0, SampleSet.getNumAngles1,
      SampleSet.getNumAngles2, SampleSet.getNumAngles3, Brdf.getSampleSet.
    cbn [samples_].
    match goal with
    | |- context [SampleSetMethods.updateAngleAttributes isEqual (?c, ?l)] =>
        pose proof (updateAngleAttributes_keeps isEqual c l) as Hk;
        cbv zeta in Hk
    end.
    destruct Hk as (H0 & Ha1 & Ha2 & Ha3 & Hsp & _).
    rewrite H0, Ha1, Ha2, Ha3, Hsp.
    cbn [angles0_ angles1_ angles2_ angles3_ spectra_].
    split; [reflexivity|]. split; [reflexivity|].
    split; [reflexivity|]. split; [reflexivity|].
    split; [|split; [reflexivity|split; [reflexivity|split; [reflexivity|]]]].
    + intros i Hi.
      destruct i as [|[|[|[|[|[|[|[|[|i]]]]]]]]]; try lia; vm_compute; reflexivity.
    + intros i0 i1 i2 i3 Hi0 Hi1 Hi2 Hi3.
      apply list_lookup_total_correct.
      pose proof (flatExtension_lookup brdf
                    (Eigen.LinSpaced DdrWriter.f32 10 IEEE.zero
                       SpecularCoordinateSystem.MAX_ANGLE0)
                    (angles1_ (samples_ brdf)) (angles2_ (samples_ brdf))
                    (angles3_ (samples_ brdf)) i0 i1 i2 i3) as Hl.
      rewrite Hl; [reflexivity | rewrite length_LinSpaced | ..]; assumption.
  - intros H1. destruct (Brdf.getNumInTheta brdf =? 1)%nat eqn:E; [|reflexivity].
    apply Nat.eqb_eq in E. contradiction.
Qed.

Lemma arrange_expand_spec_witness :
  let arranged :=
    DdrWriter.arrange isEqual_exact flatExtension id id id id
      (fun brdf _ => brdf) brdf_of_one_inTheta BRDF_DATA in
  Brdf.getNumInTheta arranged = 10%nat
  /\ Brdf.getSpectrum arranged 7 0 2 1
     = [Utility.one_f; Utility.two_f; Utility.three_f].
Proof.
  intros arranged.
  destruct (arrange_expand_spec isEqual_exact id id id id
              (fun brdf _ => brdf) brdf_of_one_inTheta BRDF_DATA)
    as (Harr & Hone & _).
  cbv zeta in Harr. unfold arranged. rewrite Harr.
  destruct (Hone eq_refl) as (Hn & _ & _ & _ & _ & _ & _ & _ & Hcell).
  split; [exact Hn|].
  unfold id. cbn [decide_rel]. 
  rewrite Hcell by (vm_compute; lia). vm_compute. reflexivity.
Defined.

(** ** DdrWriter: the values of a file *)

Section channel_facts.
Import IEEE Stream DdrWriter.

Variable toDegree : spec_float -> spec_float.
Variable getVersion : string.
Variable xyzToSrgb : Spectrum -> Spectrum.

Lemma output_channel_emits brdf colorModel wlIndex :
  emits (output_channel toDegree xyzToSrgb brdf colorModel wlIndex) tt
        (channel_intro brdf colorModel wlIndex
         ++ [Str (String "010"%char " def"); Endl]
         ++ def_tokens toDegree (output_value xyzToSrgb brdf wlIndex) brdf
         ++ [Str " enddef"; Endl]).
Proof.
  unfold output_channel, channel_intro. cbv zeta.
  rewrite <- !app_assoc.
  eapply emits_bind.
  { destruct colorModel; try apply emits_put.
    destruct (wlIndex =? 0)%nat; [apply emits_put|].
    destruct (wlIndex =? 1)%nat; apply emits_put. }
  apply (emits_bind _ _ tt tt [Str " kbdf"; Endl]); [apply emits_put|].
  apply (emits_bind _ _ tt tt [Str " "]); [apply emits_put|].
  eapply emits_bind.
  { apply (emits_for_ _ _ (fun _ => [Str " 1.0"])). intros i. apply emits_put. }
  apply (emits_bind _ _ tt tt [Str (String "010"%char " def"); Endl]);
    [apply emits_put|].
  eapply emits_bind; [apply output_def_emits|apply emits_put].
Qed.

(** A prefix is streamed, then the channels. *)
Lemma blocks_bind {A} (m : Out A) (k : A -> Out bool)
    (T : ColorModel -> list Token) :
  appends m ->
  (forall a, exists header cm, emits (k a) true (header ++ T cm)) ->
  exists header cm, emits (bind m k) true (header ++ T cm).
Proof.
  intros (a & t1 & E1) Hk. destruct (Hk a) as (header & cm & E2).
  exists (t1 ++ header), cm. rewrite <- app_assoc.
  now apply emits_bind with a.
Qed.

Lemma output_lines_blocks brdf comments :
  exists header colorModel,
    emits (output_lines toDegree getVersion xyzToSrgb brdf comments) true
          (header
           ++ channel_blocks toDegree (output_value xyzToSrgb brdf) brdf
                colorModel).
Proof.
  unfold output_lines.
  repeat first
    [ match goal with
      | |- exists header cm,
             emits (bind (for_ _ (output_channel _ _ _ ?c)) _) true _ =>
          exists [], c; cbn [app];
          rewrite <- (app_nil_r (channel_blocks _ _ _ _));
          eapply emits_bind; [|apply emits_ret];
          unfold channel_blocks; apply emits_for_; intros;
          apply output_channel_emits
      end
    | apply blocks_bind;
      [first [apply output_angles_appends
             |appends_tac; apply output_angles_appends]
      |intros] ].
Qed.

(** [output] on a grid that passes [validate]. *)
Lemma output_blocks brdf comments s :
  fst (output toDegree getVersion xyzToSrgb brdf comments s) = true ->
  exists header colorModel,
    fst (snd (output toDegree getVersion xyzToSrgb brdf comments s))
    = fst s ++ header
      ++ channel_blocks toDegree (output_value xyzToSrgb brdf) brdf colorModel.
Proof.
  destruct s as [stream log]. intros Hout.
  pose proof (output_true_isValid _ _ _ _ _ _ Hout) as Hvalid.
  destruct (output_lines_blocks brdf comments) as (header & cm & E).
  exists header, cm.
  unfold output. unfold bind at 1. unfold call. cbn [fst snd].
  destruct (validate_reads (Brdf.getSampleSet brdf) log) as [log1 E1].
  unfold validate. rewrite E1, Hvalid. cbn [negb].
  rewrite E. reflexivity.
Qed.
End channel_facts.

(** X22.  When [output] writes a file, it streams, after the header, one
    channel for each wavelength, and the lines between [def] and [enddef] of
    a channel hold, for every cell in the order of the loops, the value of
    the channel of the stored spectrum clamped at 0, converted by [xyzToSrgb]
    if the colour model is XYZ, times π.  For every colour model but XYZ that
    value is not below zero, whatever the stored samples; for XYZ it is not
    below zero when the converted channel is not. *)
Theorem output_streams_clamped
    (toDegree : spec_float -> spec_float) (getVersion : string)
    (xyzToSrgb : Spectrum -> Spectrum)
    (brdf : Brdf) (comments : string) (s : Stream.ostream * Log.t) :
  fst (DdrWriter.output toDegree getVersion xyzToSrgb brdf comments s) = true ->
  let ss := Brdf.getSampleSet brdf in
  let value := DdrWriter.output_value xyzToSrgb brdf in
  (exists header colorModel,
     fst (snd (DdrWriter.output toDegree getVersion xyzToSrgb brdf comments s))
     = fst s ++ header
       ++ (wlIndex ← seq 0 (SampleSet.getNumWavelengths ss);
           channel_intro brdf colorModel wlIndex
           ++ [Stream.Str (String "010"%char " def"); Stream.Endl]
           ++ def_tokens toDegree (value wlIndex) brdf
           ++ [Stream.Str " enddef"; Stream.Endl]))
  /\ (forall wlIndex,
        data_values (def_tokens toDegree (value wlIndex) brdf)
        = (inPhIndex ← seq 0 (Brdf.getNumInPhi brdf);
           inThIndex ← seq 0 (Brdf.getNumInTheta brdf);
           spPhIndex ← seq 0 (Brdf.getNumSpecPhi brdf);
           spThIndex ← seq 0 (Brdf.getNumSpecTheta brdf);
           [value wlIndex inThIndex inPhIndex spThIndex spPhIndex]))
  /\ forall wlIndex inThIndex inPhIndex spThIndex spPhIndex,
       (inThIndex < Brdf.getNumInTheta brdf)%nat ->
       (inPhIndex < Brdf.getNumInPhi brdf)%nat ->
       (spThIndex < Brdf.getNumSpecTheta brdf)%nat ->
       (spPhIndex < Brdf.getNumSpecPhi brdf)%nat ->
       let sp := Brdf.getSpectrum brdf inThIndex inPhIndex spThIndex spPhIndex in
       (wlIndex < length sp)%nat ->
       let v := value wlIndex inThIndex inPhIndex spThIndex spPhIndex in
       let clamped := Eigen.cwiseMax sp IEEE.zero in
       clamped !!! wlIndex = IEEE.std_max (sp !!! wlIndex) IEEE.zero
       /\ IEEE.leb IEEE.zero (clamped !!! wlIndex) = true
       /\ (SampleSet.getColorModel ss <> XYZ_MODEL ->
           v = IEEE.mul IEEE.binary32 (clamped !!! wlIndex) Utility.PI_F
           /\ IEEE.leb IEEE.zero v = true)
       /\ (SampleSet.getColorModel ss = XYZ_MODEL ->
           v = IEEE.mul IEEE.binary32 (xyzToSrgb clamped !!! wlIndex) Utility.PI_F
           /\ (IEEE.leb IEEE.zero (xyzToSrgb clamped !!! wlIndex) = true ->
               IEEE.leb IEEE.zero v = true)).
Proof.
  intros Hout ss value.
  split; [exact (output_blocks toDegree getVersion xyzToSrgb brdf comments s Hout)|].
  split; [intros wlIndex; apply def_tokens_values|].
  intros wlIndex inThIndex inPhIndex spThIndex spPhIndex H0 H1 H2 H3 sp Hwl v clamped.
  apply output_true_isValid in Hout.
  unfold isValid in Hout. rewrite !andb_true_iff in Hout.
  destruct Hout as [[[[[Hcells _] _] _] _] _].
  assert (Hsp : Eigen.allFinite sp = true)
    by (apply (proj1 (spectraValid_of_true _) Hcells); assumption).
  assert (Hfin : IEEE.is_finite (sp !!! wlIndex) = true).
  { unfold Eigen.allFinite in Hsp. rewrite forallb_forall in Hsp. apply Hsp.
    apply list_elem_of_In, list_elem_of_lookup_total_2, Hwl. }
  assert (Hcl : clamped !!! wlIndex = IEEE.std_max (sp !!! wlIndex) IEEE.zero).
  { unfold clamped, Eigen.cwiseMax. now apply lookup_total_fmap_lt. }
  destruct (std_max_zero_nonneg _ Hfin) as [Hnn _].
  split; [exact Hcl|]. split; [now rewrite Hcl|].
  unfold v, value, DdrWriter.output_value. fold ss sp clamped. split.
  - intros Hcm. destruct (decide (SampleSet.getColorModel ss = XYZ_MODEL));
      [contradiction|].
    split; [reflexivity|]. apply mul_PI_F_nonneg. now rewrite Hcl.
  - intros Hcm. destruct (decide (SampleSet.getColorModel ss = XYZ_MODEL));
      [|contradiction].
    split; [reflexivity|]. apply mul_PI_F_nonneg.
Qed.

Lemma output_streams_clamped_witness :
  let v := DdrWriter.output_value SpectrumUtility.xyzToSrgb brdf_negative
             0 0 0 0 0 in
  Brdf.getSpectrum brdf_negative 0 0 0 0 !!! 0%nat = IEEE.opp Utility.one_f
  /\ v = IEEE.mul IEEE.binary32 IEEE.zero Utility.PI_F
  /\ IEEE.leb IEEE.zero v = true.
Proof.
  intros v.
  pose proof (output_streams_clamped toDegree_f "2" SpectrumUtility.xyzToSrgb
                brdf_negative EmptyString ([], [])) as H.
  cbv zeta in H. destruct H as (_ & _ & H); [vm_compute; reflexivity|].
  assert (Hlt : forall a b : nat, (a <? b)%nat = true -> (a < b)%nat)
    by (intros a b; apply Nat.ltb_lt).
  destruct (H 0%nat 0%nat 0%nat 0%nat 0%nat) as (Hcl & _ & Hrgb & _);
    [apply Hlt; reflexivity ..|].
  destruct Hrgb as [Hv Hnn]; [discriminate|].
  split; [reflexivity|]. split; [|exact Hnn].
  unfold v. rewrite Hv, Hcl. reflexivity.
Defined.

(** C1 fails on the writer of 2014-2015.  It streams the stored channel
    times π as it is: on an RGB grid whose red samples are -1, which it
    writes without a complaint, the first value after [def] is -π.  The
    [output] of DdrWriter.cpp clamps the spectrum at 0 first and writes 0
    there. *)
Theorem output_2015_writes_negative :
  forall xyzToSrgb : Spectrum -> Spectrum,
  let written :=
    DdrWriter2015.output toDegree_f xyzToSrgb "2" brdf_negative ([], []) in
  let v := DdrWriter2015.output_value xyzToSrgb brdf_negative 0 0 0 0 0 in
  let v' := DdrWriter.output_value xyzToSrgb brdf_negative 0 0 0 0 0 in
  fst written = true
  /\ Stream.Num v ∈ fst (snd written)
  /\ v = IEEE.mul IEEE.binary32 (IEEE.opp Utility.one_f) Utility.PI_F
  /\ IEEE.ltb v IEEE.zero = true
  /\ data_values
       (fst (snd (DdrWriter2015.output_def toDegree_f xyzToSrgb
                    brdf_negative 0 ([], []))))
     = [v; v; v; v]
  /\ IEEE.leb IEEE.zero v' = true
  /\ data_values
       (fst (snd (DdrWriter.output_def toDegree_f xyzToSrgb
                    brdf_negative 0 ([], []))))
     = [v'; v'; v'; v'].
Proof.
  intros xyzToSrgb. cbv zeta. split; [vm_compute; reflexivity|]. split.
  - apply list_elem_of_In. vm_compute.
    repeat first [left; reflexivity | right].
  - repeat split; vm_compute; reflexivity.
Qed.
